(** * CollabSlides backend: presence and broadcast coordination

    A shallow embedding of [src/services/database.ts] (the [DatabaseService]
    class) and of the socket server that uses it (the three tracking maps,
    the helper functions, the reaper timer, the REST routes that create, fetch
    and delete a presentation, and the Socket.IO handlers), followed by the
    properties of the presence layer and then of the rest of the code.

    Conventions
    - identifiers (presentation, slide, user, socket) are [string]s;
    - instants are [Z], milliseconds since the epoch; an ISO string made by
      [toISOString] orders as its instant does;
    - JavaScript [number]s that are only stored and passed on (coordinates,
      sizes) are [Z];
    - [Map<string, _>] is a [gmap string _], [Set<string>] a [gset string];
      the order in which a [forEach] visits a set is the order of
      [elements], which is not the insertion order of JavaScript: statements
      below speak of who receives an event, not of the order of receipt;
    - Socket.IO has rooms of its own, which [socket.join], [socket.leave] and
      the end of a connection change and [socket.to(room).emit] reads; they
      are a map beside the world, driven by the effects of the handlers;
    - the database is a record of tables, each a list of rows in storage
      order; a request is answered by an error whenever the oracle [faults]
      says so (network failure, malformed uuid text, a failing trigger, ...),
      and otherwise by the query evaluated on the tables;
    - a handler runs from its first statement to its last without another
      handler in between: the blocks that touch the tracking maps contain no
      [await], so they never interleave. *)

From stdpp Require Import gmap strings list fin_maps fin_sets sorting.

Open Scope string_scope.
Open Scope list_scope.

(** ** Types of [database.ts] *)

Inductive Role := owner | editor | viewer.

#[global] Instance Role_eq_dec : EqDecision Role.
Proof. solve_decision. Defined.

Module TextBlock.
Record t := mk {
  id : string;
  slide_id : string;
  content : string;
  x : Z;
  y : Z;
  width : Z;
  height : Z;
  font_size : Z;
  font_weight : string;
  color : string;
  created_at : option Z
}.
End TextBlock.

Module Slide.
Record t := mk {
  id : string;
  presentation_id : string;
  title : string;
  slide_order : Z;
  text_blocks : option (list TextBlock.t)
}.
End Slide.

Module PresentationUser.
Record t := mk {
  id : string;
  presentation_id : string;
  nickname : string;
  role : Role;
  socket_id : option string;
  is_active : bool;
  joined_at : option Z;
  last_seen : option Z
}.

Definition set_is_active (b : bool) (u : t) : t :=
  mk (id u) (presentation_id u) (nickname u) (role u) (socket_id u) b
     (joined_at u) (last_seen u).

Definition set_role (r : Role) (u : t) : t :=
  mk (id u) (presentation_id u) (nickname u) r (socket_id u) (is_active u)
     (joined_at u) (last_seen u).
End PresentationUser.

Module Presentation.
Record t := mk {
  id : string;
  title : string;
  current_slide_index : Z;
  present_mode : bool;
  slides : option (list Slide.t);
  users : option (list PresentationUser.t)
}.
End Presentation.

(** [Partial<Presentation>] as the handlers build it. *)
Record PresentationUpdates := {
  upd_title : option string;
  upd_current_slide_index : option Z;
  upd_present_mode : option bool
}.

#[global] Instance TextBlock_eq_dec : EqDecision TextBlock.t.
Proof. solve_decision. Defined.
#[global] Instance Slide_eq_dec : EqDecision Slide.t.
Proof. solve_decision. Defined.
#[global] Instance PresentationUser_eq_dec : EqDecision PresentationUser.t.
Proof. solve_decision. Defined.
#[global] Instance Presentation_eq_dec : EqDecision Presentation.t.
Proof. solve_decision. Defined.

(** ** The Supabase side: tables and the answer to a request *)

Record Store := {
  presentations : list Presentation.t;
  slides : list Slide.t;
  text_blocks : list TextBlock.t;
  presentation_users : list PresentationUser.t
}.

Definition set_presentations (f : list Presentation.t → list Presentation.t)
    (st : Store) : Store :=
  {| presentations := f (presentations st); slides := slides st;
     text_blocks := text_blocks st;
     presentation_users := presentation_users st |}.

Definition set_slides (f : list Slide.t → list Slide.t) (st : Store) : Store :=
  {| presentations := presentations st; slides := f (slides st);
     text_blocks := text_blocks st;
     presentation_users := presentation_users st |}.

Definition set_text_blocks (f : list TextBlock.t → list TextBlock.t)
    (st : Store) : Store :=
  {| presentations := presentations st; slides := slides st;
     text_blocks := f (text_blocks st);
     presentation_users := presentation_users st |}.

Definition set_presentation_users
    (f : list PresentationUser.t → list PresentationUser.t) (st : Store) : Store :=
  {| presentations := presentations st; slides := slides st;
     text_blocks := text_blocks st;
     presentation_users := f (presentation_users st) |}.

Record PostgrestError := { code : string; message : string }.

(** [{ data, error }]: exactly one of the two is set. *)
Inductive Response (A : Type) :=
| Data (data : A)
| Err (error : PostgrestError).
Arguments Data {A} data.
Arguments Err {A} error.

(** [.single()]: one row, or PGRST116. *)
Definition single {A} (rows : list A) : Response A :=
  match rows with
  | [row] => Data row
  | _ => Err {| code := "PGRST116";
                message := "JSON object requested, multiple (or no) rows returned" |}
  end.

(** A stable sort, as [Array.prototype.sort] with a consistent comparator:
    [le a b] holds when the comparator does not put [b] before [a]. *)
Fixpoint sort_insert {A} (le : A → A → bool) (a : A) (l : list A) : list A :=
  match l with
  | [] => [a]
  | b :: l' => if le a b then a :: l else b :: sort_insert le a l'
  end.

Definition stable_sort {A} (le : A → A → bool) (l : list A) : list A :=
  foldr (sort_insert le) [] l.

(** [new Date(a.created_at).getTime()]; a null column reads as the epoch. *)
Definition created_time (b : TextBlock.t) : Z := default 0%Z (TextBlock.created_at b).

(** ascending order of a nullable column, nulls last *)
Definition nulls_last_le (a b : option Z) : bool :=
  match a, b with
  | Some s, Some t => bool_decide (s ≤ t)%Z
  | Some _, None => true
  | None, Some _ => false
  | None, None => true
  end.

Definition has_presentation (st : Store) (id : string) : bool :=
  bool_decide (Exists (λ p, Presentation.id p = id) (presentations st)).

Definition q_unique_violation : PostgrestError :=
  {| code := "23505"; message := "duplicate key value violates unique constraint" |}.
Definition q_foreign_key_violation : PostgrestError :=
  {| code := "23503"; message := "insert or update violates foreign key constraint" |}.

(** [from('presentations').select(...).eq('id', id).single()], the selection
    being every column, the slides of the presentation nested in it and the
    text blocks of each slide nested in the slide *)
Definition q_select_presentation (id : string) (st : Store) : Response Presentation.t :=
  single
    (map (λ p,
       Presentation.mk (Presentation.id p) (Presentation.title p)
         (Presentation.current_slide_index p) (Presentation.present_mode p)
         (Some (map (λ s,
            Slide.mk (Slide.id s) (Slide.presentation_id s) (Slide.title s)
              (Slide.slide_order s)
              (Some (filter (λ b, TextBlock.slide_id b = Slide.id s) (text_blocks st))))
            (filter (λ s, Slide.presentation_id s = Presentation.id p) (slides st))))
         (Presentation.users p))
       (filter (λ p, Presentation.id p = id) (presentations st))).

(** [from('presentation_users').insert({...}).select().single()], with the
    column defaults [joined_at = last_seen = NOW()] *)
Definition q_insert_user (now : Z) (id presentationId nickname : string) (role : Role)
    (socketId : option string) (st : Store) : Response PresentationUser.t * Store :=
  if bool_decide (Exists (λ u, PresentationUser.id u = id) (presentation_users st))
  then (Err q_unique_violation, st)
  else if has_presentation st presentationId then
    let row := PresentationUser.mk id presentationId nickname role socketId true
                 (Some now) (Some now) in
    (Data row, set_presentation_users (λ us, us ++ [row]) st)
  else (Err q_foreign_key_violation, st).

(** [update({ is_active: false })] on the rows a filter selects *)
Definition q_deactivate_users (sel : PresentationUser.t → bool) (st : Store) : Store :=
  set_presentation_users
    (map (λ u, if sel u then PresentationUser.set_is_active false u else u)) st.

(** every column of the rows with [.eq('presentation_id', p)] and
    [.eq('is_active', true)], under [.order('joined_at', { ascending: true })] *)
Definition q_select_active_users (presentationId : string) (st : Store)
    : list PresentationUser.t :=
  stable_sort
    (λ a b, nulls_last_le (PresentationUser.joined_at a) (PresentationUser.joined_at b))
    (filter (λ u, PresentationUser.presentation_id u = presentationId
                  ∧ PresentationUser.is_active u = true)
            (presentation_users st)).

(** [.lt('last_seen', t)]: false on a null column *)
Definition last_seen_lt (t : Z) (u : PresentationUser.t) : bool :=
  match PresentationUser.last_seen u with
  | Some s => bool_decide (s < t)%Z
  | None => false
  end.

Definition q_update_user_role (presentationId userId : string) (role : Role)
    (st : Store) : Response PresentationUser.t * Store :=
  let hit u := bool_decide (PresentationUser.id u = userId
                            ∧ PresentationUser.presentation_id u = presentationId) in
  match single (map (PresentationUser.set_role role)
                    (filter (λ u, hit u = true) (presentation_users st))) with
  | Data row =>
      (Data row,
       set_presentation_users
         (map (λ u, if hit u then PresentationUser.set_role role u else u)) st)
  | Err e => (Err e, st)
  end.

Definition q_insert_slide (id presentationId title : string) (index : Z)
    (st : Store) : Response Slide.t * Store :=
  if bool_decide (Exists (λ s, Slide.id s = id) (slides st))
  then (Err q_unique_violation, st)
  else if has_presentation st presentationId then
    let row := Slide.mk id presentationId title index None in
    (Data row, set_slides (λ ss, ss ++ [row]) st)
  else (Err q_foreign_key_violation, st).

(** [delete().eq('id', slideId)]; text blocks go with their slide (ON DELETE CASCADE) *)
Definition q_delete_slide (slideId : string) (st : Store) : Store :=
  set_text_blocks (filter (λ b, TextBlock.slide_id b ≠ slideId))
    (set_slides (filter (λ s, Slide.id s ≠ slideId)) st).

Definition q_update_slide_order (slideId : string) (newIndex : Z) (st : Store) : Store :=
  set_slides
    (map (λ s, if bool_decide (Slide.id s = slideId)
               then Slide.mk (Slide.id s) (Slide.presentation_id s) (Slide.title s)
                      newIndex (Slide.text_blocks s)
               else s)) st.

Definition apply_updates (u : PresentationUpdates) (p : Presentation.t) : Presentation.t :=
  Presentation.mk (Presentation.id p)
    (default (Presentation.title p) (upd_title u))
    (default (Presentation.current_slide_index p) (upd_current_slide_index u))
    (default (Presentation.present_mode p) (upd_present_mode u))
    (Presentation.slides p) (Presentation.users p).

Definition q_update_presentation (id : string) (u : PresentationUpdates)
    (st : Store) : Response Presentation.t * Store :=
  match single (map (apply_updates u)
                    (filter (λ p, Presentation.id p = id) (presentations st))) with
  | Data row =>
      (Data row,
       set_presentations
         (map (λ p, if bool_decide (Presentation.id p = id) then apply_updates u p else p))
         st)
  | Err e => (Err e, st)
  end.

Definition has_slide (st : Store) (id : string) : bool :=
  bool_decide (Exists (λ s, Slide.id s = id) (slides st)).

(** [insert({ id, slide_id: slideId, ...textBlock })]: the spread comes last,
    so the row takes the fields of [textBlock], its [slide_id] included; only
    [id] is the fresh one. A null [created_at] is filled by the default. *)
Definition q_insert_text_block (now : Z) (id : string) (textBlock : TextBlock.t)
    (st : Store) : Response TextBlock.t * Store :=
  if bool_decide (Exists (λ b, TextBlock.id b = id) (text_blocks st))
  then (Err q_unique_violation, st)
  else if has_slide st (TextBlock.slide_id textBlock) then
    let row := TextBlock.mk id (TextBlock.slide_id textBlock) (TextBlock.content textBlock)
                 (TextBlock.x textBlock) (TextBlock.y textBlock)
                 (TextBlock.width textBlock) (TextBlock.height textBlock)
                 (TextBlock.font_size textBlock) (TextBlock.font_weight textBlock)
                 (TextBlock.color textBlock)
                 (Some (default now (TextBlock.created_at textBlock))) in
    (Data row, set_text_blocks (λ bs, bs ++ [row]) st)
  else (Err q_foreign_key_violation, st).

Definition overwrite_text_block (updates old : TextBlock.t) : TextBlock.t :=
  TextBlock.mk (TextBlock.id updates) (TextBlock.slide_id updates)
    (TextBlock.content updates) (TextBlock.x updates) (TextBlock.y updates)
    (TextBlock.width updates) (TextBlock.height updates) (TextBlock.font_size updates)
    (TextBlock.font_weight updates) (TextBlock.color updates)
    (match TextBlock.created_at updates with
     | Some t => Some t
     | None => TextBlock.created_at old
     end).

Definition q_update_text_block (id : string) (updates : TextBlock.t)
    (st : Store) : Response TextBlock.t * Store :=
  match single (map (overwrite_text_block updates)
                    (filter (λ b, TextBlock.id b = id) (text_blocks st))) with
  | Data row =>
      if has_slide st (TextBlock.slide_id updates) then
        (Data row,
         set_text_blocks
           (map (λ b, if bool_decide (TextBlock.id b = id)
                      then overwrite_text_block updates b else b)) st)
      else (Err q_foreign_key_violation, st)
  | Err e => (Err e, st)
  end.

Definition q_delete_text_block (textBlockId : string) (st : Store) : Store :=
  set_text_blocks (filter (λ b, TextBlock.id b ≠ textBlockId)) st.

(** ** The server process: state, effects and the handler monad *)

Record DatabaseService := { isConnected : bool }.

Inductive Verb := Select | Insert | Update | Delete.

Record Request := { verb : Verb; table : string }.

Definition is_mutation (r : Request) : bool :=
  match verb r with
  | Select => false
  | Insert | Update | Delete => true
  end.

(** what is passed as [data] to an [emit] *)
Inductive Payload :=
| PMessage (message : string)
| PJoined (presentation : Presentation.t) (user : PresentationUser.t)
    (users : list PresentationUser.t)
| PUser (user : PresentationUser.t)
| PUserId (userId : string)
| PSlide (slide : Slide.t)
| PSlideId (slideId : string)
| PSlides (slides : option (list Slide.t))
| PSlideIndex (slideIndex : Z)
| PTextBlock (slideId : string) (textBlock : TextBlock.t)
| PTextBlockId (slideId textBlockId : string)
| PUserRole (userId : string) (role : Role)
| PEmpty.

(** what a handler does to the outside, in the order it does it; the two
    [Store] marks record the moment a request to the database returns *)
Inductive Effect :=
| SocketEmit (socket event : string) (data : Payload)
| SocketToEmit (socket room event : string) (data : Payload)
| IoToEmit (target event : string) (data : Payload)
| SocketJoin (socket room : string)
| SocketLeave (socket room : string)
| ConsoleLog (text : string)
| ConsoleError (text detail : string)
| StoreOk (request : Request)
| StoreErr (request : Request) (error : PostgrestError).

#[global] Instance PostgrestError_eq_dec : EqDecision PostgrestError.
Proof. solve_decision. Defined.
#[global] Instance Verb_eq_dec : EqDecision Verb.
Proof. solve_decision. Defined.
#[global] Instance Request_eq_dec : EqDecision Request.
Proof. solve_decision. Defined.
#[global] Instance Payload_eq_dec : EqDecision Payload.
Proof. solve_decision. Defined.
#[global] Instance Effect_eq_dec : EqDecision Effect.
Proof. solve_decision. Defined.

Record World := {
  db : option DatabaseService;
  store : Store;
  faults : list (option PostgrestError);
  uuids : list string;
  clock : Z;
  activePresentations : gmap string (gset string);
  userSockets : gmap string string;
  socketUsers : gmap string string
}.

Inductive Exn :=
| JsError (message : string)
| RangeError (message : string).

Definition exn_message (e : Exn) : string :=
  match e with
  | JsError m => m
  | RangeError m => m
  end.

Inductive Completion (A : Type) :=
| Normal (value : A)
| Throw (exn : Exn).
Arguments Normal {A} value.
Arguments Throw {A} exn.

Definition M (A : Type) : Type := World → Completion A * World * list Effect.

#[global] Instance M_ret : MRet M := λ A a w, (Normal a, w, []).

#[global] Instance M_bind : MBind M := λ A B f m w,
  match m w with
  | (Normal a, w1, t1) =>
      match f a w1 with
      | (r, w2, t2) => (r, w2, t1 ++ t2)
      end
  | (Throw e, w1, t1) => (Throw e, w1, t1)
  end.

Definition throw {A} (e : Exn) : M A := λ w, (Throw e, w, []).

Definition try_catch {A} (body : M A) (handler : Exn → M A) : M A := λ w,
  match body w with
  | (Throw e, w1, t1) =>
      match handler e w1 with
      | (r, w2, t2) => (r, w2, t1 ++ t2)
      end
  | done => done
  end.

Definition tell (e : Effect) : M () := λ w, (Normal (), w, [e]).

Definition gets {A} (f : World → A) : M A := λ w, (Normal (f w), w, []).

Definition modify (f : World → World) : M () := λ w, (Normal (), f w, []).

Fixpoint for_each {A} (l : list A) (body : A → M ()) : M () :=
  match l with
  | [] => mret ()
  | a :: l' => body a;; for_each l' body
  end.

Definition world_of {A} (r : Completion A * World * list Effect) : World := r.1.2.
Definition effects_of {A} (r : Completion A * World * list Effect) : list Effect := r.2.
Definition completion_of {A} (r : Completion A * World * list Effect) : Completion A :=
  r.1.1.

Definition set_store (f : Store → Store) (w : World) : World :=
  {| db := db w; store := f (store w); faults := faults w; uuids := uuids w;
     clock := clock w; activePresentations := activePresentations w;
     userSockets := userSockets w; socketUsers := socketUsers w |}.

Definition set_faults (f : list (option PostgrestError) → list (option PostgrestError))
    (w : World) : World :=
  {| db := db w; store := store w; faults := f (faults w); uuids := uuids w;
     clock := clock w; activePresentations := activePresentations w;
     userSockets := userSockets w; socketUsers := socketUsers w |}.

Definition set_uuids (f : list string → list string) (w : World) : World :=
  {| db := db w; store := store w; faults := faults w; uuids := f (uuids w);
     clock := clock w; activePresentations := activePresentations w;
     userSockets := userSockets w; socketUsers := socketUsers w |}.

Definition set_activePresentations
    (f : gmap string (gset string) → gmap string (gset string)) (w : World) : World :=
  {| db := db w; store := store w; faults := faults w; uuids := uuids w;
     clock := clock w; activePresentations := f (activePresentations w);
     userSockets := userSockets w; socketUsers := socketUsers w |}.

Definition set_userSockets (f : gmap string string → gmap string string)
    (w : World) : World :=
  {| db := db w; store := store w; faults := faults w; uuids := uuids w;
     clock := clock w; activePresentations := activePresentations w;
     userSockets := f (userSockets w); socketUsers := socketUsers w |}.

Definition set_socketUsers (f : gmap string string → gmap string string)
    (w : World) : World :=
  {| db := db w; store := store w; faults := faults w; uuids := uuids w;
     clock := clock w; activePresentations := activePresentations w;
     userSockets := userSockets w; socketUsers := f (socketUsers w) |}.

(** One request to Supabase. The next entry of [faults] decides whether it is
    served; a served request evaluates [q] on the tables. Either way the
    answer comes back as [{ data, error }] and nothing is thrown here. *)
Definition query {A} (req : Request) (q : Store → Response A * Store)
    : M (Response A) := λ w,
  match faults w with
  | Some e :: _ => (Normal (Err e), set_faults (drop 1) w, [StoreErr req e])
  | _ =>
      match q (store w) with
      | (Data a, st) =>
          (Normal (Data a), set_store (λ _, st) (set_faults (drop 1) w), [StoreOk req])
      | (Err e, _) => (Normal (Err e), set_faults (drop 1) w, [StoreErr req e])
      end
  end.

(** [uuidv4()]: the next identifier of the supply (a fixed one once the
    supply is exhausted; an identifier drawn twice is refused by the primary
    key of the table it goes to). *)
Definition uuidv4 : M string := λ w,
  (Normal (default "00000000-0000-4000-8000-000000000000" (head (uuids w))),
   set_uuids (drop 1) w, []).

(** [Date.now()], and [NOW()] on the database server: one clock for both. *)
Definition date_now : M Z := gets clock.

(** [new Date(t).toISOString()] throws on an instant outside the range of
    [Date]; inside it the string stands for the instant. *)
Definition toISOString (t : Z) : M Z :=
  if bool_decide (-8640000000000000 ≤ t ≤ 8640000000000000)%Z then mret t
  else throw (RangeError "Invalid time value").

(** ** [class DatabaseService] *)

Definition sort_presentation (data : Presentation.t) : Presentation.t :=
  Presentation.mk (Presentation.id data) (Presentation.title data)
    (Presentation.current_slide_index data) (Presentation.present_mode data)
    (match Presentation.slides data with
     | Some slides =>
         Some (map (λ slide,
                 Slide.mk (Slide.id slide) (Slide.presentation_id slide)
                   (Slide.title slide) (Slide.slide_order slide)
                   (match Slide.text_blocks slide with
                    | Some blocks =>
                        Some (stable_sort
                                (λ a b, bool_decide (created_time a ≤ created_time b)%Z)
                                blocks)
                    | None => None
                    end))
                 (stable_sort
                    (λ a b, bool_decide (Slide.slide_order a ≤ Slide.slide_order b)%Z)
                    slides))
     | None => None
     end)
    (Presentation.users data).

Definition getPresentationById (id : string) : M (option Presentation.t) :=
  r ← query {| verb := Select; table := "presentations" |}
        (λ st, (q_select_presentation id st, st));
  match r with
  | Err error =>
      if bool_decide (code error = "PGRST116") then mret None
      else throw (JsError ("Failed to fetch presentation: " +:+ message error))
  | Data data => mret (Some (sort_presentation data))
  end.

Definition updatePresentation (id : string) (updates : PresentationUpdates)
    : M Presentation.t :=
  r ← query {| verb := Update; table := "presentations" |}
        (q_update_presentation id updates);
  match r with
  | Err error => throw (JsError ("Failed to update presentation: " +:+ message error))
  | Data data => mret data
  end.

Definition addUserToPresentation (presentationId nickname : string) (role : Role)
    (socketId : option string) : M PresentationUser.t :=
  id ← uuidv4;
  now ← date_now;
  r ← query {| verb := Insert; table := "presentation_users" |}
        (q_insert_user now id presentationId nickname role socketId);
  match r with
  | Err error => throw (JsError ("Failed to add user to presentation: " +:+ message error))
  | Data data => mret data
  end.

Definition updateUserRole (presentationId userId : string) (role : Role)
    : M PresentationUser.t :=
  r ← query {| verb := Update; table := "presentation_users" |}
        (q_update_user_role presentationId userId role);
  match r with
  | Err error => throw (JsError ("Failed to update user role: " +:+ message error))
  | Data data => mret data
  end.

Definition removeUserFromPresentation (presentationId userId : string) : M () :=
  r ← query {| verb := Update; table := "presentation_users" |}
        (λ st, (Data (),
                q_deactivate_users
                  (λ u, bool_decide (PresentationUser.id u = userId
                                     ∧ PresentationUser.presentation_id u = presentationId))
                  st));
  match r with
  | Err error =>
      throw (JsError ("Failed to remove user from presentation: " +:+ message error))
  | Data _ => mret ()
  end.

Definition removeUserBySocketId (socketId : string) : M () :=
  r ← query {| verb := Update; table := "presentation_users" |}
        (λ st, (Data (),
                q_deactivate_users
                  (λ u, bool_decide (PresentationUser.socket_id u = Some socketId)) st));
  match r with
  | Err error => throw (JsError ("Failed to remove user by socket ID: " +:+ message error))
  | Data _ => mret ()
  end.

Definition addSlide (presentationId title : string) (index : Z) : M Slide.t :=
  id ← uuidv4;
  r ← query {| verb := Insert; table := "slides" |}
        (q_insert_slide id presentationId title index);
  match r with
  | Err error => throw (JsError ("Failed to add slide: " +:+ message error))
  | Data data => mret data
  end.

Definition removeSlide (slideId : string) : M () :=
  r ← query {| verb := Delete; table := "slides" |}
        (λ st, (Data (), q_delete_slide slideId st));
  match r with
  | Err error => throw (JsError ("Failed to remove slide: " +:+ message error))
  | Data _ => mret ()
  end.

Definition updateSlideIndex (slideId : string) (newIndex : Z) : M () :=
  r ← query {| verb := Update; table := "slides" |}
        (λ st, (Data (), q_update_slide_order slideId newIndex st));
  match r with
  | Err error => throw (JsError ("Failed to update slide index: " +:+ message error))
  | Data _ => mret ()
  end.

Definition addTextBlock (slideId : string) (textBlock : TextBlock.t) : M TextBlock.t :=
  id ← uuidv4;
  now ← date_now;
  r ← query {| verb := Insert; table := "text_blocks" |}
        (q_insert_text_block now id textBlock);
  match r with
  | Err error => throw (JsError ("Failed to add text block: " +:+ message error))
  | Data data => mret data
  end.

Definition updateTextBlock (id : string) (updates : TextBlock.t) : M TextBlock.t :=
  r ← query {| verb := Update; table := "text_blocks" |}
        (q_update_text_block id updates);
  match r with
  | Err error => throw (JsError ("Failed to update text block: " +:+ message error))
  | Data data => mret data
  end.

Definition removeTextBlock (textBlockId : string) : M () :=
  r ← query {| verb := Delete; table := "text_blocks" |}
        (λ st, (Data (), q_delete_text_block textBlockId st));
  match r with
  | Err error => throw (JsError ("Failed to remove text block: " +:+ message error))
  | Data _ => mret ()
  end.

Definition getPresentationUsers (presentationId : string) : M (list PresentationUser.t) :=
  r ← query {| verb := Select; table := "presentation_users" |}
        (λ st, (Data (q_select_active_users presentationId st), st));
  match r with
  | Err error => throw (JsError ("Failed to fetch presentation users: " +:+ message error))
  | Data data => mret data
  end.

(** Cleanup inactive users (called periodically) *)
Definition cleanupInactiveUsers (inactiveThresholdMinutes : Z) : M () :=
  now ← date_now;
  thresholdTime ← toISOString (now - inactiveThresholdMinutes * 60 * 1000)%Z;
  r ← query {| verb := Update; table := "presentation_users" |}
        (λ st, (Data (),
                q_deactivate_users
                  (λ u, last_seen_lt thresholdTime u && PresentationUser.is_active u) st));
  match r with
  | Err error => tell (ConsoleError "Failed to cleanup inactive users:" (message error))
  | Data _ => mret ()
  end.

(** ** The socket server: tracking maps and helper functions *)

Definition broadcastToPresentation (presentationId event : string) (data : Payload)
    : M () :=
  sockets ← gets (λ w, activePresentations w !! presentationId);
  match sockets with
  | Some sockets =>
      for_each (elements (sockets : gset string)) (λ socketId, tell (IoToEmit socketId event data))
  | None => mret ()
  end.

Definition addSocketToPresentation (presentationId socketId : string)
    (rooms : gmap string (gset string)) : gmap string (gset string) :=
  let rooms :=
    if bool_decide (is_Some (rooms !! presentationId)) then rooms
    else <[presentationId := ∅]> rooms in
  alter (λ sockets, sockets ∪ {[socketId]}) presentationId rooms.

Definition removeSocketFromPresentation (presentationId socketId : string)
    (rooms : gmap string (gset string)) : gmap string (gset string) :=
  match rooms !! presentationId with
  | Some sockets =>
      let sockets := sockets ∖ {[socketId]} in
      if bool_decide (size sockets = 0) then delete presentationId rooms
      else <[presentationId := sockets]> rooms
  | None => rooms
  end.

(** [if (userId)] on a string: defined and not empty *)
Definition truthy (s : string) : bool := negb (String.eqb s EmptyString).

(** the reaper: [setInterval(async () => { ... }, 5 * 60 * 1000)] *)
Definition reaper_tick : M () :=
  d ← gets db;
  match d with
  | Some _ =>
      try_catch (cleanupInactiveUsers 30)
        (λ error, tell (ConsoleError "Error cleaning up inactive users:" (exn_message error)))
  | None => mret ()
  end.

(** ** Socket.IO event handlers *)

Definition on_join_presentation (socket presentationId nickname : string)
    (role : option Role) : M () :=
  try_catch
    (let role := default viewer role in
     d ← gets db;
     match d with
     | None => tell (SocketEmit socket "error" (PMessage "Database not available"))
     | Some _ =>
         presentation ← getPresentationById presentationId;
         match presentation with
         | None => tell (SocketEmit socket "error" (PMessage "Presentation not found"))
         | Some presentation =>
             user ← addUserToPresentation presentationId nickname role (Some socket);
             modify (set_activePresentations (addSocketToPresentation presentationId socket));;
             modify (set_userSockets (<[PresentationUser.id user := socket]>));;
             modify (set_socketUsers (<[socket := PresentationUser.id user]>));;
             tell (SocketJoin socket presentationId);;
             users ← getPresentationUsers presentationId;
             tell (SocketEmit socket "presentation-joined" (PJoined presentation user users));;
             tell (SocketToEmit socket presentationId "user-joined" (PUser user));;
             tell (ConsoleLog ("User " +:+ nickname +:+ " joined presentation "
                               +:+ presentationId))
         end
     end)
    (λ error,
       tell (ConsoleError "Error joining presentation:" (exn_message error));;
       tell (SocketEmit socket "error" (PMessage "Failed to join presentation"))).

Definition on_leave_presentation (socket presentationId userId : string) : M () :=
  try_catch
    (d ← gets db;
     match d with
     | None => mret ()
     | Some _ =>
         removeUserFromPresentation presentationId userId;;
         modify (set_activePresentations (removeSocketFromPresentation presentationId socket));;
         modify (set_userSockets (delete userId));;
         modify (set_socketUsers (delete socket));;
         tell (SocketLeave socket presentationId);;
         tell (SocketToEmit socket presentationId "user-left" (PUserId userId));;
         tell (ConsoleLog ("User " +:+ userId +:+ " left presentation " +:+ presentationId))
     end)
    (λ error, tell (ConsoleError "Error leaving presentation:" (exn_message error))).

(** the shape shared by the ten collaborative actions: guard on [db], one
    awaited call, then the broadcast; any exception is logged and reported
    to the sender *)
Definition guarded (socket : string) (body : M ()) (log failure : string) : M () :=
  try_catch
    (d ← gets db;
     match d with
     | None => tell (SocketEmit socket "error" (PMessage "Database not available"))
     | Some _ => body
     end)
    (λ error,
       tell (ConsoleError log (exn_message error));;
       tell (SocketEmit socket "error" (PMessage failure))).

Definition on_add_slide (socket presentationId : string) (title : option string)
    (index : option Z) : M () :=
  let title := default "Untitled Slide" title in
  let index := default 0%Z index in
  guarded socket
    (newSlide ← addSlide presentationId title index;
     broadcastToPresentation presentationId "slide-added" (PSlide newSlide))
    "Error adding slide:" "Failed to add slide".

Definition on_remove_slide (socket presentationId slideId : string) : M () :=
  guarded socket
    (removeSlide slideId;;
     broadcastToPresentation presentationId "slide-removed" (PSlideId slideId))
    "Error removing slide:" "Failed to remove slide".

Definition on_update_slide_index (socket presentationId slideId : string)
    (newIndex : Z) : M () :=
  guarded socket
    (updateSlideIndex slideId newIndex;;
     presentation ← getPresentationById presentationId;
     match presentation with
     | Some presentation =>
         broadcastToPresentation presentationId "slide-index-updated"
           (PSlides (Presentation.slides presentation))
     | None => mret ()
     end)
    "Error updating slide index:" "Failed to update slide index".

Definition on_update_current_slide (socket presentationId : string) (slideIndex : Z)
    : M () :=
  guarded socket
    (updatePresentation presentationId
       {| upd_title := None; upd_current_slide_index := Some slideIndex;
          upd_present_mode := None |};;
     broadcastToPresentation presentationId "current-slide-updated"
       (PSlideIndex slideIndex))
    "Error updating current slide:" "Failed to update current slide".

Definition on_add_text_block (socket presentationId slideId : string)
    (textBlock : TextBlock.t) : M () :=
  guarded socket
    (newTextBlock ← addTextBlock slideId textBlock;
     broadcastToPresentation presentationId "text-block-added"
       (PTextBlock slideId newTextBlock))
    "Error adding text block:" "Failed to add text block".

Definition on_update_text_block (socket presentationId slideId : string)
    (textBlock : TextBlock.t) : M () :=
  guarded socket
    (updatedTextBlock ← updateTextBlock (TextBlock.id textBlock) textBlock;
     broadcastToPresentation presentationId "text-block-updated"
       (PTextBlock slideId updatedTextBlock))
    "Error updating text block:" "Failed to update text block".

Definition on_remove_text_block (socket presentationId slideId textBlockId : string)
    : M () :=
  guarded socket
    (removeTextBlock textBlockId;;
     broadcastToPresentation presentationId "text-block-removed"
       (PTextBlockId slideId textBlockId))
    "Error removing text block:" "Failed to remove text block".

Definition on_update_user_role (socket presentationId userId : string) (role : Role)
    : M () :=
  guarded socket
    (updateUserRole presentationId userId role;;
     broadcastToPresentation presentationId "user-role-updated" (PUserRole userId role))
    "Error updating user role:" "Failed to update user role".

Definition on_enter_present_mode (socket presentationId : string) : M () :=
  guarded socket
    (updatePresentation presentationId
       {| upd_title := None; upd_current_slide_index := None;
          upd_present_mode := Some true |};;
     broadcastToPresentation presentationId "present-mode-entered" PEmpty)
    "Error entering present mode:" "Failed to enter present mode".

Definition on_exit_present_mode (socket presentationId : string) : M () :=
  guarded socket
    (updatePresentation presentationId
       {| upd_title := None; upd_current_slide_index := None;
          upd_present_mode := Some false |};;
     broadcastToPresentation presentationId "present-mode-exited" PEmpty)
    "Error exiting present mode:" "Failed to exit present mode".

(** the body of the loop of the disconnect handler; the [Map] is read as it
    is when the entry is reached, so an entry deleted meanwhile is skipped *)
Definition leave_room_on_disconnect (socket userId presentationId : string) : M () :=
  sockets ← gets (λ w, activePresentations w !! presentationId);
  match sockets with
  | Some sockets =>
      if bool_decide (socket ∈ (sockets : gset string)) then
        modify (set_activePresentations (removeSocketFromPresentation presentationId socket));;
        tell (SocketToEmit socket presentationId "user-left" (PUserId userId))
      else mret ()
  | None => mret ()
  end.

Definition on_disconnect (socket : string) : M () :=
  tell (ConsoleLog ("User disconnected: " +:+ socket));;
  try_catch
    (userId ← gets (λ w, socketUsers w !! socket);
     d ← gets db;
     match userId, d with
     | Some userId, Some _ =>
         if truthy userId then
           removeUserBySocketId socket;;
           modify (set_userSockets (delete userId));;
           modify (set_socketUsers (delete socket));;
           rooms ← gets (λ w, (map_to_list (activePresentations w)).*1);
           for_each rooms (leave_room_on_disconnect socket userId)
         else mret ()
     | _, _ => mret ()
     end)
    (λ error, tell (ConsoleError "Error handling disconnect:" (exn_message error))).

(** ** Events and runs *)

Inductive Action :=
| AddSlide (presentationId : string) (title : option string) (index : option Z)
| RemoveSlide (presentationId slideId : string)
| UpdateSlideIndex (presentationId slideId : string) (newIndex : Z)
| UpdateCurrentSlide (presentationId : string) (slideIndex : Z)
| AddTextBlock (presentationId slideId : string) (textBlock : TextBlock.t)
| UpdateTextBlock (presentationId slideId : string) (textBlock : TextBlock.t)
| RemoveTextBlock (presentationId slideId textBlockId : string)
| UpdateUserRole (presentationId userId : string) (role : Role)
| EnterPresentMode (presentationId : string)
| ExitPresentMode (presentationId : string).

Definition on_action (socket : string) (a : Action) : M () :=
  match a with
  | AddSlide p title index => on_add_slide socket p title index
  | RemoveSlide p slideId => on_remove_slide socket p slideId
  | UpdateSlideIndex p slideId newIndex => on_update_slide_index socket p slideId newIndex
  | UpdateCurrentSlide p slideIndex => on_update_current_slide socket p slideIndex
  | AddTextBlock p slideId textBlock => on_add_text_block socket p slideId textBlock
  | UpdateTextBlock p slideId textBlock => on_update_text_block socket p slideId textBlock
  | RemoveTextBlock p slideId textBlockId =>
      on_remove_text_block socket p slideId textBlockId
  | UpdateUserRole p userId role => on_update_user_role socket p userId role
  | EnterPresentMode p => on_enter_present_mode socket p
  | ExitPresentMode p => on_exit_present_mode socket p
  end.

(** the request that carries the mutation of an action *)
Definition write_of (a : Action) : Request :=
  match a with
  | AddSlide _ _ _ => {| verb := Insert; table := "slides" |}
  | RemoveSlide _ _ => {| verb := Delete; table := "slides" |}
  | UpdateSlideIndex _ _ _ => {| verb := Update; table := "slides" |}
  | UpdateCurrentSlide _ _ => {| verb := Update; table := "presentations" |}
  | AddTextBlock _ _ _ => {| verb := Insert; table := "text_blocks" |}
  | UpdateTextBlock _ _ _ => {| verb := Update; table := "text_blocks" |}
  | RemoveTextBlock _ _ _ => {| verb := Delete; table := "text_blocks" |}
  | UpdateUserRole _ _ _ => {| verb := Update; table := "presentation_users" |}
  | EnterPresentMode _ => {| verb := Update; table := "presentations" |}
  | ExitPresentMode _ => {| verb := Update; table := "presentations" |}
  end.

Inductive Event :=
| JoinPresentation (socket presentationId nickname : string) (role : option Role)
| LeavePresentation (socket presentationId userId : string)
| Collaborate (socket : string) (a : Action)
| Disconnect (socket : string)
| ReaperTick
| Elapse (ms : Z).

Definition set_clock (f : Z → Z) (w : World) : World :=
  {| db := db w; store := store w; faults := faults w; uuids := uuids w;
     clock := f (clock w); activePresentations := activePresentations w;
     userSockets := userSockets w; socketUsers := socketUsers w |}.

Definition handle (e : Event) : M () :=
  match e with
  | JoinPresentation socket p nickname role => on_join_presentation socket p nickname role
  | LeavePresentation socket p userId => on_leave_presentation socket p userId
  | Collaborate socket a => on_action socket a
  | Disconnect socket => on_disconnect socket
  | ReaperTick => reaper_tick
  | Elapse ms => modify (set_clock (λ t, t + ms)%Z)
  end.

Definition step (e : Event) (w : World) : World := world_of (handle e w).

Definition run (es : list Event) (w : World) : World := foldl (λ w e, step e w) w es.

(** the effects of a run, oldest first *)
Fixpoint run_effects (es : list Event) (w : World) : list Effect :=
  match es with
  | [] => []
  | e :: es' => effects_of (handle e w) ++ run_effects es' (step e w)
  end.

(** the server as it starts: tables as given, nobody connected *)
Definition boot (st : Store) (fs : list (option PostgrestError)) (ids : list string)
    (now : Z) : World :=
  {| db := Some {| isConnected := true |}; store := st; faults := fs; uuids := ids;
     clock := now; activePresentations := ∅; userSockets := ∅; socketUsers := ∅ |}.

(** members of a room; the empty set when the room is absent *)
Definition membersOf (w : World) (presentationId : string) : gset string :=
  default ∅ (activePresentations w !! presentationId).

(** ** [class DatabaseService], the remaining methods *)

(** [from('presentations').insert({ id, title, current_slide_index: 0,
    present_mode: false }).select().single()] *)
Definition q_insert_presentation (id title : string) (st : Store)
    : Response Presentation.t * Store :=
  if bool_decide (Exists (λ p, Presentation.id p = id) (presentations st))
  then (Err q_unique_violation, st)
  else
    let row := Presentation.mk id title 0 false None None in
    (Data row, set_presentations (λ ps, ps ++ [row]) st).

(** [from('presentations').delete().eq('id', id)]; the slides of the
    presentation, their text blocks and its session rows go with it (ON DELETE
    CASCADE in [schema.sql]). Without such a presentation nothing is deleted. *)
Definition q_delete_presentation (id : string) (st : Store) : Store :=
  if has_presentation st id then
    {| presentations := filter (λ p, Presentation.id p ≠ id) (presentations st);
       slides := filter (λ s, Slide.presentation_id s ≠ id) (slides st);
       text_blocks :=
         filter (λ b, ¬ Exists (λ s, Slide.id s = TextBlock.slide_id b
                                     ∧ Slide.presentation_id s = id) (slides st))
                (text_blocks st);
       presentation_users :=
         filter (λ u, PresentationUser.presentation_id u ≠ id) (presentation_users st) |}
  else st.

(** [.select('slide_order').eq('presentation_id', p)
     .order('slide_order', { ascending: false }).limit(1)] *)
Definition q_select_max_order (presentationId : string) (st : Store) : list Z :=
  take 1
    (stable_sort (λ a b, bool_decide (b ≤ a)%Z)
       (map Slide.slide_order
          (filter (λ s, Slide.presentation_id s = presentationId) (slides st)))).

(** [update({ socket_id, last_seen })] and [update({ is_active: false,
    last_seen })] on the rows a filter selects *)
Definition q_rebind_users (sel : PresentationUser.t → bool) (socketId : string)
    (now : Z) (st : Store) : Store :=
  set_presentation_users
    (map (λ u, if sel u
               then PresentationUser.mk (PresentationUser.id u)
                      (PresentationUser.presentation_id u) (PresentationUser.nickname u)
                      (PresentationUser.role u) (Some socketId)
                      (PresentationUser.is_active u) (PresentationUser.joined_at u)
                      (Some now)
               else u)) st.

Definition q_retire_users (sel : PresentationUser.t → bool) (now : Z) (st : Store)
    : Store :=
  set_presentation_users
    (map (λ u, if sel u
               then PresentationUser.mk (PresentationUser.id u)
                      (PresentationUser.presentation_id u) (PresentationUser.nickname u)
                      (PresentationUser.role u) (PresentationUser.socket_id u)
                      false (PresentationUser.joined_at u) (Some now)
               else u)) st.

(** every column of the rows with [.eq('socket_id', s)] and
    [.eq('is_active', true)], under [.single()] *)
Definition q_select_user_by_socket (socketId : string) (st : Store)
    : Response PresentationUser.t :=
  single (filter (λ u, PresentationUser.socket_id u = Some socketId
                       ∧ PresentationUser.is_active u = true)
                 (presentation_users st)).

Definition createPresentation (title : string) : M Presentation.t :=
  presentationId ← uuidv4;
  slideId ← uuidv4;
  r ← query {| verb := Insert; table := "presentations" |}
        (q_insert_presentation presentationId title);
  match r with
  | Err presentationError =>
      throw (JsError ("Failed to create presentation: " +:+ message presentationError))
  | Data presentation =>
      r ← query {| verb := Insert; table := "slides" |}
            (q_insert_slide slideId presentationId "Untitled Slide" 0);
      match r with
      | Err slideError =>
          throw (JsError ("Failed to create default slide: " +:+ message slideError))
      | Data _ => mret presentation
      end
  end.

Definition deletePresentation (id : string) : M () :=
  r ← query {| verb := Delete; table := "presentations" |}
        (λ st, (Data (), q_delete_presentation id st));
  match r with
  | Err error => throw (JsError ("Failed to delete presentation: " +:+ message error))
  | Data _ => mret ()
  end.

(** The answer to the first request is read without a look at its error:
    after a failure [maxOrderData] is null and the order is 0. *)
Definition createSlide (presentationId : string) (title : option string) : M Slide.t :=
  let title := default "Untitled Slide" title in
  maxOrderData ← query {| verb := Select; table := "slides" |}
                   (λ st, (Data (q_select_max_order presentationId st), st));
  let nextOrder :=
    match maxOrderData with
    | Data (slide_order :: _) => (slide_order + 1)%Z
    | _ => 0%Z
    end in
  id ← uuidv4;
  r ← query {| verb := Insert; table := "slides" |}
        (q_insert_slide id presentationId title nextOrder);
  match r with
  | Err error => throw (JsError ("Failed to create slide: " +:+ message error))
  | Data data => mret data
  end.

Definition updateUserSocketId (userId socketId : string) : M () :=
  now ← date_now;
  r ← query {| verb := Update; table := "presentation_users" |}
        (λ st, (Data (),
                q_rebind_users (λ u, bool_decide (PresentationUser.id u = userId))
                  socketId now st));
  match r with
  | Err error => throw (JsError ("Failed to update user socket: " +:+ message error))
  | Data _ => mret ()
  end.

Definition setUserInactive (socketId : string) : M () :=
  now ← date_now;
  r ← query {| verb := Update; table := "presentation_users" |}
        (λ st, (Data (),
                q_retire_users
                  (λ u, bool_decide (PresentationUser.socket_id u = Some socketId))
                  now st));
  match r with
  | Err error => throw (JsError ("Failed to set user inactive: " +:+ message error))
  | Data _ => mret ()
  end.

Definition getUserBySocketId (socketId : string) : M (option PresentationUser.t) :=
  r ← query {| verb := Select; table := "presentation_users" |}
        (λ st, (q_select_user_by_socket socketId st, st));
  match r with
  | Err error =>
      if bool_decide (code error = "PGRST116") then mret None
      else throw (JsError ("Failed to fetch user by socket: " +:+ message error))
  | Data data => mret (Some data)
  end.

(** ** The REST routes *)

Inductive HttpBody :=
| BodyError (error : string)
| BodyPresentation (presentation : Presentation.t)
| BodyEmpty.

Record HttpResponse := { http_status : Z; http_body : HttpBody }.

(** what a route does to the outside: the effects of the handler monad, and
    [io.to(socketId).emit('presentation-deleted', { presentationId })] *)
Inductive RouteEffect :=
| Within (e : Effect)
| PresentationDeleted (socketId presentationId : string).

Definition Route : Type := World → HttpResponse * World * list RouteEffect.

(** the tail shared by the routes: the [catch] block after a rejected call *)
Definition route_failed (log failure : string) (e : Exn) (w : World)
    (t : list Effect) : HttpResponse * World * list RouteEffect :=
  ({| http_status := 500; http_body := BodyError failure |}, w,
   (Within <$> t) ++ [Within (ConsoleError log (exn_message e))]).

(** [app.post('/api/presentations')]; [title] is [req.body.title] *)
Definition post_presentations (title : option string) : Route := λ w,
  match title with
  | Some title =>
      if truthy title then
        match db w with
        | None =>
            ({| http_status := 500; http_body := BodyError "Database not available" |},
             w, [])
        | Some _ =>
            match createPresentation title w with
            | (Normal presentation, w1, t1) =>
                ({| http_status := 201; http_body := BodyPresentation presentation |},
                 w1, Within <$> t1)
            | (Throw e, w1, t1) =>
                route_failed "Error creating presentation:"
                  "Failed to create presentation" e w1 t1
            end
        end
      else ({| http_status := 400; http_body := BodyError "Title is required" |}, w, [])
  | None => ({| http_status := 400; http_body := BodyError "Title is required" |}, w, [])
  end.

(** [app.get('/api/presentations/:id')] *)
Definition get_presentation (id : string) : Route := λ w,
  match db w with
  | None =>
      ({| http_status := 500; http_body := BodyError "Database not available" |}, w, [])
  | Some _ =>
      match getPresentationById id w with
      | (Normal None, w1, t1) =>
          ({| http_status := 404; http_body := BodyError "Presentation not found" |},
           w1, Within <$> t1)
      | (Normal (Some presentation), w1, t1) =>
          ({| http_status := 200; http_body := BodyPresentation presentation |},
           w1, Within <$> t1)
      | (Throw e, w1, t1) =>
          route_failed "Error fetching presentation:" "Failed to fetch presentation"
            e w1 t1
      end
  end.

(** [app.delete('/api/presentations/:id')] *)
Definition delete_presentation (id : string) : Route := λ w,
  match db w with
  | None =>
      ({| http_status := 500; http_body := BodyError "Database not available" |}, w, [])
  | Some _ =>
      match deletePresentation id w with
      | (Normal _, w1, t1) =>
          match activePresentations w1 !! id with
          | Some sockets =>
              ({| http_status := 204; http_body := BodyEmpty |},
               set_activePresentations (delete id) w1,
               (Within <$> t1)
               ++ ((λ socketId, PresentationDeleted socketId id)
                     <$> elements (sockets : gset string)))
          | None => ({| http_status := 204; http_body := BodyEmpty |}, w1, Within <$> t1)
          end
      | (Throw e, w1, t1) =>
          route_failed "Error deleting presentation:" "Failed to delete presentation"
            e w1 t1
      end
  end.

(** ** The Socket.IO side: the rooms of the adapter *)

(** Socket.IO keeps rooms of its own, apart from [activePresentations]:
    [socket.join(room)] puts the socket into a room, [socket.leave(room)]
    takes it out, and a socket that disconnects has left every room by the
    time its disconnect handler runs. [socket.to(room).emit] goes to the
    sockets of the room, the emitting socket excepted. A room without
    sockets and a room that is absent are the same to an emit. The room
    that a socket has under its own id, which [io.to(socketId)] addresses,
    is not among these rooms: the handlers name a room by the id of a
    presentation only after the database has taken that id, an uuid, which
    the id of a socket is not. *)
Definition adapter_join (room s : string) (rooms : gmap string (gset string))
    : gmap string (gset string) :=
  <[room := default ∅ (rooms !! room) ∪ {[s]}]> rooms.

Definition adapter_leave (room s : string) (rooms : gmap string (gset string))
    : gmap string (gset string) :=
  <[room := default ∅ (rooms !! room) ∖ {[s]}]> rooms.

Definition adapter_leave_all (s : string) (rooms : gmap string (gset string))
    : gmap string (gset string) :=
  (λ ss : gset string, ss ∖ {[s]}) <$> rooms.

(** what one effect of a handler does to the rooms *)
Definition adapter_effect (rooms : gmap string (gset string)) (e : Effect)
    : gmap string (gset string) :=
  match e with
  | SocketJoin s room => adapter_join room s rooms
  | SocketLeave s room => adapter_leave room s rooms
  | _ => rooms
  end.

(** the rooms after a trace *)
Definition adapter_trace (rooms : gmap string (gset string)) (t : list Effect)
    : gmap string (gset string) :=
  foldl adapter_effect rooms t.

(** for each [socket.to(room).emit] of a trace, in order: the sender, the
    room and the sockets the event goes to, the rooms being [rooms] when the
    trace starts *)
Fixpoint socket_to_deliveries (rooms : gmap string (gset string)) (t : list Effect)
    : list (string * string * gset string) :=
  match t with
  | [] => []
  | e :: t' =>
      match e with
      | SocketToEmit s room _ _ =>
          [(s, room, default ∅ (rooms !! room) ∖ {[s]})]
      | _ => []
      end ++ socket_to_deliveries (adapter_effect rooms e) t'
  end.

(** the rooms when the handler of an event starts *)
Definition adapter_before (e : Event) (rooms : gmap string (gset string))
    : gmap string (gset string) :=
  match e with
  | Disconnect s => adapter_leave_all s rooms
  | _ => rooms
  end.

(** the rooms when the handler of an event has run in the world [w] *)
Definition adapter_step (e : Event) (w : World) (rooms : gmap string (gset string))
    : gmap string (gset string) :=
  adapter_trace (adapter_before e rooms) (effects_of (handle e w)).

(** the rooms after a run that starts in the world [w] *)
Fixpoint adapter_run (es : list Event) (w : World) (rooms : gmap string (gset string))
    : gmap string (gset string) :=
  match es with
  | [] => rooms
  | e :: es' => adapter_run es' (step e w) (adapter_step e w rooms)
  end.





(** * Vocabulary of the statements *)

(** ** Rooms *)

(** members of a room in a bare index *)
Definition members (rooms : gmap string (gset string)) (P : string) : gset string :=
  default ∅ (rooms !! P).

(** no entry maps a presentation to the empty set *)
Definition no_empty_room (rooms : gmap string (gset string)) : Prop :=
  ∀ P (ss : gset string), rooms !! P = Some ss → ss ≠ ∅.

(** a socket is in at most one room *)
Definition one_room (rooms : gmap string (gset string)) : Prop :=
  ∀ s P Q, s ∈ members rooms P → s ∈ members rooms Q → P = Q.

(** invariant I1 *)
Definition I1 (w : World) : Prop := one_room (activePresentations w).

(** an entry of the index once the socket [s] has been taken out of it *)
Definition swept (s : string) (o : option (gset string)) : option (gset string) :=
  match o with
  | Some ss =>
      if decide (s ∈ ss) then
        if decide (ss ∖ {[s]} = ∅) then None else Some (ss ∖ {[s]})
      else Some ss
  | None => None
  end.

(** one turn of the loop of the disconnect handler, on the bare index *)
Definition sweep_step (s : string) (rooms : gmap string (gset string)) (P : string)
    : gmap string (gset string) :=
  if bool_decide (s ∈ members rooms P) then removeSocketFromPresentation P s rooms
  else rooms.

(** the whole loop, over the rooms [l] in order *)
Definition sweep (s : string) (l : list string) (rooms : gmap string (gset string))
    : gmap string (gset string) :=
  foldl (sweep_step s) rooms l.

(** what the loop emits *)
Fixpoint sweep_effects (s uid : string) (l : list string)
    (rooms : gmap string (gset string)) : list Effect :=
  match l with
  | [] => []
  | P :: l' =>
      (if bool_decide (s ∈ members rooms P)
       then [SocketToEmit s P "user-left" (PUserId uid)] else [])
      ++ sweep_effects s uid l' (sweep_step s rooms P)
  end.

(** ** Requests and their answers *)

(** the next request is served, not answered by a fault *)
Definition served (w : World) : bool :=
  match faults w with
  | Some _ :: _ => false
  | _ => true
  end.

(** the answer of [.single()] on no row *)
Definition not_found : PostgrestError :=
  {| code := "PGRST116";
     message := "JSON object requested, multiple (or no) rows returned" |}.

(** a transient failure *)
Definition outage : PostgrestError :=
  {| code := "503"; message := "service unavailable" |}.

(** the request behind leave, disconnect and sweep *)
Definition update_users : Request := {| verb := Update; table := "presentation_users" |}.

(** the rows [removeUserFromPresentation] selects *)
Definition session_of (P uid : string) (u : PresentationUser.t) : bool :=
  bool_decide (PresentationUser.id u = uid ∧ PresentationUser.presentation_id u = P).

(** the rows [removeUserBySocketId] selects *)
Definition bound_to (s : string) (u : PresentationUser.t) : bool :=
  bool_decide (PresentationUser.socket_id u = Some s).

(** the instants [Date] can hold *)
Definition date_in_range (t : Z) : Prop :=
  (-8640000000000000 ≤ t ≤ 8640000000000000)%Z.

(** ** Traces *)

(** the addressee of an [io.to(...).emit] *)
Definition io_target (e : Effect) : option string :=
  match e with
  | IoToEmit target _ _ => Some target
  | _ => None
  end.

(** the connections an [io.to(...).emit] of the trace is addressed to *)
Definition delivered (t : list Effect) : gset string := list_to_set (omap io_target t).

(** an event sent to the members of a room *)
Definition is_broadcast (e : Effect) : bool :=
  match e with
  | IoToEmit _ _ _ | SocketToEmit _ _ _ _ => true
  | _ => false
  end.

(** a trace without broadcast *)
Definition quiet (t : list Effect) : Prop := Forall (λ e, is_broadcast e = false) t.

(** in the trace [t], every broadcast comes after the return of the request
    [req] with its data *)
Definition write_before_broadcast (req : Request) (t : list Effect) : Prop :=
  ∀ i e, t !! i = Some e → is_broadcast e = true →
         ∃ j, j < i ∧ t !! j = Some (StoreOk req).

(** a method of [DatabaseService] that makes the request [req]: it sends
    nothing itself, and returns normally only after [req] has *)
Definition makes_request {A} (req : Request) (m : M A) : Prop :=
  ∀ w, quiet (effects_of (m w))
       ∧ ∀ a, completion_of (m w) = Normal a → StoreOk req ∈ effects_of (m w).

(** nothing leaves the server but [error] events to [socket] itself *)
Definition only_error_to (socket : string) (t : list Effect) : Prop :=
  Forall (λ e, match e with
               | SocketEmit s ev _ => s = socket ∧ ev = "error"
               | SocketToEmit _ _ _ _ | IoToEmit _ _ _
               | SocketJoin _ _ | SocketLeave _ _ => False
               | ConsoleLog _ | ConsoleError _ _ | StoreOk _ | StoreErr _ _ => True
               end) t.

(** ** Relations between the world before and the world after *)

(** a computation takes every world to one related to it by [R] *)
Definition preserves (R : World → World → Prop) {A} (m : M A) : Prop :=
  ∀ w, R w (world_of (m w)).

(** the tables and the tracking maps of two worlds agree *)
Definition same_state (w w' : World) : Prop :=
  store w' = store w ∧ activePresentations w' = activePresentations w
  ∧ userSockets w' = userSockets w ∧ socketUsers w' = socketUsers w.

(** the three tracking maps of two worlds agree *)
Definition same_maps (w w' : World) : Prop :=
  activePresentations w' = activePresentations w
  ∧ userSockets w' = userSockets w ∧ socketUsers w' = socketUsers w.

(** the tracking maps and the database handle of two worlds agree *)
Definition same_tracking (w w' : World) : Prop :=
  activePresentations w' = activePresentations w
  ∧ userSockets w' = userSockets w ∧ socketUsers w' = socketUsers w
  ∧ db w' = db w.

(** the tracking maps after a join that went through, for the session [uid] *)
Definition joined (s P uid : string) (w w' : World) : Prop :=
  activePresentations w' = addSocketToPresentation P s (activePresentations w)
  ∧ userSockets w' = <[uid := s]> (userSockets w)
  ∧ socketUsers w' = <[s := uid]> (socketUsers w)
  ∧ db w' = db w.

(** the tracking maps after a leave that went through *)
Definition left_room (s P uid : string) (w w' : World) : Prop :=
  activePresentations w' = removeSocketFromPresentation P s (activePresentations w)
  ∧ userSockets w' = delete uid (userSockets w)
  ∧ socketUsers w' = delete s (socketUsers w)
  ∧ db w' = db w.

(** the tracking maps after a disconnect whose cleanup ran, for the session
    [uid] the socket was bound to *)
Definition disconnected (s uid : string) (w w' : World) : Prop :=
  socketUsers w !! s = Some uid
  ∧ activePresentations w'
    = sweep s (map_to_list (activePresentations w)).*1 (activePresentations w)
  ∧ userSockets w' = delete uid (userSockets w)
  ∧ socketUsers w' = delete s (socketUsers w)
  ∧ db w' = db w.

(** the session table has only grown at its end *)
Definition users_appended (w w' : World) : Prop :=
  ∃ extra, presentation_users (store w') = presentation_users (store w) ++ extra.

(** the row [u'] is the row [u], except that its [is_active] may have gone
    from true to false *)
Definition only_deactivated (u u' : PresentationUser.t) : Prop :=
  PresentationUser.id u' = PresentationUser.id u
  ∧ PresentationUser.presentation_id u' = PresentationUser.presentation_id u
  ∧ PresentationUser.nickname u' = PresentationUser.nickname u
  ∧ PresentationUser.role u' = PresentationUser.role u
  ∧ PresentationUser.socket_id u' = PresentationUser.socket_id u
  ∧ PresentationUser.joined_at u' = PresentationUser.joined_at u
  ∧ PresentationUser.last_seen u' = PresentationUser.last_seen u
  ∧ (PresentationUser.is_active u' = true → PresentationUser.is_active u = true).

(** every row of [us] is still there, in place, at most deactivated; rows
    may have been added behind them *)
Definition sessions_kept (us us' : list PresentationUser.t) : Prop :=
  ∃ kept extra, us' = kept ++ extra ∧ Forall2 only_deactivated us kept.

(** the same, between two worlds *)
Definition store_keeps_sessions (w w' : World) : Prop :=
  sessions_kept (presentation_users (store w)) (presentation_users (store w')).

(** last seen more than [minutes] minutes before the clock of [w] *)
Definition stale (minutes : Z) (w : World) (u : PresentationUser.t) : Prop :=
  ∃ t, PresentationUser.last_seen u = Some t ∧ (t < clock w - minutes * 60 * 1000)%Z.

(** [w'] has the session rows of [w], those active and stale made inactive,
    the others as they were *)
Definition marks_exactly_stale (minutes : Z) (w w' : World) : Prop :=
  length (presentation_users (store w')) = length (presentation_users (store w))
  ∧ ∀ i u,
      presentation_users (store w) !! i = Some u →
      (PresentationUser.is_active u = true → stale minutes w u →
       presentation_users (store w') !! i
       = Some (PresentationUser.set_is_active false u))
      ∧ (¬ (PresentationUser.is_active u = true ∧ stale minutes w u) →
         presentation_users (store w') !! i = Some u).

(** ** Runs *)

(** the four operations of the presence core, and the passing of time *)
Definition core (e : Event) : bool :=
  match e with
  | Collaborate _ _ => false
  | _ => true
  end.

(** a join is guarded when its socket sits in no room other than the one it
    asks for *)
Definition join_guard (e : Event) (w : World) : bool :=
  match e with
  | JoinPresentation s P _ _ =>
      bool_decide (map_Forall (λ Q (ss : gset string), s ∈ ss → Q = P)
                     (activePresentations w))
  | _ => true
  end.

(** every join of the run is guarded at the moment it is handled *)
Fixpoint guarded_run (es : list Event) (w : World) : bool :=
  match es with
  | [] => true
  | e :: es' => join_guard e w && guarded_run es' (step e w)
  end.

(** ** The rooms of the adapter and the index *)





(** ** Contracts of the specification, in its words *)


(** The reconnect rule of the specification, in its words: after the join
    of [Y], no other connection is left in the room of P on an active
    session of the participant. *)
Definition sole_binding (w : World) (P nickname Y : string) : Prop :=
  ∀ s u,
    s ∈ membersOf w P →
    u ∈ presentation_users (store w) →
    PresentationUser.socket_id u = Some s →
    PresentationUser.nickname u = nickname →
    PresentationUser.is_active u = true →
    s = Y.

(** ** Worlds and rows of the examples *)

(** a store with the one presentation P *)
Definition one_deck : Store :=
  {| presentations := [Presentation.mk "P" "Deck" 0 false None None];
     slides := []; text_blocks := []; presentation_users := [] |}.

(** a store with the presentations P1 and P2 *)
Definition two_decks : Store :=
  {| presentations := [Presentation.mk "P1" "Deck" 0 false None None;
                       Presentation.mk "P2" "Notes" 0 false None None];
     slides := []; text_blocks := []; presentation_users := [] |}.

(** three members A, B and C of presentation P *)
Definition room_abc : World :=
  run [JoinPresentation "A" "P" "ann" None; JoinPresentation "B" "P" "bob" None;
       JoinPresentation "C" "P" "cy" (Some editor)]
    (boot one_deck [] ["u1"; "u2"; "u3"; "s1"] 0).

(** the room of A, B and C, with the store about to fail *)
Definition room_abc_outage : World := set_faults (λ _, [Some outage]) room_abc.

(** the active session of ann, last seen at [seen] *)
Definition ann_at (seen : Z) : PresentationUser.t :=
  PresentationUser.mk "u1" "P" "ann" viewer (Some "A") true (Some 0%Z) (Some seen).

(** the server of the examples as it starts, and the events that bring B and
    C into the room of P *)
Definition deck_start : World := boot one_deck [] ["u1"; "u2"; "u3"; "s1"] 0.

Definition room_bc_events : list Event :=
  [JoinPresentation "B" "P" "bob" None; JoinPresentation "C" "P" "cy" (Some editor)].

(** ** Answers, rows and routes *)

(** sorted in the order [le] *)
Definition sorted_by {A} (le : A → A → bool) (l : list A) : Prop :=
  StronglySorted (λ a b, le a b = true) l.

(** the order of the slides of an answer *)
Definition slide_order_le (a b : Slide.t) : bool :=
  bool_decide (Slide.slide_order a ≤ Slide.slide_order b)%Z.

Definition created_le (a b : TextBlock.t) : bool :=
  bool_decide (created_time a ≤ created_time b)%Z.

Definition joined_le (a b : PresentationUser.t) : bool :=
  nulls_last_le (PresentationUser.joined_at a) (PresentationUser.joined_at b).

(** a slide row without the blocks nested in it *)
Definition slide_row (s : Slide.t) : string * string * string * Z :=
  (Slide.id s, Slide.presentation_id s, Slide.title s, Slide.slide_order s).

(** the next [n] requests are served *)
Definition calm (n : nat) (w : World) : Prop :=
  Forall (λ f, f = None) (take n (faults w)).

(** the identifier the next [uuidv4()] returns *)
Definition next_uuid (w : World) : string :=
  default "00000000-0000-4000-8000-000000000000" (head (uuids w)).

(** the session row a join of [socket] creates in the world [w] *)
Definition session_row (w : World) (socket presentationId nickname : string)
    (role : option Role) : PresentationUser.t :=
  PresentationUser.mk (next_uuid w) presentationId nickname (default viewer role)
    (Some socket) true (Some (clock w)) (Some (clock w)).

Definition select_presentations : Request := {| verb := Select; table := "presentations" |}.
Definition select_users : Request := {| verb := Select; table := "presentation_users" |}.
Definition insert_users : Request := {| verb := Insert; table := "presentation_users" |}.

(** no session row has the identifier [id] *)
Definition fresh_user_id (id : string) (st : Store) : Prop :=
  ¬ Exists (λ u, PresentationUser.id u = id) (presentation_users st).

(** the session table of two worlds is the same *)
Definition same_users (w w' : World) : Prop :=
  presentation_users (store w') = presentation_users (store w).

(** a method that makes the one writing request [req]: it either throws
    after the store refused, the tables as they were, or returns after the
    store accepted *)
Definition writes_or_throws {A} (req : Request) (m : M A) : Prop :=
  ∀ w, (∃ x e w', m w = (Throw x, w', [StoreErr req e])
                  ∧ store w' = store w ∧ same_tracking w w')
       ∨ (∃ a w', m w = (Normal a, w', [StoreOk req])).

(** the session row [u'] is the row [u] with at most another role *)
Definition only_role_changed (u u' : PresentationUser.t) : Prop :=
  ∃ r, u' = PresentationUser.set_role r u.

(** the session table of [w'] is that of [w], row by row, up to roles *)
Definition roles_only (w w' : World) : Prop :=
  Forall2 only_role_changed (presentation_users (store w))
    (presentation_users (store w')).

Definition is_role_update (a : Action) : bool :=
  match a with
  | UpdateUserRole _ _ _ => true
  | _ => false
  end.

(** no slide row has the identifier [id] *)
Definition fresh_slide_id (id : string) (st : Store) : Prop :=
  ¬ Exists (λ s, Slide.id s = id) (slides st).

(** the slides of a presentation, as stored *)
Definition slides_of (st : Store) (presentationId : string) : list Slide.t :=
  filter (λ s, Slide.presentation_id s = presentationId) (slides st).

(** the identifier the [uuidv4()] after the next returns *)
Definition second_uuid (w : World) : string := next_uuid (set_uuids (drop 1) w).

(** no presentation row has the identifier [id] *)
Definition fresh_presentation_id (id : string) (st : Store) : Prop :=
  ¬ Exists (λ p, Presentation.id p = id) (presentations st).

(** the row [createPresentation] inserts, and its default slide *)
Definition new_presentation (w : World) (title : string) : Presentation.t :=
  Presentation.mk (next_uuid w) title 0 false None None.

Definition default_slide (w : World) : Slide.t :=
  Slide.mk (second_uuid w) (next_uuid w) "Untitled Slide" 0 None.

Definition insert_presentations : Request :=
  {| verb := Insert; table := "presentations" |}.
Definition insert_slides : Request := {| verb := Insert; table := "slides" |}.

(** the world of a route's answer *)
Definition route_world (r : HttpResponse * World * list RouteEffect) : World := r.1.2.
Definition route_response (r : HttpResponse * World * list RouteEffect) : HttpResponse :=
  r.1.1.
Definition route_effects (r : HttpResponse * World * list RouteEffect)
    : list RouteEffect := r.2.

Definition delete_presentations : Request :=
  {| verb := Delete; table := "presentations" |}.

(** the session rows of a presentation, as stored *)
Definition users_of (st : Store) (presentationId : string) : list PresentationUser.t :=
  filter (λ u, PresentationUser.presentation_id u = presentationId)
         (presentation_users st).

(** the text blocks on the slides of a presentation *)
Definition blocks_of (st : Store) (presentationId : string) : list TextBlock.t :=
  filter (λ b, Exists (λ s, Slide.id s = TextBlock.slide_id b
                            ∧ Slide.presentation_id s = presentationId) (slides st))
         (text_blocks st).

(** the sockets a route tells that the presentation [id] is gone, in order *)
Definition told_deleted (id : string) (t : list RouteEffect) : list string :=
  omap (λ e, match e with
             | PresentationDeleted s P => if bool_decide (P = id) then Some s else None
             | Within _ => None
             end) t.

(** the active session rows bound to a socket *)
Definition active_on (st : Store) (socketId : string) : list PresentationUser.t :=
  filter (λ u, PresentationUser.socket_id u = Some socketId
               ∧ PresentationUser.is_active u = true)
         (presentation_users st).

(** the row [u] after [updateUserSocketId] binds it to [socketId] at [now] *)
Definition rebound (socketId : string) (now : Z) (u : PresentationUser.t)
    : PresentationUser.t :=
  PresentationUser.mk (PresentationUser.id u) (PresentationUser.presentation_id u)
    (PresentationUser.nickname u) (PresentationUser.role u) (Some socketId)
    (PresentationUser.is_active u) (PresentationUser.joined_at u) (Some now).

(** ** Further worlds of the examples *)

(** the one presentation P, nobody in it, the clock at 5 *)
Definition fresh_deck : World := boot one_deck [] ["u1"] 5.

(** a store with three slides of P, stored out of order, and two text blocks
    on the first of them *)
Definition deck_of_slides : Store :=
  {| presentations := [Presentation.mk "P" "Deck" 0 false None None];
     slides := [Slide.mk "s2" "P" "Body" 3 None; Slide.mk "s1" "P" "Intro" 0 None;
                Slide.mk "s3" "P" "End" 7 None];
     text_blocks := [TextBlock.mk "b2" "s1" "later" 0 0 10 10 12 "normal" "black" (Some 9%Z);
                     TextBlock.mk "b1" "s1" "first" 0 0 10 10 12 "normal" "black" (Some 2%Z)];
     presentation_users := [] |}.

Definition slide_deck : World := boot deck_of_slides [] ["s4"; "s5"] 0.

(** * Properties *)

(** ** The model at work *)

(** A adds a slide in the room of A, B and C: the insert returns, then the
    event goes to the three of them. *)
Example add_slide_in_room_abc :
  head (effects_of (on_action "A" (AddSlide "P" None None) room_abc))
  = Some (StoreOk {| verb := Insert; table := "slides" |})
  ∧ delivered (effects_of (on_action "A" (AddSlide "P" None None) room_abc))
    = {["A"; "B"; "C"]}
  ∧ slides (store (step (Collaborate "A" (AddSlide "P" None None)) room_abc))
    = [Slide.mk "s1" "P" "Untitled Slide" 0 None].
Proof. apply (bool_decide_unpack _). by vm_compute. Qed.

(** B leaves, then C drops: A is alone in the room, and the three session
    rows are still in the table, two of them inactive. *)
Example leave_and_disconnect_in_room_abc :
  membersOf (run [LeavePresentation "B" "P" "u2"; Disconnect "C"] room_abc) "P" = {["A"]}
  ∧ map (λ u, (PresentationUser.id u, PresentationUser.is_active u))
      (presentation_users
         (store (run [LeavePresentation "B" "P" "u2"; Disconnect "C"] room_abc)))
    = [("u1", true); ("u2", false); ("u3", false)]
  ∧ effects_of (on_disconnect "C" (step (LeavePresentation "B" "P" "u2") room_abc))
    = [ConsoleLog "User disconnected: C"; StoreOk update_users;
       SocketToEmit "C" "P" "user-left" (PUserId "u3")].
Proof. apply (bool_decide_unpack _). by vm_compute. Qed.

(** ** The room index *)

Section rooms.
Implicit Types (rooms : gmap string (gset string)) (P Q s : string).

Lemma lookup_addSocketToPresentation rooms P s Q :
  addSocketToPresentation P s rooms !! Q =
  if decide (P = Q) then Some (members rooms P ∪ {[s]}) else rooms !! Q.
Proof.
  unfold addSocketToPresentation, members.
  case_bool_decide as HP.
  - destruct HP as [ss Hss]. rewrite lookup_alter. case_decide; subst; [|done].
    by rewrite Hss.
  - apply eq_None_not_Some in HP. rewrite lookup_alter.
    case_decide; subst.
    + by rewrite lookup_insert_eq, HP.
    + by rewrite lookup_insert_ne.
Qed.

Lemma lookup_removeSocketFromPresentation rooms P s Q :
  removeSocketFromPresentation P s rooms !! Q =
  if decide (P = Q) then
    match rooms !! P with
    | Some ss => if decide (ss ∖ {[s]} = ∅) then None else Some (ss ∖ {[s]})
    | None => None
    end
  else rooms !! Q.
Proof.
  unfold removeSocketFromPresentation.
  destruct (rooms !! P) as [ss|] eqn:Hss.
  - cbn zeta. case_bool_decide as Hsz.
    + apply size_empty_iff in Hsz. apply leibniz_equiv in Hsz.
      rewrite lookup_delete. case_decide; subst; [|done].
      by rewrite decide_True.
    + rewrite lookup_insert. case_decide; subst; [|done].
      rewrite decide_False; [done|].
      intros Heq. apply Hsz. rewrite Heq. apply size_empty.
  - case_decide; subst; done.
Qed.

Lemma members_addSocketToPresentation rooms P s Q :
  members (addSocketToPresentation P s rooms) Q =
  if decide (P = Q) then members rooms P ∪ {[s]} else members rooms Q.
Proof.
  unfold members at 1. rewrite lookup_addSocketToPresentation.
  by case_decide.
Qed.

Lemma members_removeSocketFromPresentation rooms P s Q :
  members (removeSocketFromPresentation P s rooms) Q =
  if decide (P = Q) then members rooms P ∖ {[s]} else members rooms Q.
Proof.
  unfold members at 1. rewrite lookup_removeSocketFromPresentation.
  case_decide; subst; [|done].
  unfold members. destruct (rooms !! Q) as [ss|]; simpl.
  - case_decide as Hss; simpl; [by rewrite Hss | done].
  - set_solver.
Qed.

Lemma no_empty_room_empty : no_empty_room ∅.
Proof. intros P ss Hss. by rewrite lookup_empty in Hss. Qed.

Lemma no_empty_room_add rooms P s :
  no_empty_room rooms → no_empty_room (addSocketToPresentation P s rooms).
Proof.
  intros Hne Q ss. rewrite lookup_addSocketToPresentation.
  case_decide; subst.
  - intros [= <-]. set_solver.
  - apply Hne.
Qed.

Lemma no_empty_room_remove rooms P s :
  no_empty_room rooms → no_empty_room (removeSocketFromPresentation P s rooms).
Proof.
  intros Hne Q ss. rewrite lookup_removeSocketFromPresentation.
  case_decide; subst.
  - destruct (rooms !! Q) as [ss'|]; [|done].
    case_decide; [done|]. by intros [= <-].
  - apply Hne.
Qed.

Lemma one_room_remove rooms P s :
  one_room rooms → one_room (removeSocketFromPresentation P s rooms).
Proof.
  intros H1 x Q R. rewrite !members_removeSocketFromPresentation.
  repeat case_decide; subst; intros HQ HR; apply (H1 x); set_solver.
Qed.

Lemma one_room_add rooms P s :
  (∀ Q, s ∈ members rooms Q → Q = P) →
  one_room rooms → one_room (addSocketToPresentation P s rooms).
Proof.
  intros Hs H1 x Q R. rewrite !members_addSocketToPresentation.
  repeat case_decide; subst; intros HQ HR; [done| | |by apply (H1 x)].
  - apply elem_of_union in HQ as [HQ|HQ].
    + by apply (H1 x).
    + apply elem_of_singleton in HQ. subst. symmetry. by apply Hs.
  - apply elem_of_union in HR as [HR|HR].
    + by apply (H1 x).
    + apply elem_of_singleton in HR. subst. by apply Hs.
Qed.

End rooms.

(** ** Stepping through the handler monad *)

Ltac unfold_M :=
  unfold mbind, M_bind, mret, M_ret, gets, modify, tell, throw, try_catch,
    uuidv4, date_now, world_of, effects_of, completion_of in *.

Lemma query_cases {A} req (q : Store → Response A * Store) w :
  (∃ e, query req q w = (Normal (Err e), set_faults (drop 1) w, [StoreErr req e])
        ∧ (served w = true → ∃ st, q (store w) = (Err e, st))) ∨
  (∃ a st, served w = true ∧ q (store w) = (Data a, st) ∧
     query req q w =
       (Normal (Data a), set_store (λ _, st) (set_faults (drop 1) w), [StoreOk req])).
Proof.
  unfold query, served.
  destruct (faults w) as [|[e|] fs].
  - destruct (q (store w)) as [[a|e] st] eqn:Hq.
    + right. by exists a, st.
    + left. exists e. split; [done|]. intros _. by exists st.
  - left. exists e. by split.
  - destruct (q (store w)) as [[a|e] st] eqn:Hq.
    + right. by exists a, st.
    + left. exists e. split; [done|]. intros _. by exists st.
Qed.

Lemma for_each_tell {A} (f : A → Effect) (l : list A) w :
  for_each l (λ a, tell (f a)) w = (Normal (), w, f <$> l).
Proof.
  induction l as [|a l IH]; [done|].
  simpl. unfold_M. rewrite IH. done.
Qed.

(** ** Broadcast *)

Lemma omap_io_target_emit (l : list string) ev d :
  omap io_target ((λ s, IoToEmit s ev d) <$> l) = l.
Proof. induction l as [|s l IH]; [done|]. csimpl. by rewrite IH. Qed.

Lemma broadcast_run w P ev d :
  broadcastToPresentation P ev d w
  = (Normal (), w, (λ s, IoToEmit s ev d) <$> elements (membersOf w P)).
Proof.
  unfold broadcastToPresentation, membersOf, mbind, M_bind, gets.
  destruct (activePresentations w !! P) as [ss|]; simpl.
  - rewrite for_each_tell. done.
  - by rewrite elements_empty.
Qed.

(** ** Join of a presentation that does not exist *)

Lemma select_absent_presentation st P :
  has_presentation st P = false → q_select_presentation P st = Err not_found.
Proof.
  unfold has_presentation, q_select_presentation. intros Hno.
  apply bool_decide_eq_false in Hno.
  assert (filter (λ p, Presentation.id p = P) (presentations st) = []) as ->; [|done].
  induction (presentations st) as [|p ps IH]; [done|].
  rewrite filter_cons. case_decide as Hp.
  - destruct Hno. by left.
  - apply IH. intros Hex. apply Hno. by right.
Qed.

(** C5. A join that names a presentation absent from the store changes
    neither the tables nor any of the three tracking maps, whatever the
    store answers, and the only thing sent is an [error] event to the
    joining socket; when the lookup is served the handler returns normally
    after exactly one emit, [error] with the not-found message. *)
Theorem join_unknown_presentation s P n r w :
  has_presentation (store w) P = false →
  same_state w (world_of (on_join_presentation s P n r w))
  ∧ uuids (world_of (on_join_presentation s P n r w)) = uuids w
  ∧ completion_of (on_join_presentation s P n r w) = Normal ()
  ∧ only_error_to s (effects_of (on_join_presentation s P n r w))
  ∧ (is_Some (db w) → served w = true →
     effects_of (on_join_presentation s P n r w)
     = [StoreErr {| verb := Select; table := "presentations" |} not_found;
        SocketEmit s "error" (PMessage "Presentation not found")]).
Proof.
  intros Hno. apply select_absent_presentation in Hno.
  unfold on_join_presentation, getPresentationById, same_state, only_error_to, served.
  unfold query. unfold_M.
  destruct (db w) as [d|]; cbn -[q_select_presentation].
  - rewrite Hno. destruct (faults w) as [|[e|] fs]; simpl;
      try case_bool_decide; simpl; repeat split; auto; try done; repeat constructor.
  - repeat split; auto; try (by intros [? ?]); repeat constructor.
Qed.

(** P is in no table; socket S asks to join it under a working store *)
Lemma join_unknown_presentation_witness :
  effects_of (on_join_presentation "S" "P" "ann" None
                (boot {| presentations := []; slides := []; text_blocks := [];
                         presentation_users := [] |} [] ["u1"] 0))
  = [StoreErr {| verb := Select; table := "presentations" |} not_found;
     SocketEmit "S" "error" (PMessage "Presentation not found")].
Proof.
  apply (join_unknown_presentation "S" "P" "ann" None
           (boot {| presentations := []; slides := []; text_blocks := [];
                    presentation_users := [] |} [] ["u1"] 0));
    [reflexivity | by eexists | reflexivity].
Defined.

(** ** Relations that every step of a handler keeps *)

Lemma bind_run {A B} (m : M A) (f : A → M B) w :
  (m ≫= f) w =
  match m w with
  | (Normal a, w1, t1) =>
      match f a w1 with
      | (r, w2, t2) => (r, w2, t1 ++ t2)
      end
  | (Throw e, w1, t1) => (Throw e, w1, t1)
  end.
Proof. done. Qed.

Section preserves.
Context (R : World → World → Prop) `{!Reflexive R, !Transitive R}.

Lemma preserves_ret {A} (a : A) : preserves R (mret a).
Proof. intros w. apply reflexivity. Qed.

Lemma preserves_throw {A} e : preserves R (@throw A e).
Proof. intros w. apply reflexivity. Qed.

Lemma preserves_tell e : preserves R (tell e).
Proof. intros w. apply reflexivity. Qed.

Lemma preserves_gets {A} (f : World → A) : preserves R (gets f).
Proof. intros w. apply reflexivity. Qed.

Lemma preserves_date_now : preserves R date_now.
Proof. intros w. apply reflexivity. Qed.

Lemma preserves_modify f : (∀ w, R w (f w)) → preserves R (modify f).
Proof. intros Hf w. apply Hf. Qed.

Lemma preserves_bind {A B} (m : M A) (f : A → M B) :
  preserves R m → (∀ a, preserves R (f a)) → preserves R (m ≫= f).
Proof.
  intros Hm Hf w. rewrite bind_run. specialize (Hm w). unfold world_of in *.
  destruct (m w) as [[[a|e] w1] t1]; simpl in *; [|done].
  specialize (Hf a w1). unfold world_of in Hf.
  destruct (f a w1) as [[r w2] t2]; simpl in *. by etrans.
Qed.

Lemma preserves_try_catch {A} (body : M A) handler :
  preserves R body → (∀ e, preserves R (handler e)) → preserves R (try_catch body handler).
Proof.
  intros Hm Hf w. unfold try_catch. specialize (Hm w). unfold world_of in *.
  destruct (body w) as [[[a|e] w1] t1]; simpl in *; [done|].
  specialize (Hf e w1). unfold world_of in Hf.
  destruct (handler e w1) as [[r w2] t2]; simpl in *. by etrans.
Qed.

Lemma preserves_for_each {A} (l : list A) (body : A → M ()) :
  (∀ a, preserves R (body a)) → preserves R (for_each l body).
Proof.
  intros Hbody. induction l as [|a l IH]; simpl.
  - apply preserves_ret.
  - apply preserves_bind; [apply Hbody | intros _; apply IH].
Qed.

Lemma preserves_uuidv4 :
  (∀ w, R w (set_uuids (drop 1) w)) → preserves R uuidv4.
Proof. intros H w. apply H. Qed.

Lemma preserves_query {A} req (q : Store → Response A * Store) :
  (∀ w, R w (set_faults (drop 1) w)) →
  (∀ w a st, q (store w) = (Data a, st) →
             R w (set_store (λ _, st) (set_faults (drop 1) w))) →
  preserves R (query req q).
Proof.
  intros Hf Hq w.
  destruct (query_cases req q w) as [(e & -> & _)|(a & st & _ & Hst & ->)].
  - apply Hf.
  - by apply (Hq w a st).
Qed.

End preserves.

(** the monadic skeleton of a handler, down to its requests and updates *)
Ltac order_goal :=
  try match goal with
      | |- Reflexive _ => apply _
      | |- Transitive _ => apply _
      end.

Ltac skeleton :=
  repeat
    (first
       [ apply preserves_ret | apply preserves_throw | apply preserves_tell
       | apply preserves_gets | apply preserves_date_now
       | apply preserves_bind
       | apply preserves_try_catch
       | apply preserves_for_each
       | match goal with
         | |- preserves _ (match ?x with _ => _ end) => destruct x
         | |- preserves _ (match ?x with _ => _ end _) => destruct x
         | |- preserves _ (if ?x then _ else _) => destruct x
         | |- preserves _ (let _ := _ in _) => cbv zeta
         end
       | progress cbv beta ];
     order_goal; intros).

Lemma preserves_broadcast R `{!Reflexive R} P ev d :
  preserves R (broadcastToPresentation P ev d).
Proof. intros w. rewrite broadcast_run. apply reflexivity. Qed.

Lemma modify_bind_run {A} f (k : M A) w : (modify f;; k) w = k (f w).
Proof. rewrite bind_run. unfold modify. by destruct (k (f w)) as [[r w2] t2]. Qed.

Lemma world_of_tell_bind {A} e (k : M A) w :
  world_of ((tell e;; k) w) = world_of (k w).
Proof. rewrite bind_run. unfold tell. by destruct (k w) as [[r w2] t2]. Qed.

(** ** What each handler does to the tracking maps *)

#[local] Instance same_tracking_refl : Reflexive same_tracking.
Proof. by intros w. Qed.

#[local] Instance same_tracking_trans : Transitive same_tracking.
Proof.
  intros w1 w2 w3 (?&?&?&?) (?&?&?&?). unfold same_tracking. repeat split; congruence.
Qed.

(** requests, identifiers and the clock leave the tracking maps alone *)
Ltac store_only :=
  skeleton;
  first [ apply preserves_query; intros; done
        | apply preserves_uuidv4; intros; done
        | apply preserves_broadcast; apply _ ].

Lemma getPresentationById_tracking id : preserves same_tracking (getPresentationById id).
Proof. unfold getPresentationById. store_only. Qed.

Lemma addUserToPresentation_tracking P n r s :
  preserves same_tracking (addUserToPresentation P n r s).
Proof. unfold addUserToPresentation. store_only. Qed.

Lemma removeUserFromPresentation_tracking P u :
  preserves same_tracking (removeUserFromPresentation P u).
Proof. unfold removeUserFromPresentation. store_only. Qed.

Lemma removeUserBySocketId_tracking s : preserves same_tracking (removeUserBySocketId s).
Proof. unfold removeUserBySocketId. store_only. Qed.

Lemma getPresentationUsers_tracking P : preserves same_tracking (getPresentationUsers P).
Proof. unfold getPresentationUsers. store_only. Qed.

Lemma on_action_tracking s a : preserves same_tracking (on_action s a).
Proof.
  destruct a; simpl;
    unfold on_add_slide, on_remove_slide, on_update_slide_index,
      on_update_current_slide, on_add_text_block, on_update_text_block,
      on_remove_text_block, on_update_user_role, on_enter_present_mode,
      on_exit_present_mode, guarded;
    store_only.
Qed.

Lemma reaper_tick_tracking : preserves same_tracking reaper_tick.
Proof. unfold reaper_tick, cleanupInactiveUsers, toISOString. store_only. Qed.

Lemma try_catch_world {A} (body : M A) handler w :
  (∀ e w1, world_of (handler e w1) = w1) →
  world_of (try_catch body handler w) = world_of (body w).
Proof.
  intros Hh. unfold try_catch, world_of.
  destruct (body w) as [[[a|e] w1] t1]; simpl; [done|].
  specialize (Hh e w1). unfold world_of in Hh.
  by destruct (handler e w1) as [[r w2] t2].
Qed.

Lemma gets_bind_run {A B} (g : World → A) (k : A → M B) w :
  (gets g ≫= k) w = k (g w) w.
Proof. rewrite bind_run. unfold gets. by destruct (k (g w) w) as [[r w2] t2]. Qed.

Lemma world_of_bind {A B} (m : M A) (k : A → M B) w :
  world_of ((m ≫= k) w) =
  match completion_of (m w) with
  | Normal a => world_of (k a (world_of (m w)))
  | Throw _ => world_of (m w)
  end.
Proof.
  rewrite bind_run. unfold world_of, completion_of.
  destruct (m w) as [[[a|e] w1] t1]; simpl; [|done].
  by destruct (k a w1) as [[r w2] t2].
Qed.

Lemma on_join_presentation_tracking s P n r w :
  same_tracking w (world_of (on_join_presentation s P n r w))
  ∨ ∃ uid, joined s P uid w (world_of (on_join_presentation s P n r w)).
Proof.
  unfold on_join_presentation. rewrite try_catch_world; [|done].
  cbv zeta. rewrite gets_bind_run.
  destruct (db w) as [d|]; [|by left].
  rewrite world_of_bind.
  pose proof (getPresentationById_tracking P w) as H1.
  destruct (completion_of (getPresentationById P w)) as [[pres|]|e];
    [|by left|by left].
  set (w1 := world_of (getPresentationById P w)) in *.
  rewrite world_of_bind.
  pose proof (addUserToPresentation_tracking P n (default viewer r) (Some s) w1) as H2.
  destruct (completion_of (addUserToPresentation P n (default viewer r) (Some s) w1))
    as [user|e]; [|left; by etrans].
  set (w2 := world_of (addUserToPresentation P n (default viewer r) (Some s) w1)) in *.
  rewrite !modify_bind_run, world_of_tell_bind.
  right. exists (PresentationUser.id user).
  set (w3 := set_socketUsers _ _).
  assert (same_tracking w3 (world_of ((users ← getPresentationUsers P;
      tell (SocketEmit s "presentation-joined" (PJoined pres user users));;
      tell (SocketToEmit s P "user-joined" (PUser user));;
      tell (ConsoleLog ("User " +:+ n +:+ " joined presentation " +:+ P))) w3)))
    as (Ha & Hu & Hs & Hd).
  { apply (preserves_bind same_tracking); [apply getPresentationUsers_tracking|].
    intros users. store_only. }
  destruct H1 as (Ha1 & Hu1 & Hs1 & Hd1), H2 as (Ha2 & Hu2 & Hs2 & Hd2).
  unfold joined. rewrite Ha, Hu, Hs, Hd. subst w3. simpl.
  by rewrite Ha2, Hu2, Hs2, Hd2, Ha1, Hu1, Hs1, Hd1.
Qed.

Lemma on_leave_presentation_tracking s P uid w :
  same_tracking w (world_of (on_leave_presentation s P uid w))
  ∨ left_room s P uid w (world_of (on_leave_presentation s P uid w)).
Proof.
  unfold on_leave_presentation. rewrite try_catch_world; [|done].
  rewrite gets_bind_run.
  destruct (db w) as [d|]; [|by left].
  rewrite world_of_bind.
  pose proof (removeUserFromPresentation_tracking P uid w) as H1.
  destruct (completion_of (removeUserFromPresentation P uid w)) as [[]|e]; [|by left].
  set (w1 := world_of (removeUserFromPresentation P uid w)) in *.
  rewrite !modify_bind_run, !world_of_tell_bind.
  right. destruct H1 as (Ha1 & Hu1 & Hs1 & Hd1).
  unfold left_room, world_of, tell. simpl. by rewrite Ha1, Hu1, Hs1, Hd1.
Qed.

Lemma leave_room_on_disconnect_run s uid P w :
  leave_room_on_disconnect s uid P w
  = (Normal (), set_activePresentations (λ rooms, sweep_step s rooms P) w,
     if bool_decide (s ∈ members (activePresentations w) P)
     then [SocketToEmit s P "user-left" (PUserId uid)] else []).
Proof.
  unfold leave_room_on_disconnect. rewrite gets_bind_run.
  unfold sweep_step, members.
  destruct (activePresentations w !! P) as [ss|] eqn:Hss; simpl.
  - case_bool_decide.
    + rewrite modify_bind_run. unfold tell. f_equal. f_equal.
      unfold set_activePresentations. simpl. f_equal.
      unfold members. rewrite Hss. simpl. by rewrite bool_decide_eq_true_2.
    + f_equal. f_equal. unfold set_activePresentations. simpl.
      unfold members. rewrite Hss. simpl. rewrite bool_decide_eq_false_2 by done.
      by destruct w.
  - rewrite bool_decide_eq_false_2 by set_solver.
    f_equal. f_equal. unfold set_activePresentations, members. rewrite Hss. simpl.
    rewrite bool_decide_eq_false_2 by set_solver. by destruct w.
Qed.

Lemma disconnect_loop_run s uid l w :
  for_each l (leave_room_on_disconnect s uid) w
  = (Normal (), set_activePresentations (sweep s l) w,
     sweep_effects s uid l (activePresentations w)).
Proof.
  revert w. induction l as [|P l IH]; intros w.
  - simpl. unfold mret, M_ret. by destruct w.
  - simpl. rewrite bind_run, leave_room_on_disconnect_run, IH. done.
Qed.

Section sweep.
Implicit Types (rooms : gmap string (gset string)) (P Q s : string).

Lemma members_sweep_step s rooms P Q :
  members (sweep_step s rooms P) Q =
  if decide (P = Q) then members rooms Q ∖ {[s]} else members rooms Q.
Proof.
  unfold sweep_step. case_bool_decide as Hin.
  - rewrite members_removeSocketFromPresentation. by case_decide; subst.
  - case_decide; subst; [|done]. set_solver.
Qed.

Lemma members_sweep s l rooms Q :
  members (sweep s l rooms) Q =
  if decide (Q ∈ l) then members rooms Q ∖ {[s]} else members rooms Q.
Proof.
  revert rooms. induction l as [|P l IH]; intros rooms.
  - case_decide as Hin; [|done]. by apply elem_of_nil in Hin.
  - change (sweep s (P :: l) rooms) with (sweep s l (sweep_step s rooms P)).
    rewrite IH, !members_sweep_step.
    destruct (decide (P = Q)) as [->|Hne].
    + rewrite (decide_True (P:=Q ∈ Q :: l)) by left.
      case_decide; set_solver.
    + destruct (decide (Q ∈ l)) as [Hl|Hl].
      * by rewrite (decide_True (P:=Q ∈ P :: l)) by by right.
      * rewrite (decide_False (P:=Q ∈ P :: l)); [done|].
        by intros [->|?]%elem_of_cons.
Qed.

(** over the keys of the index, the loop takes the socket out of every room *)
Lemma members_sweep_keys s rooms Q :
  members (sweep s (map_to_list rooms).*1 rooms) Q = members rooms Q ∖ {[s]}.
Proof.
  rewrite members_sweep. case_decide as Hin; [done|].
  assert (rooms !! Q = None) as HQ.
  { apply eq_None_not_Some. intros [ss Hss]. apply Hin.
    apply list_elem_of_fmap. exists (Q, ss). split; [done|].
    by apply elem_of_map_to_list. }
  unfold members. rewrite HQ. set_solver.
Qed.

Lemma no_empty_room_sweep s l rooms :
  no_empty_room rooms → no_empty_room (sweep s l rooms).
Proof.
  revert rooms. induction l as [|P l IH]; intros rooms Hne; [done|].
  simpl. apply IH. unfold sweep_step. case_bool_decide; [|done].
  by apply no_empty_room_remove.
Qed.

Lemma one_room_sweep s l rooms : one_room rooms → one_room (sweep s l rooms).
Proof.
  revert rooms. induction l as [|P l IH]; intros rooms H1; [done|].
  simpl. apply IH. unfold sweep_step. case_bool_decide; [|done].
  by apply one_room_remove.
Qed.

End sweep.

Lemma on_disconnect_tracking s w :
  same_tracking w (world_of (on_disconnect s w))
  ∨ ∃ uid, disconnected s uid w (world_of (on_disconnect s w)).
Proof.
  unfold on_disconnect. rewrite world_of_tell_bind.
  rewrite try_catch_world; [|done].
  rewrite !gets_bind_run.
  destruct (socketUsers w !! s) as [uid|] eqn:Huid; [|by left].
  destruct (db w) as [d|] eqn:Hdb; [|by left].
  destruct (truthy uid); [|by left].
  rewrite world_of_bind.
  pose proof (removeUserBySocketId_tracking s w) as H1.
  destruct (completion_of (removeUserBySocketId s w)) as [[]|e]; [|by left].
  set (w1 := world_of (removeUserBySocketId s w)) in *.
  rewrite !modify_bind_run, gets_bind_run, disconnect_loop_run.
  right. exists uid. destruct H1 as (Ha1 & Hu1 & Hs1 & Hd1).
  unfold disconnected, world_of. simpl.
  by rewrite Ha1, Hu1, Hs1, Hd1, Hdb.
Qed.

(** every event falls in one of four classes *)
Lemma step_tracking e w :
  same_tracking w (step e w)
  ∨ (∃ s P n r uid, e = JoinPresentation s P n r ∧ joined s P uid w (step e w))
  ∨ (∃ s P uid, e = LeavePresentation s P uid ∧ left_room s P uid w (step e w))
  ∨ (∃ s uid, e = Disconnect s ∧ disconnected s uid w (step e w)).
Proof.
  destruct e as [s P n r|s P uid|s a|s| |ms]; unfold step; simpl.
  - destruct (on_join_presentation_tracking s P n r w) as [?|[uid ?]]; [by left|].
    right; left. by exists s, P, n, r, uid.
  - destruct (on_leave_presentation_tracking s P uid w) as [?|?]; [by left|].
    right; right; left. by exists s, P, uid.
  - left. apply on_action_tracking.
  - destruct (on_disconnect_tracking s w) as [?|[uid ?]]; [by left|].
    right; right; right. by exists s, uid.
  - left. apply reaper_tick_tracking.
  - by left.
Qed.

Lemma step_no_empty_room e w :
  no_empty_room (activePresentations w) →
  no_empty_room (activePresentations (step e w)).
Proof.
  intros Hne.
  destruct (step_tracking e w)
    as [(-> & _)|[(s & P & n & r & uid & _ & -> & _)
       |[(s & P & uid & _ & -> & _)|(s & uid & _ & _ & -> & _)]]].
  - done.
  - by apply no_empty_room_add.
  - by apply no_empty_room_remove.
  - by apply no_empty_room_sweep.
Qed.

Lemma run_no_empty_room es w :
  no_empty_room (activePresentations w) →
  no_empty_room (activePresentations (run es w)).
Proof.
  revert w. induction es as [|e es IH]; intros w Hne; [done|].
  simpl. apply IH. by apply step_no_empty_room.
Qed.

Lemma step_one_room e w :
  join_guard e w = true →
  one_room (activePresentations w) → one_room (activePresentations (step e w)).
Proof.
  intros Hg H1.
  destruct (step_tracking e w)
    as [(-> & _)|[(s & P & n & r & uid & -> & -> & _)
       |[(s & P & uid & _ & -> & _)|(s & uid & _ & _ & -> & _)]]].
  - done.
  - apply one_room_add; [|done].
    simpl in Hg. apply bool_decide_eq_true in Hg.
    intros Q. unfold members.
    destruct (activePresentations w !! Q) as [ss|] eqn:Hss; simpl; [|set_solver].
    by apply (Hg Q ss).
  - by apply one_room_remove.
  - by apply one_room_sweep.
Qed.

Lemma run_one_room es w :
  one_room (activePresentations w) → guarded_run es w = true →
  ∀ k, one_room (activePresentations (run (take k es) w)).
Proof.
  revert w. induction es as [|e es IH]; intros w H1 Hg k.
  - by rewrite take_nil.
  - destruct k as [|k]; [done|].
    simpl in *. apply andb_prop in Hg as [Hg1 Hg2].
    apply IH; [|done]. by apply step_one_room.
Qed.

Lemma one_room_empty : one_room ∅.
Proof. intros s P Q. unfold members. rewrite lookup_empty. set_solver. Qed.

(** ** Requests that are served, requests that fail *)

Lemma query_served {A} req (q : Store → Response A * Store) w a st :
  served w = true → q (store w) = (Data a, st) →
  query req q w
  = (Normal (Data a), set_store (λ _, st) (set_faults (drop 1) w), [StoreOk req]).
Proof.
  unfold served, query. intros Hs ->. by destruct (faults w) as [|[e|] fs].
Qed.

Lemma query_fault {A} req (q : Store → Response A * Store) w e fs :
  faults w = Some e :: fs →
  query req q w = (Normal (Err e), set_faults (drop 1) w, [StoreErr req e]).
Proof. unfold query. by intros ->. Qed.

Lemma on_leave_presentation_served s P uid w :
  is_Some (db w) → served w = true →
  on_leave_presentation s P uid w
  = (Normal (),
     set_socketUsers (delete s)
       (set_userSockets (delete uid)
          (set_activePresentations (removeSocketFromPresentation P s)
             (set_store (λ _, q_deactivate_users (session_of P uid) (store w))
                (set_faults (drop 1) w)))),
     [StoreOk update_users; SocketLeave s P;
      SocketToEmit s P "user-left" (PUserId uid);
      ConsoleLog ("User " +:+ uid +:+ " left presentation " +:+ P)]).
Proof.
  intros [d Hd] Hs. unfold on_leave_presentation, removeUserFromPresentation, try_catch.
  rewrite gets_bind_run, Hd, !bind_run.
  erewrite query_served; [|done|done]. done.
Qed.

Lemma on_leave_presentation_fault s P uid w e fs :
  is_Some (db w) → faults w = Some e :: fs →
  on_leave_presentation s P uid w
  = (Normal (), set_faults (drop 1) w,
     [StoreErr update_users e;
      ConsoleError "Error leaving presentation:"
        ("Failed to remove user from presentation: " +:+ message e)]).
Proof.
  intros [d Hd] Hf. unfold on_leave_presentation, removeUserFromPresentation, try_catch.
  rewrite gets_bind_run, Hd, !bind_run.
  erewrite query_fault; [|done]. done.
Qed.

Lemma removeUserBySocketId_served s w :
  served w = true →
  removeUserBySocketId s w
  = (Normal (),
     set_store (λ _, q_deactivate_users (bound_to s) (store w)) (set_faults (drop 1) w),
     [StoreOk update_users]).
Proof.
  intros Hs. unfold removeUserBySocketId. rewrite bind_run.
  erewrite query_served; [|done|done]. done.
Qed.

Lemma on_disconnect_served s uid w :
  is_Some (db w) → served w = true →
  socketUsers w !! s = Some uid → truthy uid = true →
  on_disconnect s w
  = (Normal (),
     set_activePresentations (sweep s (map_to_list (activePresentations w)).*1)
       (set_socketUsers (delete s)
          (set_userSockets (delete uid)
             (set_store (λ _, q_deactivate_users (bound_to s) (store w))
                (set_faults (drop 1) w)))),
     [ConsoleLog ("User disconnected: " +:+ s); StoreOk update_users]
     ++ sweep_effects s uid (map_to_list (activePresentations w)).*1
          (activePresentations w)).
Proof.
  intros [d Hd] Hs Hu Ht. unfold on_disconnect, try_catch.
  rewrite (bind_run (tell _)). unfold tell at 1.
  rewrite !gets_bind_run, Hu, Hd, Ht.
  rewrite (bind_run (removeUserBySocketId s)), removeUserBySocketId_served by done.
  rewrite !modify_bind_run, gets_bind_run, disconnect_loop_run.
  done.
Qed.

Lemma on_disconnect_fault s uid w e fs :
  is_Some (db w) → faults w = Some e :: fs →
  socketUsers w !! s = Some uid → truthy uid = true →
  on_disconnect s w
  = (Normal (), set_faults (drop 1) w,
     [ConsoleLog ("User disconnected: " +:+ s); StoreErr update_users e;
      ConsoleError "Error handling disconnect:"
        ("Failed to remove user by socket ID: " +:+ message e)]).
Proof.
  intros [d Hd] Hf Hu Ht. unfold on_disconnect, removeUserBySocketId, try_catch.
  rewrite (bind_run (tell _)). unfold tell at 1.
  rewrite !gets_bind_run, Hu, Hd, Ht, !bind_run.
  erewrite query_fault; [|done]. done.
Qed.

(** ** The loop of the disconnect handler, entry by entry *)

Lemma lookup_sweep_step s rooms P Q :
  sweep_step s rooms P !! Q = if decide (P = Q) then swept s (rooms !! Q) else rooms !! Q.
Proof.
  unfold sweep_step, swept, members.
  case_bool_decide as Hin.
  - rewrite lookup_removeSocketFromPresentation. case_decide; subst; [|done].
    destruct (rooms !! Q) as [ss|]; simpl in *; [|done].
    by rewrite (decide_True (P:=s ∈ ss)).
  - case_decide; subst; [|done].
    destruct (rooms !! Q) as [ss|]; simpl in *; [|done].
    by rewrite (decide_False (P:=s ∈ ss)).
Qed.

Lemma swept_idemp s o : swept s (swept s o) = swept s o.
Proof.
  destruct o as [ss|]; [|done]. simpl.
  destruct (decide (s ∈ ss)); simpl.
  - destruct (decide (ss ∖ {[s]} = ∅)); simpl; [done|].
    rewrite decide_False; [done|]. set_solver.
  - by rewrite decide_False.
Qed.

Lemma lookup_sweep s l rooms Q :
  sweep s l rooms !! Q = if decide (Q ∈ l) then swept s (rooms !! Q) else rooms !! Q.
Proof.
  revert rooms. induction l as [|P l IH]; intros rooms.
  - case_decide as Hin; [|done]. by apply elem_of_nil in Hin.
  - change (sweep s (P :: l) rooms) with (sweep s l (sweep_step s rooms P)).
    rewrite IH, lookup_sweep_step.
    destruct (decide (P = Q)) as [->|Hne].
    + rewrite (decide_True (P:=Q ∈ Q :: l)) by left.
      case_decide; [apply swept_idemp|done].
    + destruct (decide (Q ∈ l)) as [Hl|Hl].
      * by rewrite (decide_True (P:=Q ∈ P :: l)) by by right.
      * rewrite (decide_False (P:=Q ∈ P :: l)); [done|].
        by intros [->|?]%elem_of_cons.
Qed.

Lemma lookup_sweep_keys s (rooms : gmap string (gset string)) Q :
  sweep s (map_to_list rooms).*1 rooms !! Q = swept s (rooms !! Q).
Proof.
  rewrite lookup_sweep. case_decide as Hin; [done|].
  destruct (rooms !! Q) as [ss|] eqn:Hss; [|done].
  destruct Hin. apply list_elem_of_fmap. exists (Q, ss). split; [done|].
  by apply elem_of_map_to_list.
Qed.

Lemma membersOf_singleton_lookup w P s :
  membersOf w P = {[s]} → activePresentations w !! P = Some {[s]}.
Proof.
  unfold membersOf. destruct (activePresentations w !! P) as [ss|]; simpl.
  - by intros ->.
  - intros Heq. assert (s ∈ (∅ : gset string)) by (rewrite Heq; set_solver).
    set_solver.
Qed.

(** ** No empty room *)

(** C6. Removing the last member of a room deletes the room's entry in the
    same operation: in [removeSocketFromPresentation] itself, in a leave and
    in a disconnect whose store call is served; and no state the server
    reaches from its start maps a presentation to the empty set. *)
Theorem last_member_removal_deletes_room :
  (∀ (rooms : gmap string (gset string)) P s,
     members rooms P ∖ {[s]} = ∅ →
     removeSocketFromPresentation P s rooms !! P = None)
  ∧ (∀ w s P uid,
       is_Some (db w) → served w = true → membersOf w P = {[s]} →
       activePresentations (step (LeavePresentation s P uid) w) !! P = None)
  ∧ (∀ w s P uid,
       is_Some (db w) → served w = true →
       socketUsers w !! s = Some uid → truthy uid = true → membersOf w P = {[s]} →
       activePresentations (step (Disconnect s) w) !! P = None)
  ∧ (∀ st fs ids now es P (ss : gset string),
       activePresentations (run es (boot st fs ids now)) !! P = Some ss → ss ≠ ∅).
Proof.
  split; [|split; [|split]].
  - intros rooms P s Hlast. rewrite lookup_removeSocketFromPresentation.
    rewrite decide_True by done. unfold members in Hlast.
    destruct (rooms !! P) as [ss|]; simpl in *; [|done].
    by rewrite decide_True.
  - intros w s P uid Hdb Hs Hm. unfold step. simpl.
    rewrite on_leave_presentation_served by done. unfold world_of. simpl.
    rewrite lookup_removeSocketFromPresentation, decide_True by done.
    rewrite (membersOf_singleton_lookup _ _ _ Hm).
    rewrite decide_True; [done|]. set_solver.
  - intros w s P uid Hdb Hs Hu Ht Hm. unfold step. simpl.
    rewrite (on_disconnect_served s uid) by done. unfold world_of. simpl.
    rewrite lookup_sweep_keys, (membersOf_singleton_lookup _ _ _ Hm). simpl.
    rewrite decide_True by set_solver. rewrite decide_True; [done|]. set_solver.
  - intros st fs ids now es P ss Hss.
    eapply (run_no_empty_room es (boot st fs ids now)); [|done].
    apply no_empty_room_empty.
Qed.

(** A is alone in the room of P and leaves it *)
Lemma last_member_removal_deletes_room_witness :
  activePresentations
    (step (LeavePresentation "A" "P" "u1")
       (run [JoinPresentation "A" "P" "ann" None]
          (boot one_deck [] ["u1"] 0))) !! "P" = None.
Proof.
  apply (proj1 (proj2 last_member_removal_deletes_room)).
  - by eexists.
  - reflexivity.
  - by vm_compute.
Defined.

(** ** One room per connection *)

(** C3 as stated fails: X joins P1 and then P2 without leaving, and sits in
    both rooms. *)
Lemma second_join_breaks_I1 :
  ¬ I1 (run [JoinPresentation "X" "P1" "xe" None; JoinPresentation "X" "P2" "xe" None]
          (boot two_decks [] ["u1"; "u2"] 0)).
Proof.
  intros H. specialize (H "X" "P1" "P2").
  assert ("P1" = "P2") as Heq; [|done].
  apply H; apply (bool_decide_unpack _); by vm_compute.
Qed.

(** C3, amended: along every sequence of join, leave, disconnect (and the
    other events) in which no connection joins a presentation while it is a
    member of another room, each connection is in at most one room after
    every step. *)
Theorem guarded_joins_keep_I1 st fs ids now es :
  guarded_run es (boot st fs ids now) = true →
  ∀ k, I1 (run (take k es) (boot st fs ids now)).
Proof.
  intros Hg k. apply run_one_room; [apply one_room_empty|done].
Qed.

(** X joins P1, leaves it, joins P2, and Y joins P1 meanwhile *)
Lemma guarded_joins_keep_I1_witness :
  I1 (run (take 4 [JoinPresentation "X" "P1" "xe" None;
                   JoinPresentation "Y" "P1" "yo" None;
                   LeavePresentation "X" "P1" "u1";
                   JoinPresentation "X" "P2" "xe" None])
        (boot two_decks [] ["u1"; "u2"; "u3"] 0)).
Proof.
  apply (guarded_joins_keep_I1 two_decks [] ["u1"; "u2"; "u3"] 0). by vm_compute.
Defined.

(** ** Leave and disconnect under a failing store *)

(** C4 as stated fails: the store call of A's leave (and of A's
    disconnect) fails, and A stays in both registry maps and in the room. *)
Lemma store_failure_skips_cleanup :
  (socketUsers (step (LeavePresentation "A" "P" "u1") room_abc_outage) !! "A" = Some "u1"
   ∧ userSockets (step (LeavePresentation "A" "P" "u1") room_abc_outage) !! "u1" = Some "A"
   ∧ "A" ∈ membersOf (step (LeavePresentation "A" "P" "u1") room_abc_outage) "P")
  ∧ (socketUsers (step (Disconnect "A") room_abc_outage) !! "A" = Some "u1"
     ∧ userSockets (step (Disconnect "A") room_abc_outage) !! "u1" = Some "A"
     ∧ "A" ∈ membersOf (step (Disconnect "A") room_abc_outage) "P").
Proof. apply (bool_decide_unpack _). by vm_compute. Qed.

(** C4, amended: when the store call of a leave or of a disconnect fails,
    the error is logged and that is all: the handler returns normally, the
    three tracking maps are as before (the connection is still bound and
    still in its room), and nothing is sent to anyone. *)
Theorem store_failure_leaves_tracking_untouched w e fs :
  is_Some (db w) → faults w = Some e :: fs →
  (∀ s P uid,
     same_maps w (world_of (on_leave_presentation s P uid w))
     ∧ completion_of (on_leave_presentation s P uid w) = Normal ()
     ∧ effects_of (on_leave_presentation s P uid w)
       = [StoreErr update_users e;
          ConsoleError "Error leaving presentation:"
            ("Failed to remove user from presentation: " +:+ message e)])
  ∧ (∀ s uid,
       socketUsers w !! s = Some uid → truthy uid = true →
       same_maps w (world_of (on_disconnect s w))
       ∧ completion_of (on_disconnect s w) = Normal ()
       ∧ effects_of (on_disconnect s w)
         = [ConsoleLog ("User disconnected: " +:+ s); StoreErr update_users e;
            ConsoleError "Error handling disconnect:"
              ("Failed to remove user by socket ID: " +:+ message e)]).
Proof.
  intros Hdb Hf. split.
  - intros s P uid. by rewrite (on_leave_presentation_fault s P uid w e fs).
  - intros s uid Hu Ht. by rewrite (on_disconnect_fault s uid w e fs).
Qed.

(** the leave of A from the room of A, B and C during the outage *)
Lemma store_failure_leaves_tracking_untouched_witness :
  same_maps room_abc_outage
    (world_of (on_leave_presentation "A" "P" "u1" room_abc_outage))
  ∧ completion_of (on_leave_presentation "A" "P" "u1" room_abc_outage) = Normal ()
  ∧ effects_of (on_leave_presentation "A" "P" "u1" room_abc_outage)
    = [StoreErr update_users outage;
       ConsoleError "Error leaving presentation:"
         ("Failed to remove user from presentation: " +:+ message outage)].
Proof.
  apply (proj1 (store_failure_leaves_tracking_untouched room_abc_outage outage []
                  ltac:(by eexists) ltac:(reflexivity))).
Defined.

(** ** Session rows are never deleted *)

Lemma only_deactivated_refl u : only_deactivated u u.
Proof. by repeat split. Qed.

Lemma only_deactivated_trans u1 u2 u3 :
  only_deactivated u1 u2 → only_deactivated u2 u3 → only_deactivated u1 u3.
Proof.
  intros (?&?&?&?&?&?&?&?) (?&?&?&?&?&?&?&?).
  repeat split; try congruence. auto.
Qed.

#[local] Instance store_keeps_sessions_refl : Reflexive store_keeps_sessions.
Proof.
  intros w. exists (presentation_users (store w)), []. split.
  - by rewrite app_nil_r.
  - apply Forall2_same_length_lookup_2; [done|].
    intros i u u' Hu Hu'. simplify_eq. apply only_deactivated_refl.
Qed.

#[local] Instance store_keeps_sessions_trans : Transitive store_keeps_sessions.
Proof.
  intros w1 w2 w3 (k1 & e1 & Heq1 & H1) (k2 & e2 & Heq2 & H2).
  unfold store_keeps_sessions, sessions_kept. rewrite Heq2. rewrite Heq1 in H2.
  apply Forall2_app_inv_l in H2 as (k2a & k2b & Ha & Hb & ->).
  exists k2a, (k2b ++ e2). split; [by rewrite <- app_assoc|].
  clear -H1 Ha. revert k2a Ha.
  induction H1 as [|u u' us us' Hu Hus IH]; intros k2a Ha.
  - inversion Ha. constructor.
  - inversion Ha as [|? u'' ? k Hu' Hk]; subst. constructor.
    + by eapply only_deactivated_trans.
    + by apply IH.
Qed.

Lemma deactivate_keeps_sessions sel st :
  sessions_kept (presentation_users st)
    (presentation_users (q_deactivate_users sel st)).
Proof.
  unfold q_deactivate_users. simpl.
  exists (map (λ u, if sel u then PresentationUser.set_is_active false u else u)
            (presentation_users st)), [].
  split; [by rewrite app_nil_r|].
  induction (presentation_users st) as [|u us IH]; simpl; [constructor|].
  constructor; [|done].
  destruct (sel u); [|apply only_deactivated_refl].
  by repeat split.
Qed.

Lemma insert_user_keeps_sessions now id P n r s st a st' :
  q_insert_user now id P n r s st = (Data a, st') →
  sessions_kept (presentation_users st) (presentation_users st').
Proof.
  unfold q_insert_user. intros Hq.
  repeat case_match; simplify_eq. simpl.
  eexists (presentation_users st), [_]. split; [done|].
  apply Forall2_same_length_lookup_2; [done|].
  intros i u u' Hu Hu'. simplify_eq. apply only_deactivated_refl.
Qed.

#[local] Instance users_appended_refl : Reflexive users_appended.
Proof. intros w. exists []. by rewrite app_nil_r. Qed.

#[local] Instance users_appended_trans : Transitive users_appended.
Proof.
  intros w1 w2 w3 [e1 H1] [e2 H2]. exists (e1 ++ e2).
  by rewrite H2, H1, app_assoc.
Qed.

Ltac same_store :=
  match goal with
  | |- store_keeps_sessions ?w _ => exact (store_keeps_sessions_refl w)
  | |- users_appended ?w _ => exact (users_appended_refl w)
  end.

Ltac store_relation :=
  skeleton;
  first
    [ apply preserves_uuidv4; intros; same_store
    | apply preserves_modify; intros; same_store
    | apply preserves_query; [intros; same_store|] ].

Lemma core_step_keeps_sessions e :
  core e = true → preserves store_keeps_sessions (handle e).
Proof.
  destruct e as [s P n r|s P uid|s a|s| |ms]; intros Hc; try done; simpl.
  - unfold on_join_presentation, getPresentationById, addUserToPresentation,
      getPresentationUsers.
    store_relation; intros w a' st' Hq; simplify_eq; try same_store.
    by eapply insert_user_keeps_sessions.
  - unfold on_leave_presentation, removeUserFromPresentation.
    store_relation; intros w a' st' Hq; simplify_eq.
    apply deactivate_keeps_sessions.
  - unfold on_disconnect, removeUserBySocketId, leave_room_on_disconnect.
    store_relation; intros w a' st' Hq; simplify_eq.
    apply deactivate_keeps_sessions.
  - unfold reaper_tick, cleanupInactiveUsers, toISOString.
    store_relation; intros w a' st' Hq; simplify_eq.
    apply deactivate_keeps_sessions.
  - apply preserves_modify. intros w. same_store.
Qed.

(** C9. Along every sequence of joins, leaves, disconnects and reaper
    sweeps, every session row of the store stays where it is, with its id,
    presentation, nickname, role, socket id, joining time and last-seen time
    as they were; its active flag can only have gone from true to false.
    (None of the three updates writes [last_seen].) *)
Theorem core_never_deletes_sessions es w :
  forallb core es = true →
  sessions_kept (presentation_users (store w)) (presentation_users (store (run es w))).
Proof.
  revert w. induction es as [|e es IH]; intros w Hc.
  - apply (reflexivity (R:=store_keeps_sessions)).
  - simpl in *. apply andb_prop in Hc as [He Hes].
    apply (transitivity (R:=store_keeps_sessions) (y:=step e w)).
    + by apply core_step_keeps_sessions.
    + by apply IH.
Qed.

(** A, B and C are in the room; A leaves, B drops, an hour passes and the
    reaper runs: three rows before, the same three rows after *)
Lemma core_never_deletes_sessions_witness :
  sessions_kept (presentation_users (store room_abc))
    (presentation_users
       (store (run [LeavePresentation "A" "P" "u1"; Disconnect "B";
                    Elapse 3600000; ReaperTick] room_abc))).
Proof. apply core_never_deletes_sessions. reflexivity. Defined.

(** ** A second connection of the same participant *)

(** C2 as stated fails: X joins P as ann, then Y joins P as ann while X is
    still connected; X keeps its binding, its place in the room and its
    active session, next to Y. *)
Lemma reconnect_keeps_stale_connection :
  ¬ sole_binding
      (run [JoinPresentation "X" "P" "ann" None; JoinPresentation "Y" "P" "ann" None]
         (boot one_deck [] ["u1"; "u2"] 0))
      "P" "ann" "Y".
Proof.
  intros H.
  assert ("X" = "Y") as Heq; [|done].
  apply (H "X" (PresentationUser.mk "u1" "P" "ann" viewer (Some "X") true
                  (Some 0%Z) (Some 0%Z))); try done;
    apply (bool_decide_unpack _); by vm_compute.
Qed.

Lemma on_join_presentation_appends s P n r :
  preserves users_appended (on_join_presentation s P n r).
Proof.
  unfold on_join_presentation, getPresentationById, addUserToPresentation,
    getPresentationUsers.
  store_relation; intros w a' st' Hq; simplify_eq; try same_store.
  unfold q_insert_user in Hq. repeat case_match; simplify_eq.
  by eexists [_].
Qed.

Lemma in_no_room s (w : World) :
  map_Forall (λ _ (ss : gset string), s ∉ ss) (activePresentations w) →
  ∀ Q, s ∉ membersOf w Q.
Proof.
  intros Hall Q. unfold membersOf.
  destruct (activePresentations w !! Q) as [ss|] eqn:HQ; simpl; [|set_solver].
  by apply (Hall Q ss).
Qed.

(** C2, amended: a join under a fresh connection handle does nothing to any
    other connection. Whatever the store answers, every other connection
    keeps its registry binding and its membership of every room, and no
    session row is changed: rows are only added behind the existing ones.
    (So a participant who joins again while the earlier connection is open
    is present twice, until the earlier connection leaves or drops.)
    Invariant I1 holds throughout: the handle being fresh, that is in no
    room, I1 after the join follows from I1 before it. *)
Theorem join_leaves_other_connections w X Y P n r :
  X ≠ Y →
  socketUsers (step (JoinPresentation Y P n r) w) !! X = socketUsers w !! X
  ∧ (∀ Q, X ∈ membersOf (step (JoinPresentation Y P n r) w) Q ↔ X ∈ membersOf w Q)
  ∧ (∃ extra,
      presentation_users (store (step (JoinPresentation Y P n r) w))
      = presentation_users (store w) ++ extra)
  ∧ ((∀ Q, Y ∉ membersOf w Q) → I1 w → I1 (step (JoinPresentation Y P n r) w)).
Proof.
  intros Hne. unfold step. simpl. split; [|split; [|split]].
  - destruct (on_join_presentation_tracking Y P n r w)
      as [(_ & _ & -> & _)|(uid & _ & _ & -> & _)]; [done|].
    by rewrite lookup_insert_ne.
  - intros Q. unfold membersOf.
    destruct (on_join_presentation_tracking Y P n r w)
      as [(-> & _)|(uid & -> & _)]; [done|].
    fold (members (addSocketToPresentation P Y (activePresentations w)) Q).
    rewrite members_addSocketToPresentation. unfold members.
    case_decide; subst; set_solver.
  - apply on_join_presentation_appends.
  - intros Hfresh H1. unfold I1 in *.
    destruct (on_join_presentation_tracking Y P n r w)
      as [(-> & _)|(uid & -> & _)]; [done|].
    apply one_room_add; [|done].
    intros Q HQ. by destruct (Hfresh Q).
Qed.

(** X is in the room of P as ann; Y joins as ann *)
Lemma join_leaves_other_connections_witness :
  I1 (step (JoinPresentation "Y" "P" "ann" None)
        (run [JoinPresentation "X" "P" "ann" None] (boot one_deck [] ["u1"; "u2"] 0))).
Proof.
  refine (proj2 (proj2 (proj2
            (join_leaves_other_connections
               (run [JoinPresentation "X" "P" "ann" None] (boot one_deck [] ["u1"; "u2"] 0))
               "X" "Y" "P" "ann" None _))) _ _).
  - done.
  - apply in_no_room. apply (bool_decide_unpack _). by vm_compute.
  - apply (run_one_room [JoinPresentation "X" "P" "ann" None]
             (boot one_deck [] ["u1"; "u2"] 0) one_room_empty eq_refl 1).
Defined.

(** ** The reaper *)

Lemma last_seen_lt_stale m w u :
  last_seen_lt (clock w - m * 60 * 1000) u = true ↔ stale m w u.
Proof.
  unfold last_seen_lt, stale.
  destruct (PresentationUser.last_seen u) as [t|].
  - rewrite bool_decide_eq_true. split.
    + intros Hlt. by exists t.
    + by intros (t' & [= <-] & Hlt).
  - split; [done|]. by intros (t' & ? & _).
Qed.

Lemma cleanupInactiveUsers_served m w :
  served w = true → date_in_range (clock w - m * 60 * 1000) →
  cleanupInactiveUsers m w
  = (Normal (),
     set_store
       (λ _, q_deactivate_users
               (λ u, last_seen_lt (clock w - m * 60 * 1000) u
                     && PresentationUser.is_active u) (store w))
       (set_faults (drop 1) w),
     [StoreOk update_users]).
Proof.
  intros Hs Hr. unfold cleanupInactiveUsers, toISOString, date_now.
  rewrite gets_bind_run, bool_decide_eq_true_2 by done.
  rewrite !bind_run. unfold mret at 1, M_ret at 1. rewrite bind_run.
  erewrite query_served; [|done|done]. done.
Qed.

Lemma cleanupInactiveUsers_marks m w :
  served w = true → date_in_range (clock w - m * 60 * 1000) →
  marks_exactly_stale m w (world_of (cleanupInactiveUsers m w)).
Proof.
  intros Hs Hr. rewrite cleanupInactiveUsers_served by done.
  unfold marks_exactly_stale, world_of. simpl. split; [by rewrite length_map|].
  intros i u Hu.
  change (map ?f ?l) with (f <$> l). rewrite list_lookup_fmap, Hu. simpl.
  split.
  - intros Ha Hst. apply last_seen_lt_stale in Hst. by rewrite Hst, Ha.
  - intros Hno.
    destruct (last_seen_lt (clock w - m * 60 * 1000) u) eqn:Hlt; simpl; [|done].
    destruct (PresentationUser.is_active u) eqn:Ha; [|done].
    destruct Hno. split; [done|]. by apply last_seen_lt_stale.
Qed.

(** C7. A sweep that the store serves makes inactive exactly the session
    rows that are active and were last seen before the threshold, and
    leaves every other row as it is; so does the reaper timer with its 30
    minutes: an active row last seen 31 minutes ago becomes inactive, a row
    last seen 29 minutes ago is unchanged. And whatever the store answers,
    no row goes from inactive to active in a sweep. *)
Theorem reaper_marks_exactly_stale_sessions :
  (∀ m w,
     served w = true → date_in_range (clock w - m * 60 * 1000) →
     marks_exactly_stale m w (world_of (cleanupInactiveUsers m w)))
  ∧ (∀ w,
       is_Some (db w) → served w = true →
       date_in_range (clock w - 30 * 60 * 1000) →
       marks_exactly_stale 30 w (step ReaperTick w)
       ∧ ∀ i u,
           presentation_users (store w) !! i = Some u →
           (PresentationUser.is_active u = true →
            PresentationUser.last_seen u = Some (clock w - 31 * 60 * 1000)%Z →
            presentation_users (store (step ReaperTick w)) !! i
            = Some (PresentationUser.set_is_active false u))
           ∧ (PresentationUser.last_seen u = Some (clock w - 29 * 60 * 1000)%Z →
              presentation_users (store (step ReaperTick w)) !! i = Some u))
  ∧ (∀ w i u u',
       presentation_users (store w) !! i = Some u →
       presentation_users (store (step ReaperTick w)) !! i = Some u' →
       PresentationUser.is_active u' = true → PresentationUser.is_active u = true).
Proof.
  split; [|split].
  - apply cleanupInactiveUsers_marks.
  - intros w [d Hd] Hs Hr.
    assert (step ReaperTick w = world_of (cleanupInactiveUsers 30 w)) as ->.
    { unfold step. simpl. unfold reaper_tick.
      rewrite gets_bind_run, Hd. by rewrite try_catch_world. }
    pose proof (cleanupInactiveUsers_marks 30 w Hs Hr) as [Hlen Hrows].
    split; [done|]. intros i u Hu. destruct (Hrows i u Hu) as [Hyes Hno]. split.
    + intros Ha Hl. apply Hyes; [done|].
      eexists. split; [done|]. lia.
    + intros Hl. apply Hno. intros [_ (t & Ht & Hlt)]. rewrite Hl in Ht.
      simplify_eq. lia.
  - intros w i u u' Hu Hu' Ha.
    destruct (core_step_keeps_sessions ReaperTick eq_refl w)
      as (kept & extra & Heq & Hkept).
    fold (step ReaperTick w) in Heq. rewrite Heq in Hu'.
    destruct (Forall2_lookup_l _ _ _ _ _ Hkept Hu) as (u'' & Hu'' & Hrel).
    rewrite (lookup_app_l_Some _ _ _ _ Hu'') in Hu'. simplify_eq.
    by apply Hrel.
Qed.

(** the clock reads 40 minutes; ann was last seen at minute 9, 31 minutes ago *)
Lemma reaper_marks_exactly_stale_sessions_witness :
  presentation_users
    (store (step ReaperTick
              (boot {| presentations := [Presentation.mk "P" "Deck" 0 false None None];
                       slides := []; text_blocks := [];
                       presentation_users := [ann_at 540000] |}
                    [] [] 2400000))) !! 0%nat
  = Some (PresentationUser.set_is_active false (ann_at 540000)).
Proof.
  refine (proj1 (proj2 (proj1 (proj2 reaper_marks_exactly_stale_sessions)
    (boot {| presentations := [Presentation.mk "P" "Deck" 0 false None None];
             slides := []; text_blocks := []; presentation_users := [ann_at 540000] |}
          [] [] 2400000) _ _ _) 0%nat (ann_at 540000) _) _ _);
    [by eexists | reflexivity | by vm_compute | reflexivity | reflexivity | reflexivity].
Defined.

(** ** Store before broadcast *)

Lemma quiet_write_before_broadcast req t : quiet t → write_before_broadcast req t.
Proof.
  intros Hq i e Hi He. unfold quiet in Hq. rewrite Forall_lookup in Hq.
  specialize (Hq i e Hi). congruence.
Qed.

Lemma write_then_anything req t1 t2 :
  quiet t1 → StoreOk req ∈ t1 → write_before_broadcast req (t1 ++ t2).
Proof.
  intros Hq Hin i e Hi He.
  apply list_elem_of_lookup in Hin as [j Hj]. exists j.
  pose proof (lookup_lt_Some _ _ _ Hj) as Hlt.
  split; [|by apply lookup_app_l_Some].
  destruct (decide (i < length t1)) as [Hi1|Hi1]; [|lia].
  rewrite lookup_app_l in Hi by done.
  unfold quiet in Hq. rewrite Forall_lookup in Hq.
  specialize (Hq i e Hi). congruence.
Qed.

Lemma throwing_query_makes_request {A B} req (q : Store → Response A * Store)
    (k : Response A → M B) :
  (∀ e w, ∃ x, k (Err e) w = (Throw x, w, [])) →
  (∀ a w, ∃ b, k (Data a) w = (Normal b, w, [])) →
  makes_request req (query req q ≫= k).
Proof.
  intros Herr Hdata w. rewrite bind_run.
  destruct (query_cases req q w) as [(e & -> & _)|(a & st & _ & _ & ->)].
  - destruct (Herr e (set_faults (drop 1) w)) as [x ->].
    unfold effects_of, completion_of. simpl. split; [|done].
    by repeat constructor.
  - destruct (Hdata a (set_store (λ _, st) (set_faults (drop 1) w))) as [b ->].
    unfold effects_of, completion_of. simpl. split; [by repeat constructor|].
    intros _ _. set_solver.
Qed.

Lemma silent_bind_makes_request {A B} req (m : M A) (k : A → M B) :
  (∀ w, ∃ a w1, m w = (Normal a, w1, [])) →
  (∀ a, makes_request req (k a)) →
  makes_request req (m ≫= k).
Proof.
  intros Hm Hk w. rewrite bind_run. destruct (Hm w) as (a & w1 & ->).
  specialize (Hk a w1). unfold effects_of, completion_of in *.
  by destruct (k a w1) as [[r w2] t2].
Qed.

Ltac request_method :=
  repeat first
    [ apply silent_bind_makes_request; [intros ?; by eexists _, _ | intros ?]
    | apply throwing_query_makes_request; intros; by eexists ].

Lemma guarded_write_then {A} req s (m : M A) (k : A → M ()) log failure w :
  makes_request req m →
  write_before_broadcast req (effects_of (guarded s (m ≫= k) log failure w)).
Proof.
  intros Hm. unfold guarded, try_catch. rewrite gets_bind_run.
  destruct (db w) as [d|].
  - rewrite bind_run. destruct (Hm w) as [Hq Hok].
    unfold effects_of, completion_of in *.
    destruct (m w) as [[[a|e] w1] t1]; simpl in *.
    + specialize (Hok a eq_refl).
      destruct (k a w1) as [[[[]|e] w2] t2]; simpl.
      * by apply write_then_anything.
      * rewrite <- app_assoc. by apply write_then_anything.
    + apply quiet_write_before_broadcast. apply Forall_app. split; [done|].
      by repeat constructor.
  - apply quiet_write_before_broadcast. by repeat constructor.
Qed.

(** C8. In the trace of every collaborative action, each event sent to the
    room comes after the return, with its data, of the request that writes
    the action to the store; when that request fails nothing is broadcast. *)
Theorem store_write_precedes_broadcast s a w :
  is_mutation (write_of a) = true
  ∧ write_before_broadcast (write_of a) (effects_of (on_action s a w))
  ∧ (StoreOk (write_of a) ∉ effects_of (on_action s a w) →
     quiet (effects_of (on_action s a w))).
Proof.
  assert (write_before_broadcast (write_of a) (effects_of (on_action s a w))) as Hord.
  { destruct a; simpl;
      unfold on_add_slide, on_remove_slide, on_update_slide_index,
        on_update_current_slide, on_add_text_block, on_update_text_block,
        on_remove_text_block, on_update_user_role, on_enter_present_mode,
        on_exit_present_mode;
      apply guarded_write_then;
      unfold addSlide, removeSlide, updateSlideIndex, updatePresentation,
        addTextBlock, updateTextBlock, removeTextBlock, updateUserRole;
      request_method. }
  split; [by destruct a|]. split; [done|].
  intros Hno. apply Forall_lookup. intros i e Hi.
  destruct (is_broadcast e) eqn:He; [|done].
  destruct (Hord i e Hi He) as (j & _ & Hj).
  destruct Hno. by eapply list_elem_of_lookup_2.
Qed.

(** ** Disconnect *)

Lemma elem_of_sweep_effects s uid l (rooms : gmap string (gset string)) Q :
  SocketToEmit s Q "user-left" (PUserId uid) ∈ sweep_effects s uid l rooms
  ↔ Q ∈ l ∧ s ∈ members rooms Q.
Proof.
  revert rooms. induction l as [|P l IH]; intros rooms; simpl.
  - split; [by intros ?%elem_of_nil|]. by intros [?%elem_of_nil _].
  - rewrite elem_of_app, IH, members_sweep_step, elem_of_cons. split.
    + intros [Hhead|[Hl Hin]].
      * case_bool_decide; [|by apply elem_of_nil in Hhead].
        apply list_elem_of_singleton in Hhead. simplify_eq. by split; [left|].
      * case_decide; [set_solver|]. by split; [right|].
    + intros [[->|Hl] Hin].
      * left. rewrite bool_decide_eq_true_2 by done. by apply list_elem_of_singleton.
      * destruct (decide (P = Q)) as [->|Hne].
        -- left. rewrite bool_decide_eq_true_2 by done.
           by apply list_elem_of_singleton.
        -- right. by split.
Qed.

(** What the disconnect handler does achieve, for a bound socket and a
    served store call: the socket is gone from [socketUsers] and from every
    room, the session it was last bound to is gone from [userSockets], and
    [user-left] with that session goes to exactly the rooms it was in. *)
Lemma on_disconnect_clears_socket s uid w :
  is_Some (db w) → served w = true →
  socketUsers w !! s = Some uid → truthy uid = true →
  socketUsers (step (Disconnect s) w) !! s = None
  ∧ userSockets (step (Disconnect s) w) !! uid = None
  ∧ (∀ Q, s ∉ membersOf (step (Disconnect s) w) Q)
  ∧ (∀ Q, SocketToEmit s Q "user-left" (PUserId uid) ∈ effects_of (on_disconnect s w)
          ↔ s ∈ membersOf w Q).
Proof.
  intros Hdb Hs Hu Ht. unfold step. simpl.
  rewrite (on_disconnect_served s uid) by done.
  unfold world_of, effects_of, membersOf. simpl.
  split; [apply lookup_delete_eq|]. split; [apply lookup_delete_eq|]. split.
  - intros Q.
    fold (members (sweep s (map_to_list (activePresentations w)).*1
                     (activePresentations w)) Q).
    rewrite members_sweep_keys. set_solver.
  - intros Q. rewrite !elem_of_cons, elem_of_sweep_effects.
    fold (members (activePresentations w) Q). split.
    + intros [?|[?|[_ ?]]]; done.
    + intros Hin. right; right. split; [|done].
      unfold members in Hin.
      destruct (activePresentations w !! Q) as [ss|] eqn:Hss; [|set_solver].
      apply list_elem_of_fmap. exists (Q, ss). split; [done|].
      by apply elem_of_map_to_list.
Qed.

(** C10 fails on a socket that joined twice: X joins P1 (session u1) and P2
    (session u2) and then drops. The handler, with the store serving it,
    clears [socketUsers] and both rooms, and deletes from [userSockets] the
    entry of u2 only: u1 stays mapped to the closed connection X. *)
Theorem disconnect_leaves_stale_userSockets_entry :
  let w := run [JoinPresentation "X" "P1" "xe" None; JoinPresentation "X" "P2" "xe" None]
             (boot two_decks [] ["u1"; "u2"] 0) in
  socketUsers w !! "X" = Some "u2"
  ∧ served w = true
  ∧ socketUsers (step (Disconnect "X") w) !! "X" = None
  ∧ activePresentations (step (Disconnect "X") w) = ∅
  ∧ userSockets (step (Disconnect "X") w) !! "u2" = None
  ∧ userSockets (step (Disconnect "X") w) !! "u1" = Some "X".
Proof. cbv zeta. apply (bool_decide_unpack _). by vm_compute. Qed.

(** ** Broadcast, and who is left out *)




Section offstage.













End offstage.

















Section adapter.
Implicit Types (rooms : gmap string (gset string)) (P Q s : string).




End adapter.

Lemma membersOf_members w P : membersOf w P = members (activePresentations w) P.
Proof. done. Qed.










(** in the room of A, B and C, the leave of A and the disconnect of A are
    sent to B and C *)
Example user_left_skips_the_sender :
  socket_to_deliveries
    (adapter_before (LeavePresentation "A" "P" "u1")
       (adapter_run (JoinPresentation "A" "P" "ann" None :: room_bc_events) deck_start ∅))
    (effects_of (handle (LeavePresentation "A" "P" "u1") room_abc))
  = [("A", "P", {["B"; "C"]})]
  ∧ socket_to_deliveries
      (adapter_before (Disconnect "A")
         (adapter_run (JoinPresentation "A" "P" "ann" None :: room_bc_events)
            deck_start ∅))
      (effects_of (handle (Disconnect "A") room_abc))
    = [("A", "P", {["B"; "C"]})].
Proof. apply (bool_decide_unpack _). by vm_compute. Qed.

(** * Further properties *)

(** ** Sorting *)

Section stable_sort.
Context {A : Type} (le : A → A → bool).
Hypothesis le_total : ∀ a b, le a b = true ∨ le b a = true.
Hypothesis le_trans : ∀ a b c, le a b = true → le b c = true → le a c = true.

Lemma sort_insert_perm a l : sort_insert le a l ≡ₚ a :: l.
Proof.
  induction l as [|b l IH]; simpl; [done|].
  destruct (le a b); [done|]. rewrite IH. apply Permutation_swap.
Qed.

Lemma stable_sort_perm l : stable_sort le l ≡ₚ l.
Proof.
  induction l as [|a l IH]; simpl; [done|].
  unfold stable_sort in *. simpl. rewrite sort_insert_perm. by rewrite IH.
Qed.

Lemma sort_insert_sorted a l : sorted_by le l → sorted_by le (sort_insert le a l).
Proof.
  unfold sorted_by. induction 1 as [|b l Hl IH Hb]; simpl.
  - repeat constructor.
  - destruct (le a b) eqn:Hab.
    + constructor; [by constructor|]. constructor; [done|].
      eapply Forall_impl; [exact Hb|]. intros c Hc. simpl in Hc. by eapply le_trans.
    + constructor; [done|].
      rewrite sort_insert_perm. constructor; [|done].
      by destruct (le_total a b) as [?|?]; [congruence|].
Qed.

Lemma stable_sort_sorted l : sorted_by le (stable_sort le l).
Proof.
  induction l as [|a l IH]; simpl; [constructor|].
  by apply sort_insert_sorted.
Qed.

(** elements that the order does not tell apart keep the order they had *)
Lemma sort_insert_stable (P : A → Prop) `{!∀ a, Decision (P a)} a l :
  (∀ b, P a → P b → le a b = true) →
  filter P (sort_insert le a l) = filter P (a :: l).
Proof.
  intros Heq. induction l as [|b l IH]; simpl; [done|].
  destruct (le a b) eqn:Hab; [done|].
  rewrite (filter_cons _ b), IH, !filter_cons.
  destruct (decide (P a)) as [Pa|Pa]; [|done].
  destruct (decide (P b)) as [Pb|Pb]; [|done].
  specialize (Heq b Pa Pb). congruence.
Qed.

Lemma stable_sort_stable (P : A → Prop) `{!∀ a, Decision (P a)} l :
  (∀ a b, P a → P b → le a b = true) →
  filter P (stable_sort le l) = filter P l.
Proof.
  intros Heq. induction l as [|a l IH]; [done|].
  change (stable_sort le (a :: l)) with (sort_insert le a (stable_sort le l)).
  rewrite sort_insert_stable by (intros b; apply Heq).
  by rewrite !filter_cons, IH.
Qed.

End stable_sort.

(** ** What the reading methods return *)

Lemma slide_order_le_total a b : slide_order_le a b = true ∨ slide_order_le b a = true.
Proof. unfold slide_order_le. rewrite !bool_decide_eq_true. lia. Qed.

Lemma slide_order_le_trans a b c :
  slide_order_le a b = true → slide_order_le b c = true → slide_order_le a c = true.
Proof. unfold slide_order_le. rewrite !bool_decide_eq_true. lia. Qed.

Lemma created_le_total a b : created_le a b = true ∨ created_le b a = true.
Proof. unfold created_le. rewrite !bool_decide_eq_true. lia. Qed.

Lemma created_le_trans a b c :
  created_le a b = true → created_le b c = true → created_le a c = true.
Proof. unfold created_le. rewrite !bool_decide_eq_true. lia. Qed.

Lemma sorted_by_fmap {A B} (f : A → B) (le : A → A → bool) (le' : B → B → bool) l :
  (∀ a b, le a b = true → le' (f a) (f b) = true) →
  sorted_by le l → sorted_by le' (f <$> l).
Proof.
  intros Hf. unfold sorted_by. induction 1 as [|a l Hl IH Ha]; csimpl; constructor.
  - done.
  - apply Forall_fmap. eapply Forall_impl; [exact Ha|]. intros b Hb. by apply Hf.
Qed.

Lemma getPresentationById_data id w p :
  completion_of (getPresentationById id w) = Normal (Some p) →
  ∃ row, q_select_presentation id (store w) = Data row ∧ p = sort_presentation row.
Proof.
  unfold getPresentationById. rewrite bind_run.
  destruct (query_cases {| verb := Select; table := "presentations" |}
              (λ st, (q_select_presentation id st, st)) w)
    as [(e & -> & _)|(a & st & _ & Hq & ->)].
  - unfold completion_of. simpl. case_bool_decide; simpl; done.
  - unfold completion_of. simpl. intros [= <-]. exists a. by simplify_eq.
Qed.

Lemma getPresentationById_store id w :
  store (world_of (getPresentationById id w)) = store w.
Proof.
  unfold getPresentationById. rewrite bind_run.
  destruct (query_cases {| verb := Select; table := "presentations" |}
              (λ st, (q_select_presentation id st, st)) w)
    as [(e & -> & _)|(a & st & _ & Hq & ->)].
  - unfold world_of. simpl. case_bool_decide; simpl; done.
  - unfold world_of. simpl. by simplify_eq.
Qed.

(** X1. When [getPresentationById] returns a presentation, it is the one
    asked for and the tables are as they were; the slides of the answer are
    the stored slides of that presentation, each once, in ascending
    [slide_order]; the text blocks nested in each slide are the stored blocks of
    that slide, each once, in ascending [created_at]. *)
Theorem getPresentationById_sorted id w p :
  completion_of (getPresentationById id w) = Normal (Some p) →
  Presentation.id p = id
  ∧ store (world_of (getPresentationById id w)) = store w
  ∧ ∃ sl,
      Presentation.slides p = Some sl
      ∧ sorted_by slide_order_le sl
      ∧ slide_row <$> sl
        ≡ₚ slide_row <$> filter (λ s, Slide.presentation_id s = id) (slides (store w))
      ∧ ∀ s, s ∈ sl →
          ∃ bs, Slide.text_blocks s = Some bs
                ∧ sorted_by created_le bs
                ∧ bs ≡ₚ filter (λ b, TextBlock.slide_id b = Slide.id s)
                          (text_blocks (store w)).
Proof.
  intros Hp. destruct (getPresentationById_data id w p Hp) as (row & Hrow & ->).
  unfold q_select_presentation in Hrow.
  destruct (filter (λ p, Presentation.id p = id) (presentations (store w)))
    as [|prow [|? ?]] eqn:Hf; simplify_eq/=.
  assert (Presentation.id prow = id) as Hid.
  { assert (prow ∈ filter (λ p, Presentation.id p = id) (presentations (store w)))
      as Hin by (rewrite Hf; left).
    by apply list_elem_of_filter in Hin as [? _]. }
  split; [done|]. split; [apply getPresentationById_store|].
  eexists. split; [done|]. rewrite Hid. split; [|split].
  - eapply (sorted_by_fmap _ slide_order_le); [done|].
    apply stable_sort_sorted;
      [apply slide_order_le_total | apply slide_order_le_trans].
  - rewrite <- !list_fmap_compose.
    rewrite (stable_sort_perm slide_order_le). rewrite <- list_fmap_compose. done.
  - intros s. change (map ?f ?l) with (f <$> l).
    intros (s1 & -> & Hs1)%list_elem_of_fmap. simpl.
    rewrite (stable_sort_perm slide_order_le) in Hs1.
    apply list_elem_of_fmap in Hs1 as (s0 & -> & Hs0). simpl.
    eexists. split; [done|]. split.
    + apply stable_sort_sorted; [apply created_le_total | apply created_le_trans].
    + apply stable_sort_perm.
Qed.

Lemma getPresentationById_sorted_witness :
  store (world_of (getPresentationById "P" slide_deck)) = store slide_deck.
Proof.
  refine (proj1 (proj2 (getPresentationById_sorted "P" slide_deck _ _))).
  vm_compute. reflexivity.
Defined.

Lemma calm_served n w : calm (S n) w → served w = true.
Proof.
  unfold calm, served. destruct (faults w) as [|[e|] fs]; try done.
  by intros [? _]%Forall_cons.
Qed.

Lemma calm_next n w w' :
  faults w' = drop 1 (faults w) → calm (S n) w → calm n w'.
Proof.
  unfold calm. intros ->. destruct (faults w) as [|f fs]; simpl.
  - by rewrite take_nil.
  - rewrite drop_0. by intros [_ ?]%Forall_cons.
Qed.

Lemma nulls_last_le_total a b : nulls_last_le a b = true ∨ nulls_last_le b a = true.
Proof.
  destruct a, b; simpl; auto. rewrite !bool_decide_eq_true. lia.
Qed.

Lemma nulls_last_le_trans a b c :
  nulls_last_le a b = true → nulls_last_le b c = true → nulls_last_le a c = true.
Proof.
  destruct a, b, c; simpl; try done. rewrite !bool_decide_eq_true. lia.
Qed.

Lemma getPresentationById_served id w row :
  served w = true → q_select_presentation id (store w) = Data row →
  getPresentationById id w
  = (Normal (Some (sort_presentation row)),
     set_store (λ _, store w) (set_faults (drop 1) w), [StoreOk select_presentations]).
Proof.
  intros Hs Hq. unfold getPresentationById. rewrite bind_run.
  erewrite query_served; [|done|by rewrite Hq]. done.
Qed.

Lemma getPresentationUsers_served P w :
  served w = true →
  getPresentationUsers P w
  = (Normal (q_select_active_users P (store w)),
     set_store (λ _, store w) (set_faults (drop 1) w), [StoreOk select_users]).
Proof.
  intros Hs. unfold getPresentationUsers. rewrite bind_run.
  erewrite query_served; [|done|done]. done.
Qed.

Lemma getPresentationUsers_fault P w e fs :
  faults w = Some e :: fs →
  getPresentationUsers P w
  = (Throw (JsError ("Failed to fetch presentation users: " +:+ message e)),
     set_faults (drop 1) w, [StoreErr select_users e]).
Proof.
  intros Hf. unfold getPresentationUsers. rewrite bind_run.
  erewrite query_fault; [|done]. done.
Qed.

Lemma addUserToPresentation_served P n r s w :
  served w = true → has_presentation (store w) P = true →
  fresh_user_id (next_uuid w) (store w) →
  addUserToPresentation P n r (Some s) w
  = (Normal (PresentationUser.mk (next_uuid w) P n r (Some s) true
               (Some (clock w)) (Some (clock w))),
     set_store
       (λ _, set_presentation_users
               (λ us, us ++ [PresentationUser.mk (next_uuid w) P n r (Some s) true
                               (Some (clock w)) (Some (clock w))]) (store w))
       (set_faults (drop 1) (set_uuids (drop 1) w)),
     [StoreOk insert_users]).
Proof.
  intros Hs HP Hfresh. unfold addUserToPresentation.
  rewrite bind_run. unfold uuidv4 at 1. cbv beta iota.
  unfold date_now. rewrite gets_bind_run. rewrite bind_run.
  erewrite query_served; [done|done|].
  simpl. unfold q_insert_user. simpl.
  rewrite bool_decide_eq_false_2 by done. by rewrite HP.
Qed.

Lemma addUserToPresentation_fault P n r s w e fs :
  faults w = Some e :: fs →
  addUserToPresentation P n r s w
  = (Throw (JsError ("Failed to add user to presentation: " +:+ message e)),
     set_faults (drop 1) (set_uuids (drop 1) w), [StoreErr insert_users e]).
Proof.
  intros Hf. unfold addUserToPresentation.
  rewrite bind_run. unfold uuidv4 at 1. cbv beta iota.
  unfold date_now. rewrite gets_bind_run. rewrite bind_run.
  erewrite query_fault; [|done]. done.
Qed.

Lemma select_presentation_has id st row :
  q_select_presentation id st = Data row → has_presentation st id = true.
Proof.
  unfold q_select_presentation, has_presentation. intros Hq.
  apply bool_decide_eq_true. apply Exists_exists.
  destruct (filter (λ p, Presentation.id p = id) (presentations st))
    as [|prow [|? ?]] eqn:Hf; simplify_eq/=.
  assert (prow ∈ filter (λ p, Presentation.id p = id) (presentations st))
    as Hin by (rewrite Hf; left).
  apply list_elem_of_filter in Hin as [Hid Hin]. by exists prow.
Qed.

(** X2. What [getPresentationUsers] returns is exactly the active session
    rows of the presentation, each once, in ascending [joined_at] with the rows
    that have none last; the tables are as they were. *)
Theorem getPresentationUsers_active_sorted P w us :
  completion_of (getPresentationUsers P w) = Normal us →
  sorted_by joined_le us
  ∧ us ≡ₚ filter (λ u, PresentationUser.presentation_id u = P
                       ∧ PresentationUser.is_active u = true)
            (presentation_users (store w))
  ∧ store (world_of (getPresentationUsers P w)) = store w.
Proof.
  unfold getPresentationUsers. rewrite bind_run.
  destruct (query_cases select_users
              (λ st, (Data (q_select_active_users P st), st)) w)
    as [(e & Hq & _)|(a & st & _ & Hq & Hrun)].
  - unfold select_users in Hq. rewrite Hq. by unfold completion_of.
  - unfold select_users in Hrun. rewrite Hrun. unfold completion_of, world_of. simpl.
    intros [= <-]. simplify_eq. split; [|split; [|done]].
    + apply stable_sort_sorted.
      * intros a b. apply nulls_last_le_total.
      * intros a b c. apply nulls_last_le_trans.
    + apply stable_sort_perm.
Qed.

Lemma getPresentationUsers_active_sorted_witness :
  store (world_of (getPresentationUsers "P" room_abc)) = store room_abc.
Proof.
  refine (proj2 (proj2 (getPresentationUsers_active_sorted "P" room_abc _ _))).
  vm_compute. reflexivity.
Defined.

(** ** Join, step by step *)

Lemma on_join_presentation_success s P n r w row :
  is_Some (db w) → calm 3 w →
  q_select_presentation P (store w) = Data row →
  fresh_user_id (next_uuid w) (store w) →
  on_join_presentation s P n r w
  = (Normal (),
     set_store (λ st, st)
       (set_faults (drop 1)
          (set_socketUsers (<[s := next_uuid w]>)
             (set_userSockets (<[next_uuid w := s]>)
                (set_activePresentations (addSocketToPresentation P s)
                   (set_store
                      (λ _, set_presentation_users
                              (λ us, us ++ [session_row w s P n r]) (store w))
                      (set_faults (drop 1)
                         (set_uuids (drop 1)
                            (set_store (λ _, store w) (set_faults (drop 1) w))))))))),
     [StoreOk select_presentations; StoreOk insert_users; SocketJoin s P;
      StoreOk select_users;
      SocketEmit s "presentation-joined"
        (PJoined (sort_presentation row) (session_row w s P n r)
           (q_select_active_users P
              (set_presentation_users (λ us, us ++ [session_row w s P n r]) (store w))));
      SocketToEmit s P "user-joined" (PUser (session_row w s P n r));
      ConsoleLog ("User " +:+ n +:+ " joined presentation " +:+ P)]).
Proof.
  intros [d Hd] Hcalm Hrow Hfresh.
  pose proof (calm_served _ _ Hcalm) as Hs1.
  set (w1 := set_store (λ _, store w) (set_faults (drop 1) w)).
  assert (calm 2 w1) as Hcalm1 by (by eapply calm_next).
  pose proof (calm_served _ _ Hcalm1) as Hs2.
  unfold on_join_presentation, try_catch. cbv zeta.
  rewrite gets_bind_run, Hd.
  rewrite (bind_run (getPresentationById P)).
  rewrite (getPresentationById_served P w row) by done.
  cbv beta iota. fold w1.
  rewrite (bind_run (addUserToPresentation _ _ _ _)).
  rewrite (addUserToPresentation_served P n (default viewer r) s w1); [|done| |done].
  2:{ by eapply select_presentation_has. }
  cbv beta iota.
  rewrite !modify_bind_run. rewrite (bind_run (tell _)). unfold tell at 1.
  cbv beta iota.
  rewrite (bind_run (getPresentationUsers P)).
  rewrite getPresentationUsers_served.
  2:{ eapply (calm_served 0). eapply calm_next; [|exact Hcalm1]. done. }
  reflexivity.
Qed.

Lemma session_row_listed w s P n r :
  session_row w s P n r
  ∈ q_select_active_users P
      (set_presentation_users (λ us, us ++ [session_row w s P n r]) (store w)).
Proof.
  unfold q_select_active_users.
  rewrite (stable_sort_perm _ _). simpl.
  apply list_elem_of_filter. split; [done|].
  apply elem_of_app. right. left.
Qed.

(** X3. A join that the store serves from end to end, for a presentation
    that exists and a session id that is not taken: one session row is appended,
    the socket enters the room of the presentation and no other room, the two
    registry maps bind socket and session to each other, and the trace is the
    look-up, the insert, the join of the Socket.IO room, the listing,
    presentation-joined to the socket with a list that holds the new session,
    user-joined to the others of the room, and the log line. *)
Theorem join_success s P n r w row :
  is_Some (db w) → calm 3 w →
  q_select_presentation P (store w) = Data row →
  fresh_user_id (next_uuid w) (store w) →
  presentation_users (store (step (JoinPresentation s P n r) w))
  = presentation_users (store w) ++ [session_row w s P n r]
  ∧ (∀ Q, membersOf (step (JoinPresentation s P n r) w) Q
          = if decide (P = Q) then membersOf w P ∪ {[s]} else membersOf w Q)
  ∧ socketUsers (step (JoinPresentation s P n r) w) !! s = Some (next_uuid w)
  ∧ userSockets (step (JoinPresentation s P n r) w) !! next_uuid w = Some s
  ∧ ∃ users,
      session_row w s P n r ∈ users
      ∧ effects_of (on_join_presentation s P n r w)
        = [StoreOk select_presentations; StoreOk insert_users; SocketJoin s P;
           StoreOk select_users;
           SocketEmit s "presentation-joined"
             (PJoined (sort_presentation row) (session_row w s P n r) users);
           SocketToEmit s P "user-joined" (PUser (session_row w s P n r));
           ConsoleLog ("User " +:+ n +:+ " joined presentation " +:+ P)].
Proof.
  intros Hdb Hcalm Hrow Hfresh. unfold step. simpl.
  rewrite (on_join_presentation_success s P n r w row) by done.
  unfold world_of, effects_of. simpl.
  split; [done|]. split; [|split; [|split]].
  - intros Q. rewrite !membersOf_members. simpl.
    apply members_addSocketToPresentation.
  - apply lookup_insert_eq.
  - apply lookup_insert_eq.
  - eexists. split; [|done]. apply session_row_listed.
Qed.

Lemma join_success_witness :
  presentation_users (store (step (JoinPresentation "S" "P" "ann" None) fresh_deck))
  = presentation_users (store fresh_deck) ++ [session_row fresh_deck "S" "P" "ann" None].
Proof.
  refine (proj1 (join_success "S" "P" "ann" None fresh_deck _ _ _ _ _)).
  - by eexists.
  - apply (bool_decide_unpack _). by vm_compute.
  - reflexivity.
  - apply (bool_decide_unpack _). by vm_compute.
Defined.

(** X4. A join whose insert the store refuses changes neither a table nor a
    tracking map; the socket is told that the join failed and nobody else hears
    of it. *)
Theorem join_insert_failure s P n r w row e fs :
  is_Some (db w) → faults w = None :: Some e :: fs →
  q_select_presentation P (store w) = Data row →
  same_state w (step (JoinPresentation s P n r) w)
  ∧ effects_of (on_join_presentation s P n r w)
    = [StoreOk select_presentations; StoreErr insert_users e;
       ConsoleError "Error joining presentation:"
         ("Failed to add user to presentation: " +:+ message e);
       SocketEmit s "error" (PMessage "Failed to join presentation")].
Proof.
  intros [d Hd] Hf Hrow. unfold step. simpl.
  unfold on_join_presentation, try_catch. cbv zeta.
  rewrite gets_bind_run, Hd.
  rewrite (bind_run (getPresentationById P)).
  rewrite (getPresentationById_served P w row); [|by unfold served; rewrite Hf|done].
  cbv beta iota.
  rewrite (bind_run (addUserToPresentation _ _ _ _)).
  erewrite addUserToPresentation_fault; [|by simpl; rewrite Hf].
  done.
Qed.

Lemma join_insert_failure_witness :
  same_state (set_faults (λ _, [None; Some outage]) fresh_deck)
    (step (JoinPresentation "S" "P" "ann" None)
       (set_faults (λ _, [None; Some outage]) fresh_deck)).
Proof.
  refine (proj1 (join_insert_failure "S" "P" "ann" None
                   (set_faults (λ _, [None; Some outage]) fresh_deck) _ outage [] _ _ _)).
  - by eexists.
  - reflexivity.
  - reflexivity.
Defined.

Lemma on_join_presentation_listing_failure s P n r w row e fs :
  is_Some (db w) → faults w = None :: None :: Some e :: fs →
  q_select_presentation P (store w) = Data row →
  fresh_user_id (next_uuid w) (store w) →
  on_join_presentation s P n r w
  = (Normal (),
     set_faults (drop 1)
       (set_socketUsers (<[s := next_uuid w]>)
          (set_userSockets (<[next_uuid w := s]>)
             (set_activePresentations (addSocketToPresentation P s)
                (set_store
                   (λ _, set_presentation_users
                           (λ us, us ++ [session_row w s P n r]) (store w))
                   (set_faults (drop 1)
                      (set_uuids (drop 1)
                         (set_store (λ _, store w) (set_faults (drop 1) w)))))))),
     [StoreOk select_presentations; StoreOk insert_users; SocketJoin s P;
      StoreErr select_users e;
      ConsoleError "Error joining presentation:"
        ("Failed to fetch presentation users: " +:+ message e);
      SocketEmit s "error" (PMessage "Failed to join presentation")]).
Proof.
  intros [d Hd] Hf Hrow Hfresh.
  set (w1 := set_store (λ _, store w) (set_faults (drop 1) w)).
  unfold on_join_presentation, try_catch. cbv zeta.
  rewrite gets_bind_run, Hd.
  rewrite (bind_run (getPresentationById P)).
  rewrite (getPresentationById_served P w row); [|by unfold served; rewrite Hf|done].
  cbv beta iota. fold w1.
  rewrite (bind_run (addUserToPresentation _ _ _ _)).
  rewrite (addUserToPresentation_served P n (default viewer r) s w1);
    [|by unfold served; simpl; rewrite Hf|by eapply select_presentation_has|done].
  cbv beta iota.
  rewrite !modify_bind_run. rewrite (bind_run (tell _)). unfold tell at 1.
  cbv beta iota.
  rewrite (bind_run (getPresentationUsers P)).
  erewrite getPresentationUsers_fault; [|by simpl; rewrite Hf].
  reflexivity.
Qed.

(** X5. A join whose listing of the users fails comes after the insert
    and the tracking: the session row is stored, the socket is a member of the
    room and bound in both registry maps, and yet the socket is told that the
    join failed; neither presentation-joined nor user-joined is sent. *)
Theorem join_listing_failure s P n r w row e fs :
  is_Some (db w) → faults w = None :: None :: Some e :: fs →
  q_select_presentation P (store w) = Data row →
  fresh_user_id (next_uuid w) (store w) →
  presentation_users (store (step (JoinPresentation s P n r) w))
  = presentation_users (store w) ++ [session_row w s P n r]
  ∧ s ∈ membersOf (step (JoinPresentation s P n r) w) P
  ∧ socketUsers (step (JoinPresentation s P n r) w) !! s = Some (next_uuid w)
  ∧ userSockets (step (JoinPresentation s P n r) w) !! next_uuid w = Some s
  ∧ effects_of (on_join_presentation s P n r w)
    = [StoreOk select_presentations; StoreOk insert_users; SocketJoin s P;
       StoreErr select_users e;
       ConsoleError "Error joining presentation:"
         ("Failed to fetch presentation users: " +:+ message e);
       SocketEmit s "error" (PMessage "Failed to join presentation")].
Proof.
  intros Hdb Hf Hrow Hfresh. unfold step. simpl.
  rewrite (on_join_presentation_listing_failure s P n r w row e fs) by done.
  unfold world_of, effects_of. simpl.
  split; [done|]. split; [|split; [|split]]; try done.
  - change (s ∈ members (addSocketToPresentation P s (activePresentations w)) P).
    rewrite members_addSocketToPresentation, decide_True by done. set_solver.
  - apply lookup_insert_eq.
  - apply lookup_insert_eq.
Qed.

Lemma join_listing_failure_witness :
  "S" ∈ membersOf (step (JoinPresentation "S" "P" "ann" None)
                     (set_faults (λ _, [None; None; Some outage]) fresh_deck)) "P".
Proof.
  refine (proj1 (proj2 (join_listing_failure "S" "P" "ann" None
            (set_faults (λ _, [None; None; Some outage]) fresh_deck) _ outage [] _ _ _ _))).
  - by eexists.
  - reflexivity.
  - reflexivity.
  - apply (bool_decide_unpack _). by vm_compute.
Defined.

(** ** The room index, again *)

(** X6. Adding a socket to a room twice is adding it once, and removing it
    twice is removing it once, whatever the index holds. *)
Theorem room_operations_idempotent (rooms : gmap string (gset string)) P s :
  addSocketToPresentation P s (addSocketToPresentation P s rooms)
  = addSocketToPresentation P s rooms
  ∧ removeSocketFromPresentation P s (removeSocketFromPresentation P s rooms)
    = removeSocketFromPresentation P s rooms.
Proof.
  split; apply map_eq; intros Q.
  - rewrite !lookup_addSocketToPresentation.
    case_decide; subst; [|done].
    rewrite members_addSocketToPresentation, decide_True by done.
    f_equal. set_solver.
  - rewrite !lookup_removeSocketFromPresentation.
    case_decide; subst; [|done].
    rewrite decide_True by done.
    destruct (rooms !! Q) as [ss|]; [|done].
    destruct (decide (ss ∖ {[s]} = ∅)); [done|].
    rewrite decide_False by set_solver. f_equal. set_solver.
Qed.

(** X7. Adding a socket that was not a member and removing it again gives
    back the index, provided the index did not hold an empty room for the
    presentation; removing a socket that is not a member changes nothing
    then. *)
Theorem room_add_remove_round_trip (rooms : gmap string (gset string)) P s :
  s ∉ members rooms P → rooms !! P ≠ Some ∅ →
  removeSocketFromPresentation P s (addSocketToPresentation P s rooms) = rooms
  ∧ removeSocketFromPresentation P s rooms = rooms.
Proof.
  intros Hs Hne. split; apply map_eq; intros Q.
  - rewrite lookup_removeSocketFromPresentation, !lookup_addSocketToPresentation.
    case_decide; subst; [|done]. rewrite decide_True by done.
    unfold members in *. destruct (rooms !! Q) as [ss|] eqn:Hss; simpl in *.
    + rewrite decide_False.
      * f_equal. set_solver.
      * intros Hempty. apply Hne. f_equal. clear Hne.
        apply set_eq. intros x. split; [|set_solver]. intros Hx.
        destruct (decide (x = s)) as [->|Hxs]; [done|].
        rewrite <- Hempty. set_solver.
    + rewrite decide_True; [done|]. set_solver.
  - rewrite lookup_removeSocketFromPresentation.
    case_decide; subst; [|done].
    unfold members in *. destruct (rooms !! Q) as [ss|] eqn:Hss; simpl in *; [|done].
    rewrite decide_False.
    + f_equal. set_solver.
    + intros Hempty. apply Hne. f_equal. clear Hne. set_solver.
Qed.

Lemma room_add_remove_round_trip_witness :
  removeSocketFromPresentation "P" "B"
    (addSocketToPresentation "P" "B" {["P" := {["A"]}]})
  = ({["P" := {["A"]}]} : gmap string (gset string)).
Proof.
  apply (room_add_remove_round_trip {["P" := {["A"]}]} "P" "B");
    apply (bool_decide_unpack _); by vm_compute.
Defined.

(** ** Leave and disconnect, again *)

Lemma on_disconnect_unbound s w :
  socketUsers w !! s = None →
  on_disconnect s w = (Normal (), w, [ConsoleLog ("User disconnected: " +:+ s)]).
Proof.
  intros Hu. unfold on_disconnect, try_catch.
  rewrite (bind_run (tell _)). unfold tell at 1.
  rewrite !gets_bind_run, Hu. done.
Qed.

Lemma on_disconnect_falsy s uid w :
  socketUsers w !! s = Some uid → truthy uid = false →
  on_disconnect s w = (Normal (), w, [ConsoleLog ("User disconnected: " +:+ s)]).
Proof.
  intros Hu Ht. unfold on_disconnect, try_catch.
  rewrite (bind_run (tell _)). unfold tell at 1.
  rewrite !gets_bind_run, Hu, Ht. by destruct (db w).
Qed.

(** X8. A disconnect of a socket without a binding in [socketUsers] does
    nothing but log; so does a second disconnect after one that the store
    served. *)
Theorem duplicate_disconnect_is_noop s w :
  (socketUsers w !! s = None →
   on_disconnect s w = (Normal (), w, [ConsoleLog ("User disconnected: " +:+ s)]))
  ∧ (is_Some (db w) → served w = true →
     on_disconnect s (step (Disconnect s) w)
     = (Normal (), step (Disconnect s) w, [ConsoleLog ("User disconnected: " +:+ s)])).
Proof.
  split; [apply on_disconnect_unbound|]. intros Hdb Hs.
  destruct (socketUsers w !! s) as [uid|] eqn:Hu.
  - destruct (truthy uid) eqn:Ht.
    + apply on_disconnect_unbound. unfold step. simpl.
      rewrite (on_disconnect_served s uid) by done.
      unfold world_of. simpl. apply lookup_delete_eq.
    + unfold step. simpl. rewrite (on_disconnect_falsy s uid w) by done.
      unfold world_of. simpl. by apply (on_disconnect_falsy s uid).
  - unfold step. simpl. rewrite (on_disconnect_unbound s w) by done.
    unfold world_of. simpl. by apply on_disconnect_unbound.
Qed.

Lemma duplicate_disconnect_is_noop_witness :
  on_disconnect "A" (step (Disconnect "A") room_abc)
  = (Normal (), step (Disconnect "A") room_abc, [ConsoleLog ("User disconnected: " +:+ "A")]).
Proof.
  apply (proj2 (duplicate_disconnect_is_noop "A" room_abc)); [by eexists|reflexivity].
Defined.

(** X9. After a leave that the store served, the disconnect of the same
    socket does nothing but log: the socket stays a member of every other room
    it was in. *)
Theorem disconnect_after_leave_is_noop s P uid w :
  is_Some (db w) → served w = true →
  on_disconnect s (step (LeavePresentation s P uid) w)
  = (Normal (), step (LeavePresentation s P uid) w,
     [ConsoleLog ("User disconnected: " +:+ s)])
  ∧ ∀ Q, P ≠ Q → s ∈ membersOf w Q →
         s ∈ membersOf (run [LeavePresentation s P uid; Disconnect s] w) Q.
Proof.
  intros Hdb Hs.
  assert (on_disconnect s (step (LeavePresentation s P uid) w)
          = (Normal (), step (LeavePresentation s P uid) w,
             [ConsoleLog ("User disconnected: " +:+ s)])) as Hnoop.
  { apply on_disconnect_unbound. unfold step. simpl.
    rewrite on_leave_presentation_served by done.
    unfold world_of. simpl. apply lookup_delete_eq. }
  split; [done|]. intros Q HPQ Hin. simpl.
  unfold step at 1. simpl. rewrite Hnoop. unfold world_of. simpl.
  unfold step. simpl. rewrite on_leave_presentation_served by done.
  unfold world_of. simpl.
  change (s ∈ members (removeSocketFromPresentation P s (activePresentations w)) Q).
  rewrite members_removeSocketFromPresentation. by rewrite decide_False.
Qed.

Lemma disconnect_after_leave_is_noop_witness :
  "X" ∈ membersOf
          (run [LeavePresentation "X" "P1" "u1"; Disconnect "X"]
             (run [JoinPresentation "X" "P1" "xe" None; JoinPresentation "X" "P2" "xe" None]
                (boot two_decks [] ["u1"; "u2"] 0))) "P2".
Proof.
  apply (proj2 (disconnect_after_leave_is_noop "X" "P1" "u1"
                  (run [JoinPresentation "X" "P1" "xe" None;
                        JoinPresentation "X" "P2" "xe" None]
                     (boot two_decks [] ["u1"; "u2"] 0))
                  ltac:(by eexists) ltac:(reflexivity))).
  - done.
  - apply (bool_decide_unpack _). by vm_compute.
Defined.

(** X10. The leave handler trusts the user id of the message: a socket
    that names the session of another socket retires that session and removes
    the [userSockets] entry of the other socket, whose [socketUsers] binding and
    room memberships stay. *)
Theorem leave_unbinds_named_user s t P uid w :
  is_Some (db w) → served w = true → s ≠ t →
  userSockets w !! uid = Some t → socketUsers w !! t = Some uid →
  userSockets (step (LeavePresentation s P uid) w) !! uid = None
  ∧ socketUsers (step (LeavePresentation s P uid) w) !! t = Some uid
  ∧ (∀ Q, t ∈ membersOf (step (LeavePresentation s P uid) w) Q ↔ t ∈ membersOf w Q)
  ∧ ∀ u, u ∈ presentation_users (store (step (LeavePresentation s P uid) w)) →
         PresentationUser.id u = uid → PresentationUser.presentation_id u = P →
         PresentationUser.is_active u = false.
Proof.
  intros Hdb Hs Hst Hu Hb. unfold step. simpl.
  rewrite on_leave_presentation_served by done. unfold world_of. simpl.
  split; [apply lookup_delete_eq|]. split; [by rewrite lookup_delete_ne|]. split.
  - intros Q.
    change (t ∈ members (removeSocketFromPresentation P s (activePresentations w)) Q
            ↔ t ∈ members (activePresentations w) Q).
    rewrite members_removeSocketFromPresentation. case_decide; set_solver.
  - intros u. change (map ?f ?l) with (f <$> l).
    intros (u0 & -> & Hin)%list_elem_of_fmap Hid HP.
    unfold session_of in *. destruct (bool_decide _) eqn:Hsel; [done|].
    apply bool_decide_eq_false in Hsel. by destruct Hsel.
Qed.

Lemma leave_unbinds_named_user_witness :
  userSockets (step (LeavePresentation "A" "P" "u2") room_abc) !! "u2" = None.
Proof.
  apply (proj1 (leave_unbinds_named_user "A" "B" "P" "u2" room_abc
                  ltac:(by eexists) ltac:(reflexivity) ltac:(done)
                  ltac:(by vm_compute) ltac:(by vm_compute))).
Defined.

(** ** Collaborative actions *)

#[local] Instance same_users_refl : Reflexive same_users.
Proof. by intros w. Qed.

#[local] Instance same_users_trans : Transitive same_users.
Proof. intros w1 w2 w3 H1 H2. unfold same_users in *. congruence. Qed.

Lemma throwing_query_writes_or_throws {A B} req (q : Store → Response A * Store)
    (k : Response A → M B) :
  (∀ e w, ∃ x, k (Err e) w = (Throw x, w, [])) →
  (∀ a w, ∃ b, k (Data a) w = (Normal b, w, [])) →
  writes_or_throws req (query req q ≫= k).
Proof.
  intros Herr Hdata w. rewrite bind_run.
  destruct (query_cases req q w) as [(e & -> & _)|(a & st & _ & _ & ->)].
  - destruct (Herr e (set_faults (drop 1) w)) as [x ->].
    left. by exists x, e, (set_faults (drop 1) w).
  - destruct (Hdata a (set_store (λ _, st) (set_faults (drop 1) w))) as [b ->].
    right. by eexists _, _.
Qed.

Lemma silent_bind_writes_or_throws {A B} req (m : M A) (k : A → M B) :
  (∀ w, ∃ a w1, m w = (Normal a, w1, []) ∧ store w1 = store w ∧ same_tracking w w1) →
  (∀ a, writes_or_throws req (k a)) →
  writes_or_throws req (m ≫= k).
Proof.
  intros Hm Hk w. rewrite bind_run. destruct (Hm w) as (a & w1 & -> & Hst & Htr).
  destruct (Hk a w1) as [(x & e & w' & -> & Hst' & Htr')|(b & w' & ->)].
  - left. exists x, e, w'. split; [done|]. split; [congruence|by etrans].
  - right. by eexists _, _.
Qed.

Ltac writing_method :=
  repeat first
    [ apply silent_bind_writes_or_throws; [intros ?; by eexists _, _ | intros ?]
    | apply throwing_query_writes_or_throws; intros; by eexists ].

Lemma action_writes_or_throws s a :
  ∃ (A : Type) (m : M A) (k : A → M ()) log failure,
    on_action s a = guarded s (m ≫= k) log failure
    ∧ writes_or_throws (write_of a) m.
Proof.
  destruct a; simpl;
    unfold on_add_slide, on_remove_slide, on_update_slide_index,
      on_update_current_slide, on_add_text_block, on_update_text_block,
      on_remove_text_block, on_update_user_role, on_enter_present_mode,
      on_exit_present_mode;
    eexists _, _, _, _, _; (split; [reflexivity|]);
    unfold addSlide, removeSlide, updateSlideIndex, updatePresentation,
      addTextBlock, updateTextBlock, removeTextBlock, updateUserRole;
    writing_method.
Qed.

(** X11. A collaborative action whose write the store does not accept
    changes neither a table nor a tracking map, and its whole trace is the
    refused request, the error log and the error event to the sender. *)
Theorem refused_action_changes_nothing s a w :
  is_Some (db w) →
  StoreOk (write_of a) ∉ effects_of (on_action s a w) →
  store (step (Collaborate s a) w) = store w
  ∧ same_maps w (step (Collaborate s a) w)
  ∧ ∃ e log detail failure,
      effects_of (on_action s a w)
      = [StoreErr (write_of a) e; ConsoleError log detail;
         SocketEmit s "error" (PMessage failure)].
Proof.
  intros [d Hd] Hno. unfold step. simpl.
  destruct (action_writes_or_throws s a) as (A & m & k & log & failure & Heq & Hm).
  rewrite Heq in *. unfold guarded, try_catch in *.
  rewrite gets_bind_run, Hd in *. rewrite bind_run in *.
  destruct (Hm w) as [(x & e & w' & Hrun & Hst & Htr)|(b & w' & Hrun)];
    rewrite Hrun in *.
  - unfold world_of, effects_of. simpl. split; [done|].
    destruct Htr as (? & ? & ? & _). split; [done|]. by eexists _, _, _, _.
  - destruct Hno. unfold effects_of. simpl.
    destruct (k b w') as [[[[]|x] w2] t2]; simpl; left.
Qed.

Lemma refused_action_changes_nothing_witness :
  store (step (Collaborate "A" (UpdateCurrentSlide "nowhere" 3)) room_abc)
  = store room_abc.
Proof.
  apply (proj1 (refused_action_changes_nothing "A" (UpdateCurrentSlide "nowhere" 3)
                  room_abc ltac:(by eexists)
                  ltac:(apply (bool_decide_unpack _); by vm_compute))).
Defined.

Lemma only_role_changed_refl u : only_role_changed u u.
Proof. exists (PresentationUser.role u). by destruct u. Qed.

#[local] Instance roles_only_refl : Reflexive roles_only.
Proof.
  intros w. apply Forall2_same_length_lookup_2; [done|].
  intros i u u' Hu Hu'. simplify_eq. apply only_role_changed_refl.
Qed.

#[local] Instance roles_only_trans : Transitive roles_only.
Proof.
  intros w1 w2 w3 H1 H2. unfold roles_only in *.
  revert H2. generalize (presentation_users (store w3)).
  induction H1 as [|u u' us us' [r ->] Hus IH]; intros l H2.
  - inversion H2. constructor.
  - inversion H2 as [|? u'' ? k [r' ->] Hk]; subst. constructor; [|by apply IH].
    exists r'. by destruct u.
Qed.

Ltac users_untouched :=
  skeleton;
  first
    [ apply preserves_uuidv4; intros; done
    | apply preserves_broadcast; apply _
    | apply preserves_query; [intros; done|] ].

Lemma other_actions_same_users s a :
  is_role_update a = false → preserves same_users (on_action s a).
Proof.
  destruct a; intros Hrole; try done; simpl;
    unfold on_add_slide, on_remove_slide, on_update_slide_index,
      on_update_current_slide, on_add_text_block, on_update_text_block,
      on_remove_text_block, on_enter_present_mode, on_exit_present_mode, guarded,
      addSlide, removeSlide, updateSlideIndex, updatePresentation, addTextBlock,
      updateTextBlock, removeTextBlock, getPresentationById;
    users_untouched; intros w a' st' Hq; unfold same_users;
    unfold q_insert_slide, q_update_presentation, q_insert_text_block,
      q_update_text_block in Hq;
    repeat case_match; by simplify_eq.
Qed.

Lemma update_user_role_roles_only s P uid r :
  preserves roles_only (on_update_user_role s P uid r).
Proof.
  unfold on_update_user_role, guarded, updateUserRole.
  skeleton;
    first [ apply preserves_broadcast; apply _
          | apply preserves_query; [intros w; exact (roles_only_refl w)|] ].
  intros w a' st' Hq. unfold q_update_user_role in Hq.
  repeat case_match; simplify_eq. unfold roles_only. simpl.
  generalize (presentation_users (store w)). intros us.
  induction us as [|u us IH]; simpl; constructor; [|done].
  case_bool_decide; [by exists r|apply only_role_changed_refl].
Qed.

(** X12. No collaborative action touches the tracking maps; the session
    table keeps its rows in place, with at most other roles, and only a role
    update can change it at all. *)
Theorem actions_leave_presence_alone s a w :
  same_maps w (step (Collaborate s a) w)
  ∧ roles_only w (step (Collaborate s a) w)
  ∧ (is_role_update a = false →
     presentation_users (store (step (Collaborate s a) w)) = presentation_users (store w)).
Proof.
  split; [|split].
  - destruct (on_action_tracking s a w) as (? & ? & ? & _). by unfold step.
  - destruct (is_role_update a) eqn:Hrole.
    + destruct a; try done. apply update_user_role_roles_only.
    + pose proof (other_actions_same_users s a Hrole w) as Hsame.
      unfold roles_only, step. simpl. unfold same_users in Hsame. rewrite Hsame.
      apply (roles_only_refl w).
  - intros Hrole. apply (other_actions_same_users s a Hrole w).
Qed.

(** ** The reaper, again *)

Lemma reaper_tick_served w :
  is_Some (db w) → served w = true → date_in_range (clock w - 30 * 60 * 1000) →
  reaper_tick w
  = (Normal (),
     set_store
       (λ _, q_deactivate_users
               (λ u, last_seen_lt (clock w - 30 * 60 * 1000) u
                     && PresentationUser.is_active u) (store w))
       (set_faults (drop 1) w),
     [StoreOk update_users]).
Proof.
  intros [d Hd] Hs Hr. unfold reaper_tick. rewrite gets_bind_run, Hd.
  unfold try_catch. by rewrite cleanupInactiveUsers_served.
Qed.

Lemma deactivate_twice t st :
  q_deactivate_users (λ u, last_seen_lt t u && PresentationUser.is_active u)
    (q_deactivate_users (λ u, last_seen_lt t u && PresentationUser.is_active u) st)
  = q_deactivate_users (λ u, last_seen_lt t u && PresentationUser.is_active u) st.
Proof.
  unfold q_deactivate_users, set_presentation_users. simpl. f_equal.
  induction (presentation_users st) as [|u us IH]; simpl; [done|].
  rewrite IH. f_equal.
  destruct (last_seen_lt t u && PresentationUser.is_active u) eqn:Hsel; simpl.
  - by rewrite andb_false_r.
  - by rewrite Hsel.
Qed.

(** X13. A sweep of the reaper leaves the tracking maps alone: a broadcast
    after it still reaches the members the room had before, the connections of
    the sessions just retired included. *)
Theorem sweep_leaves_rooms_alone w :
  same_maps w (step ReaperTick w)
  ∧ ∀ P ev d,
      delivered (effects_of (broadcastToPresentation P ev d (step ReaperTick w)))
      = membersOf w P.
Proof.
  destruct (reaper_tick_tracking w) as (Ha & Hu & Hs & _).
  split; [done|]. intros P ev d.
  rewrite broadcast_run. unfold effects_of, delivered. cbn [snd].
  rewrite omap_io_target_emit, list_to_set_elements_L.
  unfold membersOf, step. simpl. by rewrite Ha.
Qed.

(** X14. Two sweeps at the same instant, both served, leave the tables as
    one sweep does. *)
Theorem sweep_twice_is_sweep_once w :
  is_Some (db w) → calm 2 w → date_in_range (clock w - 30 * 60 * 1000) →
  store (run [ReaperTick; ReaperTick] w) = store (run [ReaperTick] w).
Proof.
  intros Hdb Hcalm Hr. simpl. unfold step. simpl.
  rewrite (reaper_tick_served w) by (try done; by eapply calm_served).
  unfold world_of. simpl.
  rewrite reaper_tick_served; [|done| |done].
  - simpl. apply deactivate_twice.
  - eapply (calm_served 0). eapply calm_next; [|exact Hcalm]. done.
Qed.

Lemma sweep_twice_is_sweep_once_witness :
  store (run [ReaperTick; ReaperTick] (set_clock (λ _, 3600000%Z) room_abc))
  = store (run [ReaperTick] (set_clock (λ _, 3600000%Z) room_abc)).
Proof.
  apply sweep_twice_is_sweep_once.
  - by eexists.
  - apply (bool_decide_unpack _). by vm_compute.
  - by vm_compute.
Defined.

(** ** New slides *)

Lemma select_max_order_spec P st :
  (q_select_max_order P st = [] ∧ slides_of st P = [])
  ∨ ∃ m, q_select_max_order P st = [m]
         ∧ ∀ s, s ∈ slides_of st P → (Slide.slide_order s ≤ m)%Z.
Proof.
  unfold q_select_max_order, slides_of.
  set (l := map Slide.slide_order _).
  pose proof (stable_sort_perm (λ a b : Z, bool_decide (b ≤ a)%Z) l) as Hperm.
  pose proof (stable_sort_sorted (λ a b : Z, bool_decide (b ≤ a)%Z)) as Hsorted.
  specialize (Hsorted ltac:(intros a b; rewrite !bool_decide_eq_true; lia)
                      ltac:(intros a b c; rewrite !bool_decide_eq_true; lia) l).
  destruct (stable_sort _ l) as [|m rest] eqn:Hsort.
  - left. split; [done|]. apply Permutation_nil_l in Hperm. subst l.
    by destruct (filter _ (slides st)).
  - right. exists m. split; [done|]. intros s Hs.
    assert (Slide.slide_order s ∈ l) as Hin by (by apply list_elem_of_fmap_2).
    rewrite <- Hperm in Hin. unfold sorted_by in Hsorted.
    apply StronglySorted_inv in Hsorted as [_ Hall].
    apply elem_of_cons in Hin as [->|Hin]; [lia|].
    rewrite Forall_forall in Hall. specialize (Hall _ Hin).
    apply bool_decide_eq_true in Hall. lia.
Qed.

Lemma createSlide_run P title w :
  calm 2 w → has_presentation (store w) P = true →
  fresh_slide_id (next_uuid w) (store w) →
  createSlide P title w
  = (Normal (Slide.mk (next_uuid w) P (default "Untitled Slide" title)
               (match q_select_max_order P (store w) with
                | m :: _ => m + 1
                | [] => 0
                end)%Z None),
     set_store
       (λ _, set_slides
               (λ ss, ss ++ [Slide.mk (next_uuid w) P (default "Untitled Slide" title)
                               (match q_select_max_order P (store w) with
                                | m :: _ => m + 1
                                | [] => 0
                                end)%Z None]) (store w))
       (set_faults (drop 1) (set_uuids (drop 1)
          (set_store (λ _, store w) (set_faults (drop 1) w)))),
     [StoreOk {| verb := Select; table := "slides" |};
      StoreOk {| verb := Insert; table := "slides" |}]).
Proof.
  intros Hcalm HP Hfresh. unfold createSlide. cbv zeta.
  rewrite bind_run.
  erewrite query_served; [|by eapply calm_served|done].
  cbv beta iota. rewrite (bind_run uuidv4). unfold uuidv4 at 1. cbv beta iota.
  rewrite bind_run.
  erewrite query_served; [done| |].
  - eapply (calm_served 0). eapply calm_next; [|exact Hcalm]. done.
  - simpl. unfold q_insert_slide. simpl.
    rewrite bool_decide_eq_false_2 by done. by rewrite HP.
Qed.

(** X15. [createSlide], served: the new slide is appended to the table for
    the presentation asked for, under the given title or the default one, with
    an order above that of every slide the presentation had, and order 0 when
    it had none. *)
Theorem createSlide_goes_last P title w :
  calm 2 w → has_presentation (store w) P = true →
  fresh_slide_id (next_uuid w) (store w) →
  ∃ new,
    completion_of (createSlide P title w) = Normal new
    ∧ slides (store (world_of (createSlide P title w))) = slides (store w) ++ [new]
    ∧ Slide.presentation_id new = P
    ∧ Slide.title new = default "Untitled Slide" title
    ∧ (∀ s, s ∈ slides_of (store w) P → (Slide.slide_order s < Slide.slide_order new)%Z)
    ∧ (slides_of (store w) P = [] → Slide.slide_order new = 0%Z).
Proof.
  intros Hcalm HP Hfresh. rewrite createSlide_run by done.
  eexists. split; [done|]. split; [done|]. split; [done|]. split; [done|]. simpl.
  destruct (select_max_order_spec P (store w)) as [[Hq Hnone]|(m & Hq & Hmax)];
    rewrite Hq.
  - split; [|done]. rewrite Hnone. by intros s ?%elem_of_nil.
  - split.
    + intros s Hs. specialize (Hmax s Hs). lia.
    + intros Hnone. unfold q_select_max_order in Hq. unfold slides_of in Hnone.
      by rewrite Hnone in Hq.
Qed.

Lemma createSlide_goes_last_witness :
  ∃ new,
    completion_of (createSlide "P" None slide_deck) = Normal new
    ∧ slides (store (world_of (createSlide "P" None slide_deck)))
      = slides (store slide_deck) ++ [new].
Proof.
  destruct (createSlide_goes_last "P" None slide_deck) as (new & Hnew & Hslides & _).
  - apply (bool_decide_unpack _). by vm_compute.
  - reflexivity.
  - apply (bool_decide_unpack _). by vm_compute.
  - by exists new.
Defined.

Lemma createSlide_run_after_fault P title w e fs :
  faults w = Some e :: fs → served (set_faults (drop 1) w) = true →
  has_presentation (store w) P = true →
  fresh_slide_id (next_uuid w) (store w) →
  createSlide P title w
  = (Normal (Slide.mk (next_uuid w) P (default "Untitled Slide" title) 0 None),
     set_store
       (λ _, set_slides
               (λ ss, ss ++ [Slide.mk (next_uuid w) P
                               (default "Untitled Slide" title) 0 None]) (store w))
       (set_faults (drop 1) (set_uuids (drop 1) (set_faults (drop 1) w))),
     [StoreErr {| verb := Select; table := "slides" |} e;
      StoreOk {| verb := Insert; table := "slides" |}]).
Proof.
  intros Hf Hs HP Hfresh. unfold createSlide. cbv zeta.
  rewrite bind_run. erewrite query_fault; [|done].
  cbv beta iota. rewrite (bind_run uuidv4). unfold uuidv4 at 1. cbv beta iota.
  rewrite bind_run.
  erewrite query_served; [done|done|].
  simpl. unfold q_insert_slide. simpl.
  rewrite bool_decide_eq_false_2 by done. by rewrite HP.
Qed.

(** X16. [createSlide] does not look at the error of its first request:
    when the look-up of the highest order fails and the insert is served, the
    slide is created with order 0, whatever slides the presentation has. *)
Theorem createSlide_after_failed_lookup P title w e fs :
  faults w = Some e :: fs → served (set_faults (drop 1) w) = true →
  has_presentation (store w) P = true →
  fresh_slide_id (next_uuid w) (store w) →
  ∃ new,
    completion_of (createSlide P title w) = Normal new
    ∧ slides (store (world_of (createSlide P title w))) = slides (store w) ++ [new]
    ∧ Slide.presentation_id new = P
    ∧ Slide.slide_order new = 0%Z.
Proof.
  intros Hf Hs HP Hfresh. erewrite createSlide_run_after_fault by done.
  by eexists.
Qed.

Lemma createSlide_after_failed_lookup_witness :
  ∃ new,
    completion_of (createSlide "P" None (set_faults (λ _, [Some outage]) slide_deck))
    = Normal new
    ∧ Slide.slide_order new = 0%Z.
Proof.
  destruct (createSlide_after_failed_lookup "P" None
              (set_faults (λ _, [Some outage]) slide_deck) outage [])
    as (new & Hnew & _ & _ & Horder).
  - reflexivity.
  - reflexivity.
  - reflexivity.
  - apply (bool_decide_unpack _). by vm_compute.
  - by exists new.
Defined.

(** ** Presentations over REST *)

Lemma calm_le (n m : nat) w : (n ≤ m)%nat → calm m w → calm n w.
Proof.
  unfold calm. intros Hle Hm.
  replace n with (n `min` m) by lia. rewrite <- take_take. by apply Forall_take.
Qed.

Lemma createPresentation_run title w :
  calm 2 w → fresh_presentation_id (next_uuid w) (store w) →
  fresh_slide_id (second_uuid w) (store w) →
  createPresentation title w
  = (Normal (new_presentation w title),
     set_store
       (λ _, set_slides (λ ss, ss ++ [default_slide w])
               (set_presentations (λ ps, ps ++ [new_presentation w title]) (store w)))
       (set_faults (drop 1)
          (set_store
             (λ _, set_presentations (λ ps, ps ++ [new_presentation w title]) (store w))
             (set_faults (drop 1) (set_uuids (drop 1) (set_uuids (drop 1) w))))),
     [StoreOk insert_presentations; StoreOk insert_slides]).
Proof.
  intros Hcalm Hp Hs. unfold createPresentation.
  rewrite (bind_run uuidv4). unfold uuidv4 at 1. cbv beta iota.
  rewrite (bind_run uuidv4). unfold uuidv4 at 1. cbv beta iota.
  rewrite bind_run.
  erewrite query_served; [|by eapply calm_served|].
  2:{ simpl. unfold q_insert_presentation. simpl.
      by rewrite bool_decide_eq_false_2 by done. }
  cbv beta iota. rewrite bind_run.
  erewrite query_served; [done| |].
  - eapply (calm_served 0). eapply calm_next; [|exact Hcalm]. done.
  - simpl. unfold q_insert_slide. simpl.
    rewrite bool_decide_eq_false_2 by done.
    unfold has_presentation. simpl.
    rewrite bool_decide_eq_true_2; [done|].
    apply Exists_app. right. by left.
Qed.

Lemma createPresentation_slide_fault title w e fs :
  faults w = None :: Some e :: fs →
  fresh_presentation_id (next_uuid w) (store w) →
  createPresentation title w
  = (Throw (JsError ("Failed to create default slide: " +:+ message e)),
     set_faults (drop 1)
       (set_store
          (λ _, set_presentations (λ ps, ps ++ [new_presentation w title]) (store w))
          (set_faults (drop 1) (set_uuids (drop 1) (set_uuids (drop 1) w)))),
     [StoreOk insert_presentations; StoreErr insert_slides e]).
Proof.
  intros Hf Hp. unfold createPresentation.
  rewrite (bind_run uuidv4). unfold uuidv4 at 1. cbv beta iota.
  rewrite (bind_run uuidv4). unfold uuidv4 at 1. cbv beta iota.
  rewrite bind_run.
  erewrite query_served; [|by unfold served; simpl; rewrite Hf|].
  2:{ simpl. unfold q_insert_presentation. simpl.
      by rewrite bool_decide_eq_false_2 by done. }
  cbv beta iota. rewrite bind_run.
  erewrite query_fault; [done|]. simpl. by rewrite Hf.
Qed.

Lemma filter_none {A} (P : A → Prop) `{!∀ x, Decision (P x)} (l : list A) :
  ¬ Exists P l → filter P l = [].
Proof.
  intros Hno. induction l as [|a l IH]; [done|].
  rewrite filter_cons. destruct (decide (P a)) as [Ha|Ha].
  - destruct Hno. by left.
  - apply IH. intros Hl. destruct Hno. by right.
Qed.

Lemma select_new_presentation pid sid title st :
  fresh_presentation_id pid st → slides_of st pid = [] →
  q_select_presentation pid
    (set_slides (λ ss, ss ++ [Slide.mk sid pid "Untitled Slide" 0 None])
       (set_presentations (λ ps, ps ++ [Presentation.mk pid title 0 false None None]) st))
  = Data (Presentation.mk pid title 0 false
            (Some [Slide.mk sid pid "Untitled Slide" 0
                     (Some (filter (λ b, TextBlock.slide_id b = sid) (text_blocks st)))])
            None).
Proof.
  intros Hp Hnone. unfold q_select_presentation. simpl.
  rewrite filter_app, (filter_none _ _ Hp). simpl.
  rewrite filter_cons, decide_True by done. simpl.
  rewrite filter_app. unfold slides_of in Hnone. rewrite Hnone. simpl.
  by rewrite filter_cons, decide_True by done.
Qed.

(** X17. A presentation created through POST, the store serving, is answered
    with 201 and the new row; a GET of its id then answers 200 with that title,
    slide index 0, present mode off, and the one default slide. *)
Theorem post_then_get_presentation title w :
  truthy title = true → is_Some (db w) → calm 3 w →
  fresh_presentation_id (next_uuid w) (store w) →
  fresh_slide_id (second_uuid w) (store w) →
  slides_of (store w) (next_uuid w) = [] →
  route_response (post_presentations (Some title) w)
  = {| http_status := 201; http_body := BodyPresentation (new_presentation w title) |}
  ∧ ∃ p,
      route_response
        (get_presentation (next_uuid w)
           (route_world (post_presentations (Some title) w)))
      = {| http_status := 200; http_body := BodyPresentation p |}
      ∧ Presentation.id p = next_uuid w
      ∧ Presentation.title p = title
      ∧ Presentation.current_slide_index p = 0%Z
      ∧ Presentation.present_mode p = false
      ∧ slide_row <$> default [] (Presentation.slides p)
        = [(second_uuid w, next_uuid w, "Untitled Slide", 0%Z)].
Proof.
  intros Ht [d Hd] Hcalm Hp Hs Hnone.
  unfold post_presentations. rewrite Ht, Hd.
  rewrite createPresentation_run; [|by apply (calm_le 2 3); [lia|]|done|done].
  split; [done|]. unfold route_world, route_response. cbn [fst snd].
  unfold get_presentation. cbn [db set_store set_faults set_uuids]. rewrite Hd.
  erewrite getPresentationById_served; [| |by apply select_new_presentation].
  - by eexists.
  - eapply (calm_served 0), calm_next; [|eapply calm_next; [|exact Hcalm]]; done.
Qed.

Lemma post_then_get_presentation_witness :
  route_response (post_presentations (Some "Talk") slide_deck)
  = {| http_status := 201; http_body := BodyPresentation (new_presentation slide_deck "Talk") |}.
Proof.
  refine (proj1 (post_then_get_presentation "Talk" slide_deck _ _ _ _ _ _)).
  - reflexivity.
  - by eexists.
  - apply (bool_decide_unpack _). by vm_compute.
  - apply (bool_decide_unpack _). by vm_compute.
  - apply (bool_decide_unpack _). by vm_compute.
  - reflexivity.
Defined.

(** X18. Creation is not atomic: when the insert of the default slide
    fails, POST answers 500 while the presentation row stays in the table,
    without a slide. *)
Theorem post_presentation_is_not_atomic title w e fs :
  truthy title = true → is_Some (db w) → faults w = None :: Some e :: fs →
  fresh_presentation_id (next_uuid w) (store w) →
  route_response (post_presentations (Some title) w)
  = {| http_status := 500; http_body := BodyError "Failed to create presentation" |}
  ∧ presentations (store (route_world (post_presentations (Some title) w)))
    = presentations (store w) ++ [new_presentation w title]
  ∧ slides (store (route_world (post_presentations (Some title) w)))
    = slides (store w).
Proof.
  intros Ht [d Hd] Hf Hp. unfold post_presentations. rewrite Ht, Hd.
  by erewrite createPresentation_slide_fault.
Qed.

Lemma post_presentation_is_not_atomic_witness :
  presentations
    (store (route_world (post_presentations (Some "Talk")
                           (set_faults (λ _, [None; Some outage]) slide_deck))))
  = presentations (store slide_deck) ++ [new_presentation slide_deck "Talk"].
Proof.
  refine (proj1 (proj2 (post_presentation_is_not_atomic "Talk"
            (set_faults (λ _, [None; Some outage]) slide_deck) outage [] _ _ _ _))).
  - reflexivity.
  - by eexists.
  - reflexivity.
  - apply (bool_decide_unpack _). by vm_compute.
Defined.

Lemma deletePresentation_served id w :
  served w = true →
  deletePresentation id w
  = (Normal (),
     set_store (λ _, q_delete_presentation id (store w)) (set_faults (drop 1) w),
     [StoreOk delete_presentations]).
Proof.
  intros Hs. unfold deletePresentation. rewrite bind_run.
  by erewrite query_served.
Qed.

Lemma deletePresentation_fault id w e fs :
  faults w = Some e :: fs →
  deletePresentation id w
  = (Throw (JsError ("Failed to delete presentation: " +:+ message e)),
     set_faults (drop 1) w, [StoreErr delete_presentations e]).
Proof.
  intros Hf. unfold deletePresentation. rewrite bind_run.
  by erewrite query_fault.
Qed.

Lemma filter_filter_none {A} (P Q : A → Prop) `{!∀ x, Decision (P x)}
    `{!∀ x, Decision (Q x)} (l : list A) :
  (∀ x, P x → Q x → False) → filter P (filter Q l) = [].
Proof.
  intros HPQ. induction l as [|a l IH]; [done|].
  rewrite (filter_cons Q). destruct (decide (Q a)); [|done].
  rewrite filter_cons. destruct (decide (P a)); [|done]. by destruct (HPQ a).
Qed.

Lemma filter_filter_all {A} (P Q : A → Prop) `{!∀ x, Decision (P x)}
    `{!∀ x, Decision (Q x)} (l : list A) :
  (∀ x, P x → Q x) → filter P (filter Q l) = filter P l.
Proof.
  intros HPQ. induction l as [|a l IH]; [done|].
  rewrite (filter_cons Q), (filter_cons P).
  destruct (decide (Q a)) as [HQ|HQ].
  - rewrite filter_cons. destruct (decide (P a)); by rewrite IH.
  - destruct (decide (P a)) as [HP|HP]; [by destruct HQ; apply HPQ|done].
Qed.

Lemma told_deleted_members id (t : list Effect) (l : list string) :
  told_deleted id ((Within <$> t) ++ ((λ s, PresentationDeleted s id) <$> l)) = l.
Proof.
  unfold told_deleted. rewrite omap_app.
  replace (omap _ (Within <$> t)) with (@nil string)
    by (induction t as [|e t IH]; [done|by csimpl]).
  simpl. induction l as [|s l IH]; [done|]. csimpl.
  rewrite bool_decide_eq_true_2 by done. by rewrite IH.
Qed.

(** X19. DELETE of a stored presentation, the store serving: the answer is
    204; the presentation, its slides, their text blocks and its session rows are
    gone and the slides and sessions of every other presentation are as they
    were; the room is dropped from the index; each member of the room is told
    once and nobody else is; the two registry maps are not touched. *)
Theorem delete_presentation_cascades id w :
  is_Some (db w) → served w = true → has_presentation (store w) id = true →
  http_status (route_response (delete_presentation id w)) = 204%Z
  ∧ has_presentation (store (route_world (delete_presentation id w))) id = false
  ∧ slides_of (store (route_world (delete_presentation id w))) id = []
  ∧ users_of (store (route_world (delete_presentation id w))) id = []
  ∧ blocks_of (store w) id
      ## text_blocks (store (route_world (delete_presentation id w)))
  ∧ (∀ Q, Q ≠ id →
       slides_of (store (route_world (delete_presentation id w))) Q
       = slides_of (store w) Q
       ∧ users_of (store (route_world (delete_presentation id w))) Q
         = users_of (store w) Q)
  ∧ activePresentations (route_world (delete_presentation id w))
    = delete id (activePresentations w)
  ∧ told_deleted id (route_effects (delete_presentation id w))
    ≡ₚ elements (membersOf w id)
  ∧ userSockets (route_world (delete_presentation id w)) = userSockets w
  ∧ socketUsers (route_world (delete_presentation id w)) = socketUsers w.
Proof.
  intros [d Hd] Hs Hhas. unfold delete_presentation. rewrite Hd.
  rewrite deletePresentation_served by done.
  cbn [activePresentations set_store set_faults].
  assert (∀ r : HttpResponse * World * list RouteEffect,
            store (route_world r) = q_delete_presentation id (store w) →
            has_presentation (store (route_world r)) id = false
            ∧ slides_of (store (route_world r)) id = []
            ∧ users_of (store (route_world r)) id = []
            ∧ blocks_of (store w) id ## text_blocks (store (route_world r))
            ∧ (∀ Q, Q ≠ id →
                 slides_of (store (route_world r)) Q = slides_of (store w) Q
                 ∧ users_of (store (route_world r)) Q = users_of (store w) Q))
    as Hstore.
  { intros r ->. unfold q_delete_presentation. rewrite Hhas.
    unfold has_presentation, slides_of, users_of, blocks_of. simpl.
    split; [|split; [|split; [|split]]].
    - apply bool_decide_eq_false_2. rewrite Exists_exists.
      intros (p & [Hne _]%list_elem_of_filter & Heq). done.
    - by apply filter_filter_none.
    - by apply filter_filter_none.
    - intros b [Hin _]%list_elem_of_filter [Hout _]%list_elem_of_filter. done.
    - intros Q HQ. split; apply filter_filter_all; congruence. }
  destruct (activePresentations w !! id) as [sockets|] eqn:Hroom.
  - split; [done|]. destruct (Hstore (
      {| http_status := 204; http_body := BodyEmpty |},
      set_activePresentations (delete id)
        (set_store (λ _, q_delete_presentation id (store w)) (set_faults (drop 1) w)),
      [])) as (H1 & H2 & H3 & H4 & H5); [done|].
    unfold route_world, route_effects in *. cbn [fst snd] in *.
    do 5 (split; [done|]). split; [done|]. split; [|done].
    rewrite told_deleted_members. unfold membersOf. by rewrite Hroom.
  - split; [done|]. destruct (Hstore (
      {| http_status := 204; http_body := BodyEmpty |},
      set_store (λ _, q_delete_presentation id (store w)) (set_faults (drop 1) w),
      [])) as (H1 & H2 & H3 & H4 & H5); [done|].
    unfold route_world, route_effects in *. cbn [fst snd] in *.
    do 5 (split; [done|]). split; [|split; [|done]].
    + simpl. by rewrite delete_id.
    + unfold membersOf. rewrite Hroom.
      change (default ∅ None) with (∅ : gset string). rewrite elements_empty.
      by rewrite <- (app_nil_r (Within <$> _)), (told_deleted_members id _ []).
Qed.

Lemma delete_presentation_cascades_witness :
  told_deleted "P" (route_effects (delete_presentation "P" room_abc))
  ≡ₚ elements (membersOf room_abc "P").
Proof.
  destruct (delete_presentation_cascades "P" room_abc)
    as (_ & _ & _ & _ & _ & _ & _ & Htold & _).
  - by eexists.
  - reflexivity.
  - reflexivity.
  - exact Htold.
Defined.

(** X20. DELETE of an id the store does not have is answered with 204 as
    well: no table changes, and a room under that id is dropped all the same. *)
Theorem delete_unknown_presentation id w :
  is_Some (db w) → served w = true → has_presentation (store w) id = false →
  http_status (route_response (delete_presentation id w)) = 204%Z
  ∧ store (route_world (delete_presentation id w)) = store w
  ∧ activePresentations (route_world (delete_presentation id w))
    = delete id (activePresentations w).
Proof.
  intros [d Hd] Hs Hhas. unfold delete_presentation. rewrite Hd.
  rewrite deletePresentation_served by done.
  cbn [activePresentations set_store set_faults].
  unfold route_world, route_response.
  destruct (activePresentations w !! id) as [sockets|] eqn:Hroom; cbn [fst snd];
    (split; [done|]); simpl; unfold q_delete_presentation; rewrite Hhas;
    (split; [done|]); [done|by rewrite delete_id].
Qed.

Lemma delete_unknown_presentation_witness :
  http_status (route_response (delete_presentation "Q" room_abc)) = 204%Z.
Proof.
  refine (proj1 (delete_unknown_presentation "Q" room_abc _ _ _)).
  - by eexists.
  - reflexivity.
  - reflexivity.
Defined.

(** X21. DELETE when the store fails answers 500: tables and tracking maps
    are as they were and no member is told. *)
Theorem delete_presentation_failure id w e fs :
  is_Some (db w) → faults w = Some e :: fs →
  route_response (delete_presentation id w)
  = {| http_status := 500; http_body := BodyError "Failed to delete presentation" |}
  ∧ same_state w (route_world (delete_presentation id w))
  ∧ told_deleted id (route_effects (delete_presentation id w)) = [].
Proof.
  intros [d Hd] Hf. unfold delete_presentation. rewrite Hd.
  by erewrite deletePresentation_fault.
Qed.

Lemma delete_presentation_failure_witness :
  same_state room_abc_outage (route_world (delete_presentation "P" room_abc_outage)).
Proof.
  refine (proj1 (proj2 (delete_presentation_failure "P" room_abc_outage outage [] _ _))).
  - by eexists.
  - reflexivity.
Defined.

(** ** Sessions by socket *)

Lemma getUserBySocketId_served s w :
  served w = true →
  getUserBySocketId s w
  = (Normal (match active_on (store w) s with [u] => Some u | _ => None end),
     set_store (λ _, store w) (set_faults (drop 1) w),
     [match active_on (store w) s with
      | [u] => StoreOk select_users
      | _ => StoreErr select_users
               {| code := "PGRST116";
                  message := "JSON object requested, multiple (or no) rows returned" |}
      end]).
Proof.
  intros Hs. unfold getUserBySocketId. rewrite bind_run.
  destruct (query_cases select_users
              (λ st, (q_select_user_by_socket s st, st)) w)
    as [(e & Hrun & Hq)|(a & st & _ & Hq & Hrun)];
    fold select_users; rewrite Hrun.
  - destruct (Hq Hs) as [st Hst]. unfold q_select_user_by_socket in Hst.
    fold (active_on (store w) s) in Hst.
    assert (set_faults (drop 1) w = set_store (λ _, store w) (set_faults (drop 1) w))
      as Hw by (by destruct w).
    destruct (active_on (store w) s) as [|u [|v l]]; simplify_eq/=; by rewrite <- Hw.
  - unfold q_select_user_by_socket in Hq. fold (active_on (store w) s) in Hq.
    destruct (active_on (store w) s) as [|u [|v l]]; by simplify_eq/=.
Qed.

(** X22. [getUserBySocketId], served, finds a session exactly when one
    active row, and one only, is bound to the socket; with none or with several
    it answers null and does not throw. *)
Theorem getUserBySocketId_unique s w :
  served w = true →
  (∀ u, completion_of (getUserBySocketId s w) = Normal (Some u)
        ↔ active_on (store w) s = [u])
  ∧ (completion_of (getUserBySocketId s w) = Normal None
     ↔ length (active_on (store w) s) ≠ 1%nat).
Proof.
  intros Hs. rewrite getUserBySocketId_served by done. unfold completion_of. simpl.
  destruct (active_on (store w) s) as [|v [|v' l]]; simpl;
    (split; [intros u; split; [intros ?|intros ?]|split; [intros ?|intros ?]]);
    by simplify_eq.
Qed.

Lemma getUserBySocketId_unique_witness :
  completion_of (getUserBySocketId "A" room_abc) = Normal None
  ↔ length (active_on (store room_abc) "A") ≠ 1%nat.
Proof.
  refine (proj2 (getUserBySocketId_unique "A" room_abc _)). reflexivity.
Defined.

Lemma setUserInactive_served s w :
  served w = true →
  setUserInactive s w
  = (Normal (),
     set_store (λ _, q_retire_users (bound_to s) (clock w) (store w))
       (set_faults (drop 1) w),
     [StoreOk update_users]).
Proof.
  intros Hs. unfold setUserInactive, date_now. rewrite gets_bind_run, bind_run.
  by erewrite query_served.
Qed.

Lemma updateUserSocketId_served uid s w :
  served w = true →
  updateUserSocketId uid s w
  = (Normal (),
     set_store
       (λ _, q_rebind_users (λ u, bool_decide (PresentationUser.id u = uid)) s
               (clock w) (store w))
       (set_faults (drop 1) w),
     [StoreOk update_users]).
Proof.
  intros Hs. unfold updateUserSocketId, date_now. rewrite gets_bind_run, bind_run.
  by erewrite query_served.
Qed.

Lemma filter_map_none {A} (P : A → Prop) `{!∀ x, Decision (P x)} (f : A → A)
    (l : list A) :
  (∀ x, ¬ P (f x)) → filter P (map f l) = [].
Proof.
  intros Hf. induction l as [|a l IH]; [done|]. simpl.
  by rewrite filter_cons, decide_False.
Qed.

(** X23. After [setUserInactive] or [removeUserBySocketId] for a socket,
    [getUserBySocketId] finds no session under it. *)
Theorem retired_socket_is_not_found s w :
  calm 2 w →
  completion_of (getUserBySocketId s (world_of (setUserInactive s w))) = Normal None
  ∧ completion_of (getUserBySocketId s (world_of (removeUserBySocketId s w)))
    = Normal None.
Proof.
  intros Hcalm.
  assert (served w = true) as Hs by (by eapply calm_served).
  rewrite setUserInactive_served, removeUserBySocketId_served by done.
  unfold world_of. cbn [fst snd].
  rewrite !getUserBySocketId_served
    by (eapply (calm_served 0), calm_next; [|exact Hcalm]; done).
  unfold completion_of, active_on. cbn [fst snd store set_store set_faults].
  unfold q_retire_users, q_deactivate_users. simpl.
  rewrite !filter_map_none; [done| |].
  - intros u [Hsock Hact]. unfold bound_to in *.
    case_bool_decide as Hb; simpl in *; [done|]. by destruct u.
  - intros u [Hsock Hact]. unfold bound_to in *.
    case_bool_decide as Hb; simpl in *; [done|]. by destruct u.
Qed.

Lemma retired_socket_is_not_found_witness :
  completion_of (getUserBySocketId "B" (world_of (setUserInactive "B" room_abc)))
  = Normal None.
Proof.
  refine (proj1 (retired_socket_is_not_found "B" room_abc _)).
  apply (bool_decide_unpack _). by vm_compute.
Defined.

Lemma filter_ext_in {A} (P Q : A → Prop) `{!∀ x, Decision (P x)}
    `{!∀ x, Decision (Q x)} (l : list A) :
  (∀ x, x ∈ l → P x ↔ Q x) → filter P l = filter Q l.
Proof.
  induction l as [|a l IH]; [done|]. intros Hext.
  rewrite !filter_cons.
  assert (P a ↔ Q a) as Ha by (apply Hext; left).
  rewrite IH by (intros x Hx; apply Hext; by right).
  destruct (decide (P a)), (decide (Q a)); tauto.
Qed.

Lemma filter_map_comm {A} (P : A → Prop) `{!∀ x, Decision (P x)} (f : A → A)
    (l : list A) :
  filter P (map f l) = map f (filter (λ x, P (f x)) l).
Proof.
  induction l as [|a l IH]; [done|]. simpl. rewrite !filter_cons.
  destruct (decide (P (f a))); simpl; by rewrite IH.
Qed.

(** X24. After [updateUserSocketId] binds the one row of an active session
    to a socket that no other active session holds, [getUserBySocketId] finds
    that row under the socket, with the new binding and [last_seen] at the time
    of the update. *)
Theorem rebound_session_is_found uid s w u :
  calm 2 w →
  filter (λ v, PresentationUser.id v = uid) (presentation_users (store w)) = [u] →
  PresentationUser.is_active u = true →
  (∀ v, v ∈ active_on (store w) s → PresentationUser.id v = uid) →
  completion_of (getUserBySocketId s (world_of (updateUserSocketId uid s w)))
  = Normal (Some (rebound s (clock w) u)).
Proof.
  intros Hcalm Hrow Hact Hfree.
  assert (served w = true) as Hs by (by eapply calm_served).
  rewrite updateUserSocketId_served by done. unfold world_of. cbn [fst snd].
  rewrite getUserBySocketId_served
    by (eapply (calm_served 0), calm_next; [|exact Hcalm]; done).
  unfold completion_of, active_on. cbn [fst snd store set_store set_faults].
  unfold q_rebind_users. simpl. rewrite filter_map_comm.
  erewrite filter_ext_in; [rewrite Hrow; simpl|].
  - rewrite bool_decide_eq_true_2; [done|].
    assert (u ∈ filter (λ v, PresentationUser.id v = uid)
                  (presentation_users (store w))) as Hin by (rewrite Hrow; left).
    by apply list_elem_of_filter in Hin as [? _].
  - intros v Hv. simpl. case_bool_decide as Hid; simpl.
    + split; [done|]. intros _. split; [done|].
      assert (v ∈ filter (λ v, PresentationUser.id v = uid)
                    (presentation_users (store w))) as Hin
        by (by apply list_elem_of_filter).
      rewrite Hrow in Hin. by apply list_elem_of_singleton in Hin as ->.
    + split; [|done]. intros Hboth. apply Hfree.
      unfold active_on. by apply list_elem_of_filter.
Qed.

Lemma rebound_session_is_found_witness :
  completion_of (getUserBySocketId "Z" (world_of (updateUserSocketId "u2" "Z" room_abc)))
  = Normal (Some (rebound "Z" (clock room_abc)
                    (PresentationUser.mk "u2" "P" "bob" viewer (Some "B") true
                       (Some 0%Z) (Some 0%Z)))).
Proof.
  apply (rebound_session_is_found "u2" "Z" room_abc).
  - apply (bool_decide_unpack _). by vm_compute.
  - reflexivity.
  - reflexivity.
  - intros v Hv. vm_compute in Hv. by apply elem_of_nil in Hv.
Defined.
